(** * openaddr.preview: a shallow embedding of the preview renderer

    The development follows [src/openaddr/preview.py].  Python floats are
    read in two ways.  The functions under their source names take them as
    exact real numbers ([R]): the general theorems are about this reading,
    and the statements that depend on it say so.  Module [Binary64] has the
    numeric functions a second time, over binary64 (the primitive floats),
    operation by operation as Python computes them; there the code is
    evaluated on concrete inputs, which shows where rounding, underflow and
    overflow make it leave the exact reading.  Python exceptions are values
    of [exn], and a computation that can raise returns a [result]. *)

From Stdlib Require Import Floats.PrimFloat Floats.SpecFloat Floats.FloatOps.
From Stdlib Require Import Reals Lra Lia ZArith.
From stdpp Require Import gmap strings list pretty.

Set Warnings "-inexact-float".

(** ** Exceptions and the error monad *)

Inductive exn : Set :=
  | ValueError
  | ZeroDivisionError
  | OverflowError
  | KeyError
  | TypeError
  | IndexError
  | AttributeError
  | NotImplementedError
  | UnboundLocalError
  | OtherError (msg : string).

Inductive result (A : Type) : Type :=
  | Ok (a : A)
  | Raise (e : exn).
Arguments Ok {A} a.
Arguments Raise {A} e.

#[global] Instance result_ret : MRet result := @Ok.
#[global] Instance result_bind : MBind result := λ A B f m,
  match m with
  | Ok a => f a
  | Raise e => Raise e
  end.

Definition is_Ok {A} (m : result A) : Prop := ∃ a, m = Ok a.

(** ** Float arithmetic as used by the module, read as exact *)

Section numerics.
Local Open Scope R_scope.

#[global] Instance Rle_decision (a b : R) : Decision (a <= b) := Rle_dec a b.
#[global] Instance Rlt_decision (a b : R) : Decision (a < b) := Rlt_dec a b.
#[global] Instance Req_decision : EqDecision R := Req_dec_T.

(** [a / b] with [from __future__ import division]. *)
Definition truediv (a b : R) : result R :=
  if decide (b = 0) then Raise ZeroDivisionError else Ok (a / b).

(** [math.sqrt]. *)
Definition math_sqrt (a : R) : result R :=
  if decide (a < 0) then Raise ValueError else Ok (sqrt a).

(** [math.log]. *)
Definition math_log (a : R) : result R :=
  if decide (a <= 0) then Raise ValueError else Ok (ln a).

(** The builtin [sum]: left to right, starting from 0. *)
Definition py_sum (values : list R) : R := fold_left Rplus values 0.

(** The builtins [min] and [max] on a list: the first extreme element is
    kept, an empty list raises [ValueError]. *)
Definition py_min (values : list R) : result R :=
  match values with
  | [] => Raise ValueError
  | v :: rest => Ok (fold_left (λ m x, if decide (x < m) then x else m) rest v)
  end.

Definition py_max (values : list R) : result R :=
  match values with
  | [] => Raise ValueError
  | v :: rest => Ok (fold_left (λ m x, if decide (m < x) then x else m) rest v)
  end.

(** [int(x)] on a float: truncation toward zero. *)
Definition py_int (x : R) : Z :=
  if decide (0 <= x) then Int_part x else (- Int_part (- x))%Z.

(** [round(x)] on a float, one argument: nearest integer, ties to even. *)
Definition py_round (x : R) : Z :=
  let f := Int_part x in
  let d := x - IZR f in
  if decide (d < 1 / 2) then f
  else if decide (1 / 2 < d) then (f + 1)%Z
  else if Z.even f then f else (f + 1)%Z.

(** ** [stats] *)

Definition stats (values : list R) : result (R * R) :=
  mean ← truediv (py_sum values) (INR (length values));
  let deviations := map (λ val, (val - mean) ^ 2) values in
  variance ← truediv (py_sum deviations) (INR (length values));
  stddev ← math_sqrt variance;
  Ok (mean, stddev).

(** ** [calculate_bounds] *)

(** The two list comprehensions: [x for (x, y) in points if xmin <= x <= xmax]
    and its twin on [y]. *)
Definition okay_xs (points : list (R * R)) (xmin xmax : R) : list R :=
  fst <$> filter (λ p, xmin <= p.1 ∧ p.1 <= xmax) points.
Definition okay_ys (points : list (R * R)) (ymin ymax : R) : list R :=
  snd <$> filter (λ p, ymin <= p.2 ∧ p.2 <= ymax) points.

Definition calculate_bounds (points : list (R * R)) : result (R * R * R * R) :=
  match points with
  | [] => Raise ValueError (* xs, ys = zip( *points) cannot unpack *)
  | _ =>
    let xs := fst <$> points in
    let ys := snd <$> points in
    '(xmean, xsdev) ← stats xs;
    '(ymean, ysdev) ← stats ys;
    let xmin := xmean - 5 * xsdev in
    let xmax := xmean + 5 * xsdev in
    let ymin := ymean - 3 * ysdev in
    let ymax := ymean + 3 * ysdev in
    let okay_xs := okay_xs points xmin xmax in
    let okay_ys := okay_ys points ymin ymax in
    left ← py_min okay_xs;
    bottom ← py_min okay_ys;
    right ← py_max okay_xs;
    top ← py_max okay_ys;
    let width := right - left in
    let height := top - bottom in
    let left := left - width / 50 in
    let bottom := bottom - height / 50 in
    let right := right + width / 50 in
    let top := top + height / 50 in
    Ok (left, bottom, right, top)
  end.

(** ** The bounds as the specification words them *)

Definition total (values : list R) : R := foldr Rplus 0 values.

Definition mean (values : list R) : R := total values / INR (length values).

(** Population standard deviation: divisor [n]. *)
Definition pstdev (values : list R) : R :=
  sqrt (total ((λ v, (v - mean values) * (v - mean values)) <$> values)
        / INR (length values)).

(** [v] lies within [k] standard deviations of the mean of [values]. *)
Definition within (k : R) (values : list R) (v : R) : Prop :=
  mean values - k * pstdev values <= v ∧ v <= mean values + k * pstdev values.

#[global] Instance within_dec k values v : Decision (within k values v).
Proof. unfold within. apply _. Defined.

Definition is_min (m : R) (values : list R) : Prop :=
  m ∈ values ∧ ∀ v, v ∈ values → m <= v.
Definition is_max (m : R) (values : list R) : Prop :=
  m ∈ values ∧ ∀ v, v ∈ values → v <= m.

(** Steps 1 to 5 of the bounds estimator. *)
Definition is_spec_box (points : list (R * R)) (box : R * R * R * R) : Prop :=
  let xs := points.*1 in
  let ys := points.*2 in
  let kept_xs := filter (within 5 xs) xs in
  let kept_ys := filter (within 3 ys) ys in
  ∃ left right bottom top,
    is_min left kept_xs ∧ is_max right kept_xs ∧
    is_min bottom kept_ys ∧ is_max top kept_ys ∧
    box = (left - 2 / 100 * (right - left), bottom - 2 / 100 * (top - bottom),
           right + 2 / 100 * (right - left), top + 2 / 100 * (top - bottom)).

End numerics.

(** ** Canvas sizing and zoom *)

Section canvas.
Local Open Scope R_scope.

Definition EARTH_DIAMETER : R := 6378137 * 2 * PI.

(** The cairo objects, reduced to what the module observes: a surface is its
    pixel size, a context is the list of drawing calls made on it so far. *)
Record Surface := { surface_width : Z; surface_height : Z }.

Inductive draw_cmd :=
  | Scale (sx sy : R)
  | Translate (tx ty : R)
  | SetSourceRgb (r g b : R)
  | SetLineWidth (w : R)
  | Rectangle (x y w h : R)
  | Arc (xc yc radius angle1 angle2 : R)
  | MoveTo (x y : R)
  | LineTo (x y : R)
  | Fill
  | Stroke.

Definition Context := list draw_cmd.

(** ** [make_context] *)

(** The four cairo calls that end the function are taken to accept the
    size and the scale they are given: a surface that cairo refuses to
    make is not modelled, one that it refuses to write is, in
    [write_to_png]. *)
Definition make_context (left bottom right top width resolution : R)
  : result (Surface * Context * R) :=
  aspect ← truediv (right - left) (top - bottom);
  let hsize := py_int (resolution * width) in
  v ← truediv (IZR hsize) aspect;
  let vsize := py_int v in
  hscale ← truediv (IZR hsize) (right - left);
  v' ← truediv (IZR hsize) aspect;
  vscale ← truediv v' (bottom - top);
  let hoffset := - left in
  let voffset := - top in
  let surface := {| surface_width := hsize; surface_height := vsize |} in
  let context := [Scale hscale vscale; Translate hoffset voffset] in
  Ok (surface, context, hscale).

(** ** [calculate_zoom] *)

Definition calculate_zoom (scale resolution : R) : result R :=
  scale_at_zero ← truediv (resolution * 256) EARTH_DIAMETER;
  ratio ← truediv scale scale_at_zero;
  num ← math_log ratio;
  den ← math_log 2;
  truediv num den.

(** ** The tile index range of [get_map_features] (lines 131-137) *)

(** [range(a, b)]. *)
Definition py_range (a b : Z) : list Z := seqZ a (b - a).

Definition mincol (zoom : Z) (xmin : R) : R :=
  powerRZ 2 zoom * (xmin + EARTH_DIAMETER / 2) / EARTH_DIAMETER.
Definition minrow (zoom : Z) (ymax : R) : R :=
  powerRZ 2 zoom * (EARTH_DIAMETER / 2 - ymax) / EARTH_DIAMETER.
Definition maxcol (zoom : Z) (xmax : R) : R :=
  powerRZ 2 zoom * (xmax + EARTH_DIAMETER / 2) / EARTH_DIAMETER.
Definition maxrow (zoom : Z) (ymin : R) : R :=
  powerRZ 2 zoom * (EARTH_DIAMETER / 2 - ymin) / EARTH_DIAMETER.

(** [itertools.product(range(..), range(..))]: rows outside, columns inside. *)
Definition row_cols (zoom : Z) (xmin ymin xmax ymax : R) : list (Z * Z) :=
  row ← py_range (py_int (minrow zoom ymax)) (py_int (maxrow zoom ymin) + 1);
  col ← py_range (py_int (mincol zoom xmin)) (py_int (maxcol zoom xmax) + 1);
  [(row, col)].

End canvas.

(** ** The numeric functions in binary64 *)

(** The same functions with every float a binary64 number and every
    operation rounded as IEEE 754 rounds it, which is how CPython computes
    them.  [math.log] is not among the primitive operations, so
    [calculate_zoom] is not here, and the zoom is an argument. *)
Module Binary64.

(** The number a float stands for (0 for the infinities and NaN). *)
Definition to_R (x : float) : R :=
  match Prim2SF x with
  | S754_finite sign m e =>
      ((if sign then -1 else 1) * IZR (Z.pos m) * powerRZ 2 e)%R
  | _ => 0%R
  end.

(** An [int] where a float is needed: the nearest float, [OverflowError]
    when there is none. *)
Definition of_int (n : Z) : result float :=
  let x := SF2Prim (binary_normalize prec emax n 0 false) in
  if PrimFloat.is_infinity x then Raise OverflowError else Ok x.

Definition is_finite (x : float) : bool :=
  negb (PrimFloat.is_nan x || PrimFloat.is_infinity x).

(** [a / b]: a zero divisor raises, of either sign. *)
Definition truediv (a b : float) : result float :=
  if PrimFloat.eqb b 0 then Raise ZeroDivisionError else Ok (PrimFloat.div a b).

(** [a / n] for an [int] [n]. *)
Definition truediv_int (a : float) (n : Z) : result float :=
  if decide (n = 0%Z) then Raise ZeroDivisionError
  else b ← of_int n; Ok (PrimFloat.div a b).

Definition math_sqrt (a : float) : result float :=
  if PrimFloat.ltb a 0 then Raise ValueError else Ok (PrimFloat.sqrt a).

(** [math.pow(a, 2)]: the square, rounded once, and [OverflowError] when a
    finite [a] has a square beyond the largest float. *)
Definition math_pow_2 (a : float) : result float :=
  let p := PrimFloat.mul a a in
  if is_finite a && PrimFloat.is_infinity p then Raise OverflowError else Ok p.

(** The builtin [sum]: the additions in order, starting from the integer 0.
    CPython from 3.12 on also carries the rounding errors of the additions
    along and adds them at the end; on the lists summed in this file that
    gives the same floats. *)
Definition py_sum (values : list float) : float :=
  fold_left PrimFloat.add values 0%float.

Definition py_min (values : list float) : result float :=
  match values with
  | [] => Raise ValueError
  | v :: rest => Ok (fold_left (λ m x, if PrimFloat.ltb x m then x else m) rest v)
  end.

Definition py_max (values : list float) : result float :=
  match values with
  | [] => Raise ValueError
  | v :: rest => Ok (fold_left (λ m x, if PrimFloat.ltb m x then x else m) rest v)
  end.

(** [int(x)]: truncation toward zero; the infinities and NaN raise. *)
Definition py_int (x : float) : result Z :=
  match Prim2SF x with
  | S754_zero _ => Ok 0%Z
  | S754_finite sign m e =>
      let n := if (0 <=? e)%Z then Z.shiftl (Z.pos m) e
               else Z.shiftr (Z.pos m) (- e) in
      Ok (if sign then (- n)%Z else n)
  | S754_infinity _ => Raise OverflowError
  | S754_nan => Raise ValueError
  end.

Definition stats (values : list float) : result (float * float) :=
  mean ← truediv_int (py_sum values) (Z.of_nat (length values));
  deviations ← mapM (λ val, math_pow_2 (PrimFloat.sub val mean)) values;
  variance ← truediv_int (py_sum deviations) (Z.of_nat (length values));
  stddev ← math_sqrt variance;
  Ok (mean, stddev).

Definition okay_xs (points : list (float * float)) (xmin xmax : float)
  : list float :=
  fst <$> filter (λ p, PrimFloat.leb xmin p.1 && PrimFloat.leb p.1 xmax = true)
            points.
Definition okay_ys (points : list (float * float)) (ymin ymax : float)
  : list float :=
  snd <$> filter (λ p, PrimFloat.leb ymin p.2 && PrimFloat.leb p.2 ymax = true)
            points.

Definition calculate_bounds (points : list (float * float))
  : result (float * float * float * float) :=
  match points with
  | [] => Raise ValueError (* xs, ys = zip( *points) cannot unpack *)
  | _ =>
    let xs := fst <$> points in
    let ys := snd <$> points in
    '(xmean, xsdev) ← stats xs;
    '(ymean, ysdev) ← stats ys;
    let xmin := PrimFloat.sub xmean (PrimFloat.mul 5 xsdev) in
    let xmax := PrimFloat.add xmean (PrimFloat.mul 5 xsdev) in
    let ymin := PrimFloat.sub ymean (PrimFloat.mul 3 ysdev) in
    let ymax := PrimFloat.add ymean (PrimFloat.mul 3 ysdev) in
    let okay_xs := okay_xs points xmin xmax in
    let okay_ys := okay_ys points ymin ymax in
    left ← py_min okay_xs;
    bottom ← py_min okay_ys;
    right ← py_max okay_xs;
    top ← py_max okay_ys;
    let width := PrimFloat.sub right left in
    let height := PrimFloat.sub top bottom in
    let left := PrimFloat.sub left (PrimFloat.div width 50) in
    let bottom := PrimFloat.sub bottom (PrimFloat.div height 50) in
    let right := PrimFloat.add right (PrimFloat.div width 50) in
    let top := PrimFloat.add top (PrimFloat.div height 50) in
    Ok (left, bottom, right, top)
  end.

(** [make_context] up to the cairo calls, with the integers [main] passes
    for [width] and [resolution]: the surface size, the arguments of
    [scale] and of [translate], and the scale returned. *)
Definition make_context (left bottom right top : float) (width resolution : Z)
  : result (Surface * (float * float) * (float * float) * float) :=
  aspect ← truediv (PrimFloat.sub right left) (PrimFloat.sub top bottom);
  let hsize := (resolution * width)%Z in
  h ← of_int hsize;
  v ← truediv h aspect;
  vsize ← py_int v;
  hscale ← truediv h (PrimFloat.sub right left);
  v' ← truediv h aspect;
  vscale ← truediv v' (PrimFloat.sub bottom top);
  let hoffset := PrimFloat.opp left in
  let voffset := PrimFloat.opp top in
  let surface := {| surface_width := hsize; surface_height := vsize |} in
  Ok (surface, (hscale, vscale), (hoffset, voffset), hscale).

(** [math.pi]. *)
Definition pi : float := 0x1.921fb54442d18p+1%float.

Definition EARTH_DIAMETER : float :=
  PrimFloat.mul (SF2Prim (binary_normalize prec emax (6378137 * 2) 0 false)) pi.

(** [2**zoom] where a float is needed: an [int] for [zoom >= 0], a float
    below. *)
Definition two_to (zoom : Z) : result float :=
  if (0 <=? zoom)%Z then of_int (2 ^ zoom) else Ok (Z.ldexp 1 zoom).

Definition mincol (zoom : Z) (xmin : float) : result float :=
  p ← two_to zoom;
  Ok (PrimFloat.div
        (PrimFloat.mul p (PrimFloat.add xmin (PrimFloat.div EARTH_DIAMETER 2)))
        EARTH_DIAMETER).
Definition minrow (zoom : Z) (ymax : float) : result float :=
  p ← two_to zoom;
  Ok (PrimFloat.div
        (PrimFloat.mul p (PrimFloat.sub (PrimFloat.div EARTH_DIAMETER 2) ymax))
        EARTH_DIAMETER).
Definition maxcol (zoom : Z) (xmax : float) : result float :=
  p ← two_to zoom;
  Ok (PrimFloat.div
        (PrimFloat.mul p (PrimFloat.add xmax (PrimFloat.div EARTH_DIAMETER 2)))
        EARTH_DIAMETER).
Definition maxrow (zoom : Z) (ymin : float) : result float :=
  p ← two_to zoom;
  Ok (PrimFloat.div
        (PrimFloat.mul p (PrimFloat.sub (PrimFloat.div EARTH_DIAMETER 2) ymin))
        EARTH_DIAMETER).

Definition row_cols (zoom : Z) (xmin ymin xmax ymax : float)
  : result (list (Z * Z)) :=
  mincol ← mincol zoom xmin;
  minrow ← minrow zoom ymax;
  maxcol ← maxcol zoom xmax;
  maxrow ← maxrow zoom ymin;
  row0 ← py_int minrow;
  row1 ← py_int maxrow;
  col0 ← py_int mincol;
  col1 ← py_int maxcol;
  Ok (row ← py_range row0 (row1 + 1);
      col ← py_range col0 (col1 + 1);
      [(row, col)]).

End Binary64.

(** ** Parsed JSON and the Python operations the module applies to it *)

#[warnings="-register-all"]
Inductive json :=
  | JNull
  | JBool (b : bool)
  | JNum (x : R)
  | JStr (s : string)
  | JArr (items : list json)
  | JObj (members : gmap string json).

(** [needle in hay] on strings. *)
Fixpoint str_contains (needle hay : string) : bool :=
  String.prefix needle hay ||
  match hay with
  | EmptyString => false
  | String _ rest => str_contains needle rest
  end.

(** [value == s] for a string literal [s]. *)
Definition json_eq_str (value : json) (s : string) : bool :=
  match value with
  | JStr t => bool_decide (t = s)
  | _ => false
  end.

(** [obj[key]] with a string key. *)
Definition getitem (obj : json) (key : string) : result json :=
  match obj with
  | JObj members =>
      match members !! key with
      | Some value => Ok value
      | None => Raise KeyError
      end
  | _ => Raise TypeError
  end.

(** [obj.get(key)]. *)
Definition get_method (obj : json) (key : string) : result json :=
  match obj with
  | JObj members => Ok (default JNull (members !! key))
  | _ => Raise AttributeError
  end.

(** [needle in obj] for a string literal [needle]. *)
Definition py_in (needle : string) (obj : json) : result bool :=
  match obj with
  | JStr s => Ok (str_contains needle s)
  | JArr items => Ok (existsb (λ item, json_eq_str item needle) items)
  | JObj members => Ok (bool_decide (is_Some (members !! needle)))
  | _ => Raise TypeError
  end.

(** [value in (k1, k2, ...)] for a tuple of string literals. *)
Definition in_tuple (value : json) (kinds : list string) : bool :=
  existsb (json_eq_str value) kinds.

(** [for item in obj]: the items the loop visits (for a dict its keys, in an
    order the module never depends on). *)
Definition py_iter (obj : json) : result (list json) :=
  match obj with
  | JArr items => Ok items
  | JObj members => Ok (JStr <$> (map_to_list members).*1)
  | JStr s => Ok ((λ c, JStr (String c EmptyString)) <$> String.list_ascii_of_string s)
  | _ => Raise TypeError
  end.

(** ** OGR geometries *)

Definition Coord : Type := R * R.

#[warnings="-register-all"]
Inductive Geometry :=
  | Point (p : Coord)
  | LineString (points : list Coord)
  | Polygon (rings : list (list Coord))
  | MultiPoint (points : list Coord)
  | MultiLineString (lines : list (list Coord))
  | MultiPolygon (polygons : list (list (list Coord)))
  | GeometryCollection (geoms : list Geometry)
  (** [flat] with a third number on every vertex; the module never reads
      the third numbers, and they are not kept *)
  | Geometry25D (flat : Geometry).

(** The geometry types that OGR gives to what it reads from GeoJSON: the
    seven plain ones and their 2.5D variants, for coordinates with a third
    number. *)
Inductive wkbType :=
  | wkbPoint | wkbLineString | wkbPolygon | wkbMultiPoint
  | wkbMultiLineString | wkbMultiPolygon | wkbGeometryCollection
  | wkbPoint25D | wkbLineString25D | wkbPolygon25D | wkbMultiPoint25D
  | wkbMultiLineString25D | wkbMultiPolygon25D | wkbGeometryCollection25D.

#[global] Instance wkbType_eq_dec : EqDecision wkbType.
Proof. solve_decision. Defined.

Definition wkb25D (t : wkbType) : wkbType :=
  match t with
  | wkbPoint | wkbPoint25D => wkbPoint25D
  | wkbLineString | wkbLineString25D => wkbLineString25D
  | wkbPolygon | wkbPolygon25D => wkbPolygon25D
  | wkbMultiPoint | wkbMultiPoint25D => wkbMultiPoint25D
  | wkbMultiLineString | wkbMultiLineString25D => wkbMultiLineString25D
  | wkbMultiPolygon | wkbMultiPolygon25D => wkbMultiPolygon25D
  | wkbGeometryCollection | wkbGeometryCollection25D => wkbGeometryCollection25D
  end.

Fixpoint GetGeometryType (g : Geometry) : wkbType :=
  match g with
  | Point _ => wkbPoint
  | LineString _ => wkbLineString
  | Polygon _ => wkbPolygon
  | MultiPoint _ => wkbMultiPoint
  | MultiLineString _ => wkbMultiLineString
  | MultiPolygon _ => wkbMultiPolygon
  | GeometryCollection _ => wkbGeometryCollection
  | Geometry25D flat => wkb25D (GetGeometryType flat)
  end.

(** The GeoJSON name of a geometry type; GeoJSON has one name for a plain
    type and its 2.5D variant. *)
Definition geojson_name (t : wkbType) : string :=
  match t with
  | wkbPoint | wkbPoint25D => "Point"
  | wkbLineString | wkbLineString25D => "LineString"
  | wkbPolygon | wkbPolygon25D => "Polygon"
  | wkbMultiPoint | wkbMultiPoint25D => "MultiPoint"
  | wkbMultiLineString | wkbMultiLineString25D => "MultiLineString"
  | wkbMultiPolygon | wkbMultiPolygon25D => "MultiPolygon"
  | wkbGeometryCollection | wkbGeometryCollection25D => "GeometryCollection"
  end.

(** The plain types: [False] on the 2.5D ones. *)
Definition is_2D (t : wkbType) : Prop :=
  t ∈ [wkbPoint; wkbLineString; wkbPolygon; wkbMultiPoint; wkbMultiLineString;
       wkbMultiPolygon; wkbGeometryCollection].

(** [geom.Transform(ct)]: the coordinate transformation applied to every
    vertex, the shape of the geometry unchanged. *)
Fixpoint Transform (ct : Coord → Coord) (g : Geometry) : Geometry :=
  match g with
  | Point p => Point (ct p)
  | LineString pts => LineString (map ct pts)
  | Polygon rings => Polygon (map (map ct) rings)
  | MultiPoint pts => MultiPoint (map ct pts)
  | MultiLineString lines => MultiLineString (map (map ct) lines)
  | MultiPolygon polys => MultiPolygon (map (map (map ct)) polys)
  | GeometryCollection geoms => GeometryCollection (map (Transform ct) geoms)
  | Geometry25D flat => Geometry25D (Transform ct flat)
  end.

(** Iterating an OGR geometry visits its sub-geometries; the rings of a
    polygon are line strings. *)
Fixpoint sub_geometries (g : Geometry) : list Geometry :=
  match g with
  | Point _ | LineString _ => []
  | Polygon rings => LineString <$> rings
  | MultiPoint pts => Point <$> pts
  | MultiLineString lines => LineString <$> lines
  | MultiPolygon polys => Polygon <$> polys
  | GeometryCollection geoms => geoms
  | Geometry25D flat => Geometry25D <$> sub_geometries flat
  end.

(** The tuples of [GetPoints] have two numbers, or three for a 2.5D
    geometry. *)
Definition tuple_length (g : Geometry) : nat :=
  match g with Geometry25D _ => 3 | _ => 2 end.

(** [geom.GetPoints()]: the vertices of a point or a line string, first two
    numbers of each; the binding returns [None] and no list when there is
    no vertex. *)
Fixpoint GetPoints (g : Geometry) : option (list Coord) :=
  match g with
  | Point p => Some [p]
  | LineString (p :: pts) => Some (p :: pts)
  | Geometry25D flat => GetPoints flat
  | _ => None
  end.

(** [geom.GetX()] and [geom.GetY()], used on points only. *)
Definition GetX (g : Geometry) : R :=
  match g with Point p => p.1 | _ => 0%R end.
Definition GetY (g : Geometry) : R :=
  match g with Point p => p.2 | _ => 0%R end.

(** ** The world outside the module *)

(** A [requests] response: its raw body and what [got.json()] gives. *)
Record Response := { content : string; json_body : result json }.

(** A row of [csv.DictReader]: column name to cell, [None] for a short row. *)
Abbreviation Row := (gmap string (option string)).

(** Library calls and the environment, as functions of their arguments. *)
Class Externals := {
  (** [float(s)] on a string: the number, or [None] where [float] raises and
      for the spellings of nan and the infinities, which pass no range test *)
  float_of_str : string → option R;
  (** [urlparse(url)]: scheme and path *)
  urlparse : string → string * string;
  (** [os.path.splitext] *)
  splitext : string → string * string;
  (** [str.lower] *)
  str_lower : string → string;
  (** [requests.get] *)
  requests_get : string → result Response;
  (** [mkstemp(prefix, suffix)]: the name of the new file *)
  mkstemp : string → string → string;
  (** [uritemplate.expand(template, dict(z, x, y, api_key))] *)
  uritemplate_expand : string → Z → Z → Z → option string → string;
  (** [DictReader(open(filename, 'r'))]: all rows *)
  read_csv : string → result (list Row);
  (** [ZipFile(open(filename, 'rb'))]: entry names, each with its rows *)
  read_zip : string → result (list (string * result (list Row)));
  (** [ogr.CreateGeometryFromJson] on a GeoJSON geometry *)
  CreateGeometryFromJson : json → option Geometry;
  (** the transformation of [get_projection()], on one vertex *)
  project : Coord → Coord;
  (** [geom.Buffer(distance, quadsecs)] *)
  Buffer : Geometry → R → Z → Geometry;
  (** whether cairo's [surface.write_to_png(filename)] returns or raises *)
  cairo_write_to_png : Surface → string → result unit
}.

(** What a render leaves behind, in order.  [EvWritePng] is a PNG that
    cairo has written in full; [EvWritePngFailed] is a [write_to_png] that
    raised, after which the file may be missing, empty or cut short. *)
Inductive event :=
  | EvGet (url : string)
  | EvWriteFile (filename data : string)
  | EvWritePng (filename : string) (surface : Surface) (drawn : Context)
  | EvWritePngFailed (filename : string).

(** Computations that raise and act on the world. *)
Definition M (A : Type) : Type := list event → result A * list event.

#[global] Instance M_ret : MRet M := λ A a w, (Ok a, w).
#[global] Instance M_bind : MBind M := λ A B f m w,
  match m w with
  | (Ok a, w') => f a w'
  | (Raise e, w') => (Raise e, w')
  end.

Definition lift {A} (r : result A) : M A := λ w, (r, w).
Definition emit (e : event) : M unit := λ w, (Ok (), w ++ [e]).

(** A [for] loop that updates the variables [s] and stops at the first
    exception. *)
Fixpoint for_loop {m : Type → Type} `{!MBind m, !MRet m} {A S : Type}
    (body : S → A → m S) (items : list A) (s : S) : m S :=
  match items with
  | [] => mret s
  | item :: rest => s' ← body s item; for_loop body rest s'
  end.

(** [s.endswith(suffix)]. *)
Definition endswith (s suffix : string) : bool :=
  String.prefix (String.rev suffix) (String.rev s).

Section preview.
Context `{Externals}.
Local Open Scope R_scope.

Definition TILE_URL : string :=
  "http://tile.mapzen.com/mapzen/vector/v1/all/{z}/{x}/{y}.json{?api_key}".

(** ** [get_local_filename] *)

Definition get_local_filename (filename_or_url : string) : M string :=
  let '(scheme, path) := urlparse filename_or_url in
  let suffix := (splitext path).2 in
  if bool_decide (scheme ∈ [EmptyString; "file"]) then mret filename_or_url
  else if negb (bool_decide (scheme ∈ ["http"; "https"]))
  then lift (Raise ValueError)
  else
    _ ← emit (EvGet filename_or_url);
    got ← lift (requests_get filename_or_url);
    let filename := mkstemp "Preview-" suffix in
    _ ← emit (EvWriteFile filename (content got));
    mret filename.

(** ** [iterate_file_points] *)

(** [float(value)] on a cell. *)
Definition py_float (value : option string) : result R :=
  match value with
  | None => Raise TypeError
  | Some s =>
      match float_of_str s with
      | Some x => Ok x
      | None => Raise ValueError
      end
  end.

(** [row[key]]. *)
Definition row_getitem (row : Row) (key : string) : result (option string) :=
  match row !! key with
  | Some cell => Ok cell
  | None => Raise KeyError
  end.

(** The body of the [try]. *)
Definition row_lonlat (row : Row) : result (R * R) :=
  lon_cell ← row_getitem row "LON";
  lon ← py_float lon_cell;
  lat_cell ← row_getitem row "LAT";
  lat ← py_float lat_cell;
  Ok (lon, lat).

(** The loop over the rows: what it yields. *)
Fixpoint rows_points (rows : list Row) : list (R * R) :=
  match rows with
  | [] => []
  | row :: rest =>
      match row_lonlat row with
      | Raise _ => rows_points rest (* except: continue *)
      | Ok (lon, lat) =>
          if decide ((-180 <= lon ∧ lon <= 180) ∧ (-90 <= lat ∧ lat <= 90))
          then (lon, lat) :: rows_points rest
          else rows_points rest
      end
  end.

Definition iterate_file_points (filename : string) : result (list (R * R)) :=
  let suffix := str_lower (splitext filename).2 in
  if decide (suffix = ".csv") then
    rows ← read_csv filename;
    Ok (rows_points rows)
  else if decide (suffix = ".zip") then
    entries ← read_zip filename;
    let csv_names := filter (λ entry, endswith entry.1 ".csv" = true) entries in
    match csv_names with
    | [] => Raise IndexError (* csv_names[0] *)
    | (_, csv_file) :: _ => rows ← csv_file; Ok (rows_points rows)
    end
  else Raise UnboundLocalError (* open_file was never bound *).

(** ** [project_points] *)

(** ['{:.7f}'.format(x)] read back as a number. *)
Definition fmt7 (x : R) : R := IZR (py_round (x * 10 ^ 7)) / 10 ^ 7.

Definition project_points (lonlats : list (R * R)) : list Coord :=
  (λ '(lon, lat),
     let geom := Transform project (Point (fmt7 lon, fmt7 lat)) in
     (GetX geom, GetY geom)) <$> lonlats.

(** ** [get_map_features] *)

Definition landuse_kinds : list string :=
  ["cemetery"; "forest"; "golf_course"; "grave_yard"; "meadow"; "park";
   "pitch"; "wood"].
Definition water_kinds : list string :=
  ["basin"; "lake"; "ocean"; "riverbank"; "water"].
Definition roads_kinds : list string :=
  ["highway"; "major_road"; "minor_road"; "rail"; "path"].

(** The inner function [projected_geom]; [json.dumps] followed by OGR's
    reading is OGR applied to the parsed value. *)
Definition projected_geom (feature : json) : result Geometry :=
  geometry ← getitem feature "geometry";
  match CreateGeometryFromJson geometry with
  | None => Raise AttributeError (* None has no Transform *)
  | Some geom => Ok (Transform project geom)
  end.

(** ['Polygon' in feature['geometry']['type']], and with ['LineString']. *)
Definition geometry_type_has (needle : string) (feature : json) : result bool :=
  geometry ← getitem feature "geometry";
  type ← getitem geometry "type";
  py_in needle type.

(** The body of the loop over the landuse features. *)
Definition landuse_step (landuse_geoms : list Geometry) (feature : json)
  : result (list Geometry) :=
  is_polygon ← geometry_type_has "Polygon" feature;
  if is_polygon : bool then
    properties ← getitem feature "properties";
    kind ← get_method properties "kind";
    if in_tuple kind landuse_kinds then
      geom ← projected_geom feature;
      Ok (landuse_geoms ++ [geom])
    else Ok landuse_geoms
  else Ok landuse_geoms.

(** The body of the loop over the water features. *)
Definition water_step (water_geoms : list Geometry) (feature : json)
  : result (list Geometry) :=
  is_polygon ← geometry_type_has "Polygon" feature;
  if is_polygon : bool then
    properties ← getitem feature "properties";
    kind ← getitem properties "kind";
    if in_tuple kind water_kinds then
      geom ← projected_geom feature;
      Ok (water_geoms ++ [geom])
    else Ok water_geoms
  else Ok water_geoms.

(** The body of the loop over the roads features. *)
Definition roads_step (roads_geoms : list Geometry) (feature : json)
  : result (list Geometry) :=
  is_line ← geometry_type_has "LineString" feature;
  if is_line : bool then
    properties ← getitem feature "properties";
    kind ← getitem properties "kind";
    if in_tuple kind roads_kinds then
      geom ← projected_geom feature;
      Ok (roads_geoms ++ [geom])
    else Ok roads_geoms
  else Ok roads_geoms.

(** [got.json()[layer]['features']], ready to be looped over. *)
Definition layer_features (got : Response) (layer : string) : result (list json) :=
  body ← json_body got;
  collection ← getitem body layer;
  features ← getitem collection "features";
  py_iter features.

Definition Layers : Type := list Geometry * list Geometry * list Geometry.

(** What the loop body does with one fetched tile. *)
Definition tile_step (layers : Layers) (got : Response) : result Layers :=
  let '(landuse_geoms, water_geoms, roads_geoms) := layers in
  features ← layer_features got "landuse";
  landuse_geoms ← for_loop landuse_step features landuse_geoms;
  features ← layer_features got "water";
  water_geoms ← for_loop water_step features water_geoms;
  features ← layer_features got "roads";
  roads_geoms ← for_loop roads_step features roads_geoms;
  Ok (landuse_geoms, water_geoms, roads_geoms).

Definition tile_url (zoom : Z) (mapzen_key : option string) (row_col : Z * Z)
  : string :=
  uritemplate_expand TILE_URL zoom row_col.2 row_col.1 mapzen_key.

(** The body of the loop over [row_cols], given the zoom. *)
Definition fetch_tile (zoom : Z) (mapzen_key : option string)
    (layers : Layers) (row_col : Z * Z) : M Layers :=
  let url := tile_url zoom mapzen_key row_col in
  _ ← emit (EvGet url);
  got ← lift (requests_get url);
  lift (tile_step layers got).

Definition fetch_tiles (zoom : Z) (mapzen_key : option string)
    (tiles : list (Z * Z)) : M Layers :=
  for_loop (fetch_tile zoom mapzen_key) tiles ([], [], []).

Definition get_map_features (xmin ymin xmax ymax resolution scale : R)
    (mapzen_key : option string) : M Layers :=
  z ← lift (calculate_zoom scale resolution);
  let zoom := py_round z in
  fetch_tiles zoom mapzen_key (row_cols zoom xmin ymin xmax ymax).

(** ** [draw_line], [fill_geometries], [stroke_geometries] *)

Definition draw_line (ctx : Context) (start : Coord) (points : list Coord)
  : Context :=
  ctx ++ [MoveTo start.1 start.2] ++ ((λ point, LineTo point.1 point.2) <$> points).

(** [points[-1]] and [points[0]] on a list. *)
Definition last_item (points : list Coord) : result Coord :=
  match last points with
  | Some p => Ok p
  | None => Raise IndexError
  end.

Definition first_item (points : list Coord) : result Coord :=
  match points with
  | p :: _ => Ok p
  | [] => Raise IndexError
  end.

(** [draw_line(ctx, start, points)] on the tuples of [ring]:
    [ctx.move_to( *start)] takes two numbers, and raises [TypeError] on the
    three of a 2.5D vertex before anything is drawn. *)
Definition draw_ring (ring : Geometry) (ctx : Context) (start : Coord)
    (points : list Coord) : result Context :=
  if decide (tuple_length ring = 2%nat) then Ok (draw_line ctx start points)
  else Raise TypeError.

Definition set_source_rgb (rgb : R * R * R) : draw_cmd :=
  SetSourceRgb rgb.1.1 rgb.1.2 rgb.2.

(** The four arms of the [if]/[elif] chain of [fill_geometries]. *)
Inductive fill_arm := FillMultiPolygon | FillPolygon | FillPoint | FillOther.

Definition fill_arm_of (geometry : Geometry) : fill_arm :=
  if decide (GetGeometryType geometry = wkbMultiPolygon) then FillMultiPolygon
  else if decide (GetGeometryType geometry = wkbPolygon) then FillPolygon
  else if decide (GetGeometryType geometry = wkbPoint) then FillPoint
  else FillOther.

Definition fill_parts (geometry : Geometry) (muppx : R) : result (list Geometry) :=
  match fill_arm_of geometry with
  | FillMultiPolygon => Ok (sub_geometries geometry)
  | FillPolygon => Ok [geometry]
  | FillPoint => Ok [Buffer geometry (2 * muppx) 3]
  | FillOther => Raise NotImplementedError
  end.

(** The two lines that draw a ring: [points = ring.GetPoints()], then
    [draw_line(ctx, points[-1], points)] for a closed ring and
    [draw_line(ctx, points[0], points[1:])] for an open line. *)
Definition ring_line (closed : bool) (ctx : Context) (ring : Geometry)
  : result Context :=
  match GetPoints ring with
  | None => Raise TypeError (* points[-1] or points[0] on None *)
  | Some points =>
      if closed
      then start ← last_item points; draw_ring ring ctx start points
      else start ← first_item points; draw_ring ring ctx start (tail points)
  end.

Definition fill_part (ctx : Context) (part : Geometry) : result Context :=
  ctx ← for_loop (ring_line true) (sub_geometries part) ctx;
  Ok (ctx ++ [Fill]).

Definition fill_geometries (ctx : Context) (geometries : list Geometry)
    (muppx : R) (rgb : R * R * R) : result Context :=
  let ctx := ctx ++ [set_source_rgb rgb] in
  for_loop (λ ctx geometry,
      parts ← fill_parts geometry muppx;
      for_loop fill_part parts ctx)
    geometries ctx.

Definition stroke_ring (closed : bool) (ctx : Context) (ring : Geometry)
  : result Context :=
  ctx ← ring_line closed ctx ring;
  Ok (ctx ++ [Stroke]).

Definition stroke_geometries (ctx : Context) (geometries : list Geometry)
  : result Context :=
  for_loop (λ ctx geometry,
      let type := GetGeometryType geometry in
      let closed := bool_decide (type ∈ [wkbPolygon; wkbMultiPolygon]) in
      let stroke_part ctx part :=
        let rings :=
          if decide (GetGeometryType part = wkbPolygon)
          then sub_geometries part else [part] in
        for_loop (stroke_ring closed) rings ctx in
      if bool_decide (type ∈ [wkbMultiPolygon; wkbMultiLineString])
      then for_loop stroke_part (sub_geometries geometry) ctx
      else if bool_decide (type ∈ [wkbPolygon; wkbLineString])
      then for_loop stroke_part [geometry] ctx
      else Ok ctx (* continue *))
    geometries ctx.

(** ** [render] *)

Definition black : R * R * R := (0, 0, 0).
Definition off_white : R * R * R := (255 / 255, 252 / 255, 249 / 255).
Definition point_fill : R * R * R := (116 / 255, 165 / 255, 120 / 255).
Definition water_fill : R * R * R := (199 / 255, 222 / 255, 245 / 255).
Definition road_stroke : R * R * R := (192 / 255, 224 / 255, 224 / 255).
Definition park_fill : R * R * R := (221 / 255, 246 / 255, 222 / 255).

(** The loop that draws the markers. *)
Definition draw_points (ctx : Context) (points : list Coord) : Context :=
  ctx ++ (point ← points;
          [Arc point.1 point.2 15 0 (2 * PI); set_source_rgb point_fill; Fill;
           Arc point.1 point.2 15 0 (2 * PI); set_source_rgb black; Stroke]).

Definition write_to_png (surface : Surface) (ctx : Context) (png_filename : string)
  : M unit :=
  match cairo_write_to_png surface png_filename with
  | Ok _ => emit (EvWritePng png_filename surface ctx)
  | Raise e => _ ← emit (EvWritePngFailed png_filename); lift (Raise e)
  end.

Definition render (filename_or_url png_filename : string)
    (width resolution : R) (mapzen_key : option string) : M unit :=
  src_filename ← get_local_filename filename_or_url;
  lonlats ← lift (iterate_file_points src_filename);
  let points := project_points lonlats in
  '(xmin, ymin, xmax, ymax) ← lift (calculate_bounds points);
  '(surface, context, scale) ←
    lift (make_context xmin ymin xmax ymax width resolution);
  (* the log line formats calculate_zoom(scale, resolution) *)
  _ ← lift (calculate_zoom scale resolution);
  muppx ← lift (truediv resolution scale);
  let context :=
    context ++ [set_source_rgb off_white;
                Rectangle xmin ymax (xmax - xmin) (ymin - ymax); Fill] in
  '(landuse_geoms, water_geoms, roads_geoms) ←
    get_map_features xmin ymin xmax ymax resolution scale mapzen_key;
  context ← lift (fill_geometries context landuse_geoms muppx park_fill);
  context ← lift (fill_geometries context water_geoms muppx water_fill);
  let context :=
    context ++ [SetLineWidth (0.5 * muppx); set_source_rgb road_stroke] in
  context ← lift (stroke_geometries context roads_geoms);
  let context := context ++ [SetLineWidth (0.25 * muppx)] in
  let context := draw_points context points in
  write_to_png surface context png_filename.

End preview.

(** ** Notions the statements below are written in *)

Section notions.
Context `{Externals}.
Local Open Scope R_scope.

(** Slippy-map tiling: at [zoom] the square of side [EARTH_DIAMETER] centred
    on the origin is cut into tiles of side [EARTH_DIAMETER / 2^zoom];
    columns count from the west edge, rows from the north edge, both from 0. *)
Definition tile_side (zoom : Z) : R := EARTH_DIAMETER / powerRZ 2 zoom.

Definition tile_covers (zoom row col : Z) (p : Coord) : Prop :=
  (0 ≤ row)%Z ∧ (0 ≤ col)%Z ∧
  (- EARTH_DIAMETER / 2 + IZR col * tile_side zoom <= p.1 ∧
   p.1 < - EARTH_DIAMETER / 2 + (IZR col + 1) * tile_side zoom) ∧
  (EARTH_DIAMETER / 2 - (IZR row + 1) * tile_side zoom < p.2 ∧
   p.2 <= EARTH_DIAMETER / 2 - IZR row * tile_side zoom).

(** The number in a cell of a row, when the column is there and parses. *)
Definition cell_number (row : Row) (key : string) : option R :=
  match row !! key with
  | Some (Some s) => float_of_str s
  | _ => None
  end.

(** The point of a row with two numbers in the valid degree ranges. *)
Definition valid_point (row : Row) : option (R * R) :=
  lon ← cell_number row "LON";
  lat ← cell_number row "LAT";
  if decide ((-180 <= lon ∧ lon <= 180) ∧ (-90 <= lat ∧ lat <= 90))
  then Some (lon, lat) else None.

(** The feature has a string [kind] property, and it is on the list. *)
Definition has_kind_in (kinds : list string) (feature : json) : Prop :=
  ∃ members kind,
    getitem feature "properties" = Ok (JObj members) ∧
    members !! "kind" = Some (JStr kind) ∧ kind ∈ kinds.

(** The feature's geometry has a string [type] with [needle] inside. *)
Definition type_string_has (needle : string) (feature : json) : Prop :=
  ∃ geometry type,
    getitem feature "geometry" = Ok geometry ∧
    getitem geometry "type" = Ok (JStr type) ∧
    str_contains needle type = true.

(** The features the fetched tiles offer to a layer. *)
Definition offered (zoom : Z) (mapzen_key : option string) (tiles : list (Z * Z))
    (layer : string) (feature : json) : Prop :=
  ∃ row_col got features,
    row_col ∈ tiles ∧
    requests_get (tile_url zoom mapzen_key row_col) = Ok got ∧
    layer_features got layer = Ok features ∧
    feature ∈ features.

(** [geom] was appended for [feature] by the loop of a layer. *)
Definition accepted (needle : string) (kinds : list string)
    (feature : json) (geom : Geometry) : Prop :=
  geometry_type_has needle feature = Ok true ∧
  has_kind_in kinds feature ∧
  projected_geom feature = Ok geom.

(** Every geometry of the list came from an offered feature that passed. *)
Definition layer_ok (zoom : Z) (mapzen_key : option string) (tiles : list (Z * Z))
    (layer needle : string) (kinds : list string) (geoms : list Geometry) : Prop :=
  ∀ geom, geom ∈ geoms →
    ∃ feature, offered zoom mapzen_key tiles layer feature ∧
               accepted needle kinds feature geom.

Definition layers_ok (zoom : Z) (mapzen_key : option string) (tiles : list (Z * Z))
    (layers : Layers) : Prop :=
  layer_ok zoom mapzen_key tiles "landuse" "Polygon" landuse_kinds layers.1.1 ∧
  layer_ok zoom mapzen_key tiles "water" "Polygon" water_kinds layers.1.2 ∧
  layer_ok zoom mapzen_key tiles "roads" "LineString" roads_kinds layers.2.

(** The feature has a properties object without a [kind] member. *)
Definition lacks_kind (feature : json) : Prop :=
  ∃ members, getitem feature "properties" = Ok (JObj members) ∧
             members !! "kind" = None.

(** OGR builds a geometry only from an object whose [type] member is the
    GeoJSON name of the geometry it builds. *)
Definition ogr_reader_typed : Prop :=
  ∀ geometry geom,
    CreateGeometryFromJson geometry = Some geom →
    getitem geometry "type" = Ok (JStr (geojson_name (GetGeometryType geom))).

(** Every stage of [render] before [write_to_png] has returned: the world
    is [w2], and [surface] and [drawn] are what is about to be written. *)
Definition ready_to_write (filename_or_url : string) (width resolution : R)
    (mapzen_key : option string) (w w2 : list event)
    (surface : Surface) (drawn : Context) : Prop :=
  ∃ src_filename w1 lonlats xmin ymin xmax ymax context scale zoom muppx
    landuse water roads context1 context2 context3,
    get_local_filename filename_or_url w = (Ok src_filename, w1) ∧
    iterate_file_points src_filename = Ok lonlats ∧
    calculate_bounds (project_points lonlats) = Ok (xmin, ymin, xmax, ymax) ∧
    make_context xmin ymin xmax ymax width resolution = Ok (surface, context, scale) ∧
    calculate_zoom scale resolution = Ok zoom ∧
    truediv resolution scale = Ok muppx ∧
    get_map_features xmin ymin xmax ymax resolution scale mapzen_key w1
      = (Ok (landuse, water, roads), w2) ∧
    fill_geometries
      (context ++ [set_source_rgb off_white;
                   Rectangle xmin ymax (xmax - xmin) (ymin - ymax); Fill])
      landuse muppx park_fill = Ok context1 ∧
    fill_geometries context1 water muppx water_fill = Ok context2 ∧
    stroke_geometries
      (context2 ++ [SetLineWidth (0.5 * muppx); set_source_rgb road_stroke])
      roads = Ok context3 ∧
    drawn = draw_points (context3 ++ [SetLineWidth (0.25 * muppx)])
              (project_points lonlats).

(** Every offered feature that passes both tests of a layer has its
    projected geometry in the list. *)
Definition layer_complete (zoom : Z) (mapzen_key : option string)
    (tiles : list (Z * Z)) (layer needle : string) (kinds : list string)
    (geoms : list Geometry) : Prop :=
  ∀ feature,
    offered zoom mapzen_key tiles layer feature →
    geometry_type_has needle feature = Ok true →
    has_kind_in kinds feature →
    ∃ geom, projected_geom feature = Ok geom ∧ geom ∈ geoms.

End notions.

(** The events of [write_to_png], whether it returned or raised. *)
Definition is_png (e : event) : Prop :=
  match e with
  | EvWritePng _ _ _ | EvWritePngFailed _ => True
  | _ => False
  end.

(** [m] leaves the world as it was but for events that are no call of
    [write_to_png]. *)
Definition quiet {A} (m : M A) : Prop :=
  ∀ w r w', m w = (r, w') →
    ∃ events, w' = w ++ events ∧ Forall (λ e, ¬ is_png e) events.

(** [m] calls [write_to_png] at most once, on [filename], as its last act:
    it raises before the call, or in the call, or returns with the PNG
    written. *)
Definition png_last (filename : string) (m : M unit) : Prop :=
  ∀ w r w', m w = (r, w') →
    ∃ events, Forall (λ e, ¬ is_png e) events ∧
      (((∃ e, r = Raise e) ∧ w' = w ++ events) ∨
       ((∃ e, r = Raise e) ∧ w' = w ++ events ++ [EvWritePngFailed filename]) ∨
       (r = Ok () ∧ ∃ surface drawn,
          w' = w ++ events ++ [EvWritePng filename surface drawn])).

(** The requests among the events. *)
Definition get_urls (events : list event) : list string :=
  omap (λ e, match e with EvGet url => Some url | _ => None end) events.

(** ** Paths and markers *)

(** The path of a ring: from its last vertex through all its vertices, so
    back to the last. *)
Definition closed_path (ring : list Coord) : list draw_cmd :=
  match last ring with
  | Some start => draw_line [] start ring
  | None => []
  end.

(** The path of a line: from its first vertex through the others. *)
Definition open_path (line : list Coord) : list draw_cmd :=
  match line with
  | start :: rest => draw_line [] start rest
  | [] => []
  end.

Definition is_arc (cmd : draw_cmd) : Prop :=
  match cmd with Arc _ _ _ _ _ => True | _ => False end.

#[global] Instance is_arc_dec cmd : Decision (is_arc cmd).
Proof. destruct cmd; apply _. Defined.

(** ** A concrete environment *)

Section demo.
Local Open Scope R_scope.

(** Plain decimal literals: sign, digits, optional fraction; the value is
    numerator over denominator. *)
Definition digit_of (c : Ascii.ascii) : option Z :=
  let n := (Z.of_nat (Ascii.nat_of_ascii c) - 48)%Z in
  if decide (0 ≤ n ≤ 9)%Z then Some n else None.

Fixpoint digits_value (s : string) (acc : Z) : option Z :=
  match s with
  | EmptyString => Some acc
  | String c rest => d ← digit_of c; digits_value rest (10 * acc + d)%Z
  end.

Definition demo_decimal (s : string) : option (Z * Z) :=
  let '(sign, body) :=
    if String.prefix "-" s
    then ((-1)%Z, String.substring 1 (String.length s - 1) s)
    else (1%Z, s) in
  let '(whole, frac) :=
    match String.index 0 "." body with
    | Some i => (String.substring 0 i body,
                 String.substring (S i) (String.length body - S i) body)
    | None => (body, EmptyString)
    end in
  if decide (whole = EmptyString) then None
  else n ← digits_value (whole +:+ frac) 0;
       Some ((sign * n)%Z, (10 ^ Z.of_nat (String.length frac))%Z).

Definition demo_float (s : string) : option R :=
  (λ nd : Z * Z, IZR nd.1 / IZR nd.2) <$> demo_decimal s.

Definition demo_urlparse (url : string) : string * string :=
  if String.prefix "http://" url then ("http", url)
  else if String.prefix "https://" url then ("https", url)
  else if String.prefix "file://" url then ("file", url)
  else if String.prefix "ftp://" url then ("ftp", url)
  else (EmptyString, url).

Definition demo_splitext (path : string) : string * string :=
  if endswith path ".csv" then (path, ".csv")
  else if endswith path ".zip" then (path, ".zip")
  else (path, EmptyString).

Definition demo_row (lon lat : string) : Row :=
  {[ "LON" := Some lon; "LAT" := Some lat ]}.

(** Four points on a unit square. *)
Definition square_rows : list Row :=
  [demo_row "0" "0"; demo_row "1" "0"; demo_row "0" "1"; demo_row "1" "1"].

Definition square : list (R * R) := [(0, 0); (1, 0); (0, 1); (1, 1)].

(** Two points a thousand times further apart in longitude than in
    latitude. *)
Definition flat_rows : list Row := [demo_row "0" "0"; demo_row "100" "0.1"].

(** Five rows: two without a numeric LON, one with latitude 95. *)
Definition five_rows : list Row :=
  [demo_row "abc" "1"; demo_row "-30.5" "20"; demo_row EmptyString "2";
   demo_row "10" "95"; demo_row "10" "40"].

(** GeoJSON coordinates as OGR reads them. *)
Definition coord_of (value : json) : option Coord :=
  match value with
  | JArr [JNum x; JNum y] | JArr [JNum x; JNum y; JNum _] => Some (x, y)
  | _ => None
  end.

(** Some position in the coordinates has a third number. *)
Fixpoint has_z (value : json) : bool :=
  match value with
  | JArr items =>
      match items with
      | [JNum _; JNum _; JNum _] => true
      | _ => existsb has_z items
      end
  | _ => false
  end.

Definition coords_of (value : json) : option (list Coord) :=
  match value with
  | JArr items => mapM coord_of items
  | _ => None
  end.

Definition rings_of (value : json) : option (list (list Coord)) :=
  match value with
  | JArr items => mapM coords_of items
  | _ => None
  end.

Definition polygons_of (value : json) : option (list (list (list Coord))) :=
  match value with
  | JArr items => mapM rings_of items
  | _ => None
  end.

Definition demo_ogr_flat (type : string) (coordinates : json) : option Geometry :=
  if decide (type = "Point") then Point <$> coord_of coordinates
  else if decide (type = "LineString") then LineString <$> coords_of coordinates
  else if decide (type = "Polygon") then Polygon <$> rings_of coordinates
  else if decide (type = "MultiPoint") then MultiPoint <$> coords_of coordinates
  else if decide (type = "MultiLineString")
  then MultiLineString <$> rings_of coordinates
  else if decide (type = "MultiPolygon")
  then MultiPolygon <$> polygons_of coordinates
  else None.

(** A geometry with a third number in some position is read as 2.5D. *)
Definition demo_ogr (geometry : json) : option Geometry :=
  match geometry with
  | JObj members =>
      match members !! "type", members !! "coordinates" with
      | Some (JStr type), Some coordinates =>
          if has_z coordinates
          then Geometry25D <$> demo_ogr_flat type coordinates
          else demo_ogr_flat type coordinates
      | _, _ => None
      end
  | _ => None
  end.

Definition feature_collection (features : list json) : json :=
  JObj {[ "type" := JStr "FeatureCollection"; "features" := JArr features ]}.

Definition tile_body (landuse water roads : list json) : json :=
  JObj {[ "landuse" := feature_collection landuse;
          "water" := feature_collection water;
          "roads" := feature_collection roads ]}.

Definition demo_feature (type : string) (properties : gmap string json) : json :=
  JObj {[ "type" := JStr "Feature";
          "geometry" := JObj {[ "type" := JStr type; "coordinates" := JArr [] ]};
          "properties" := JObj properties ]}.

(** A tile with a park and a parking lot, a lake and a highway. *)
Definition demo_tile : json :=
  tile_body
    [demo_feature "Polygon" {[ "kind" := JStr "park" ]};
     demo_feature "Polygon" {[ "kind" := JStr "parking" ]}]
    [demo_feature "MultiPolygon" {[ "kind" := JStr "lake" ]}]
    [demo_feature "LineString" {[ "kind" := JStr "highway" ]}].

(** A tile with three empty collections. *)
Definition empty_tile : json := tile_body [] [] [].

(** A tile whose water polygon has properties without a kind. *)
Definition unkind_tile : json :=
  tile_body [] [demo_feature "Polygon" ∅] [].

(** A tile with one park, a triangle whose positions have a height. *)
Definition raised_park : json :=
  JObj {[ "type" := JStr "Feature";
          "geometry" :=
            JObj {[ "type" := JStr "Polygon";
                    "coordinates" :=
                      JArr [JArr [JArr [JNum 0; JNum 0; JNum 5];
                                  JArr [JNum 1; JNum 0; JNum 5];
                                  JArr [JNum 0; JNum 1; JNum 5];
                                  JArr [JNum 0; JNum 0; JNum 5]]] ]};
          "properties" := JObj {[ "kind" := JStr "park" ]} ]}.

Definition raised_tile : json := tile_body [raised_park] [] [].

(** cairo writes a surface with a width and a height, and no other: a PNG
    has neither a width nor a height of zero. *)
Definition demo_write_to_png (surface : Surface) (filename : string)
  : result unit :=
  if decide (0 < surface_width surface ∧ 0 < surface_height surface)%Z
  then Ok () else Raise (OtherError "cairo.Error").

Definition demo_response (body : json) : Response :=
  {| content := EmptyString; json_body := Ok body |}.

(** Every tile request is answered with [body]; [points.csv] holds the unit
    square, [flat.csv] the two points of [flat_rows], [points.zip] one CSV
    entry with the five rows. *)
Definition demo_env (body : json) : Externals := {|
  float_of_str := demo_float;
  urlparse := demo_urlparse;
  splitext := demo_splitext;
  str_lower := λ s, s;
  requests_get := λ url, Ok (demo_response body);
  mkstemp := λ prefix suffix, prefix +:+ "tmp" +:+ suffix;
  uritemplate_expand := λ template z x y api_key,
    "tile/" +:+ pretty z +:+ "/" +:+ pretty x +:+ "/" +:+ pretty y;
  read_csv := λ filename,
    if decide (filename = "points.csv") then Ok square_rows
    else if decide (filename = "flat.csv") then Ok flat_rows
    else Raise (OtherError "No such file");
  read_zip := λ filename,
    if decide (filename = "points.zip")
    then Ok [("README.txt", Ok []); ("points.csv", Ok five_rows)]
    else Raise (OtherError "No such file");
  CreateGeometryFromJson := demo_ogr;
  project := λ p, p;
  Buffer := λ geometry distance quadsecs, Polygon [];
  cairo_write_to_png := demo_write_to_png
|}.

(** The environment of [demo_env empty_tile], with every CSV file holding
    [rows]. *)
Definition csv_env (rows : list Row) : Externals := {|
  float_of_str := demo_float;
  urlparse := demo_urlparse;
  splitext := demo_splitext;
  str_lower := λ s, s;
  requests_get := λ url, Ok (demo_response empty_tile);
  mkstemp := λ prefix suffix, prefix +:+ "tmp" +:+ suffix;
  uritemplate_expand := λ template z x y api_key,
    "tile/" +:+ pretty z +:+ "/" +:+ pretty x +:+ "/" +:+ pretty y;
  read_csv := λ filename, Ok rows;
  read_zip := λ filename, Raise (OtherError "No such file");
  CreateGeometryFromJson := demo_ogr;
  project := λ p, p;
  Buffer := λ geometry distance quadsecs, Polygon [];
  cairo_write_to_png := demo_write_to_png
|}.

End demo.

(** * Theorems *)

Local Open Scope R_scope.

(** Two boxes are equal when their four sides are. *)
Ltac box_eq := f_equal; [f_equal; [f_equal|]|]; lra.

(** Settle, one after the other, the range tests on concrete numbers. *)
Ltac case_ranges :=
  repeat match goal with
         | |- context [decide ?P] =>
             let Hd := fresh "Hd" in
             destruct (decide P) as [Hd|Hd];
             [ try (exfalso; lra) | try (exfalso; apply Hd; repeat split; lra) ]
         end.

(** ** Bounds: [stats] and [calculate_bounds] *)

Lemma fold_left_Rplus (l : list R) (a : R) : fold_left Rplus l a = a + total l.
Proof.
  revert a. induction l as [|x l IH]; intros a; simpl.
  - lra.
  - rewrite IH. unfold total. simpl. lra.
Qed.

Lemma py_sum_total (l : list R) : py_sum l = total l.
Proof. unfold py_sum. rewrite fold_left_Rplus. lra. Qed.

Lemma INR_length_pos {A} (l : list A) : l ≠ [] → 0 < INR (length l).
Proof.
  destruct l; [done|]. intros _. apply lt_0_INR. apply Nat.lt_0_succ.
Qed.

Lemma total_squares_nonneg (l : list R) (m : R) :
  0 <= total ((λ v, (v - m) * (v - m)) <$> l).
Proof.
  induction l as [|x l IH]; [unfold total; simpl; lra|].
  rewrite fmap_cons. change (total (?a :: ?t)) with (a + total t).
  pose proof (Rle_0_sqr (x - m)) as Hsq. unfold Rsqr in Hsq. lra.
Qed.

Lemma variance_nonneg (l : list R) :
  l ≠ [] →
  0 <= total ((λ v, (v - mean l) * (v - mean l)) <$> l) / INR (length l).
Proof.
  intros Hl. apply Rmult_le_pos; [apply total_squares_nonneg|].
  left. apply Rinv_0_lt_compat. by apply INR_length_pos.
Qed.

Lemma bind_Ok {A B} (a : A) (f : A → result B) : Ok a ≫= f = f a.
Proof. reflexivity. Qed.

Lemma bind_Raise {A B} (e : exn) (f : A → result B) : Raise e ≫= f = Raise e.
Proof. reflexivity. Qed.

Lemma stats_eq (l : list R) : l ≠ [] → stats l = Ok (mean l, pstdev l).
Proof.
  intros Hl. pose proof (INR_length_pos l Hl) as Hn.
  unfold stats, truediv.
  destruct (decide (INR (length l) = 0)) as [E|_]; [lra|].
  rewrite !bind_Ok, !py_sum_total. fold (mean l).
  assert (Hmap : map (λ val, (val - mean l) ^ 2) l
                 = (λ v, (v - mean l) * (v - mean l)) <$> l).
  { apply map_ext. intros v. simpl. lra. }
  rewrite Hmap. unfold math_sqrt.
  pose proof (variance_nonneg l Hl) as Hv.
  destruct (decide (_ < 0)) as [E|_]; [lra|]. done.
Qed.

Lemma pstdev_nonneg (l : list R) : 0 <= pstdev l.
Proof. apply sqrt_pos. Qed.

Lemma pstdev_sqr (l : list R) :
  l ≠ [] →
  INR (length l) * (pstdev l * pstdev l)
  = total ((λ v, (v - mean l) * (v - mean l)) <$> l).
Proof.
  intros Hl. unfold pstdev. rewrite sqrt_sqrt by by apply variance_nonneg.
  pose proof (INR_length_pos l Hl). field. lra.
Qed.

Lemma total_gt (f : R → R) (c : R) (l : list R) :
  l ≠ [] → Forall (λ v, c < f v) l → INR (length l) * c < total (f <$> l).
Proof.
  intros Hl Hall. induction Hall as [|x l Hx Hall IH]; [done|].
  destruct l as [|y l].
  - simpl. unfold total. simpl. lra.
  - specialize (IH ltac:(done)).
    change (length (x :: y :: l)) with (S (length (y :: l))).
    rewrite S_INR. unfold total in *. simpl in *. lra.
Qed.

(** Some value lies within [k] standard deviations of the mean. *)
Lemma within_nonempty (k : R) (l : list R) :
  l ≠ [] → 1 <= k → filter (within k l) l ≠ [].
Proof.
  intros Hl Hk Hnil.
  assert (Hall : Forall (λ v, pstdev l * pstdev l
                              < (λ v, (v - mean l) * (v - mean l)) v) l).
  { apply Forall_forall. intros v Hv.
    assert (Hnot : ¬ within k l v).
    { intros Hw. assert (v ∈ filter (within k l) l) as Hmem
        by (apply list_elem_of_filter; split; done).
      rewrite Hnil in Hmem. by apply not_elem_of_nil in Hmem. }
    pose proof (pstdev_nonneg l) as Hs. unfold within in Hnot.
    assert (Hks : pstdev l <= k * pstdev l) by nra.
    destruct (Rle_dec (mean l - k * pstdev l) v) as [H1|H1].
    - assert (pstdev l < v - mean l) by
        (destruct (Rle_dec v (mean l + k * pstdev l)); [tauto|lra]).
      nra.
    - assert (pstdev l < mean l - v) by lra. nra. }
  pose proof (total_gt _ _ l Hl Hall) as Hlt.
  rewrite pstdev_sqr in Hlt by done. lra.
Qed.

Lemma fmap_filter_fst (Q : R * R → Prop) (P : R → Prop)
    `{!∀ p, Decision (Q p)} `{!∀ v, Decision (P v)} (points : list (R * R)) :
  (∀ p, Q p ↔ P p.1) → fst <$> filter Q points = filter P (points.*1).
Proof.
  intros HQP. induction points as [|p points IH]; [done|].
  rewrite fmap_cons, !filter_cons.
  destruct (decide (Q p)) as [HQ|HQ], (decide (P p.1)) as [HP|HP];
    rewrite ?fmap_cons, IH; try done; exfalso; apply HQP in HQ || apply HQP in HP; done.
Qed.

Lemma fmap_filter_snd (Q : R * R → Prop) (P : R → Prop)
    `{!∀ p, Decision (Q p)} `{!∀ v, Decision (P v)} (points : list (R * R)) :
  (∀ p, Q p ↔ P p.2) → snd <$> filter Q points = filter P (points.*2).
Proof.
  intros HQP. induction points as [|p points IH]; [done|].
  rewrite fmap_cons, !filter_cons.
  destruct (decide (Q p)) as [HQ|HQ], (decide (P p.2)) as [HP|HP];
    rewrite ?fmap_cons, IH; try done; exfalso; apply HQP in HQ || apply HQP in HP; done.
Qed.

Lemma fold_min_spec (rest : list R) (v : R) :
  is_min (fold_left (λ m x, if decide (x < m) then x else m) rest v) (v :: rest).
Proof.
  revert v. induction rest as [|x rest IH]; intros v; simpl.
  - split; [apply list_elem_of_here|].
    intros u Hu. apply list_elem_of_singleton in Hu as ->. lra.
  - destruct (IH (if decide (x < v) then x else v)) as [Hfound Hle].
    pose proof (Hle _ (list_elem_of_here _ _)) as Hhead. split.
    + apply elem_of_cons in Hfound as [Hfound|Hfound].
      * rewrite Hfound. destruct (decide (x < v)).
        -- apply list_elem_of_further, list_elem_of_here.
        -- apply list_elem_of_here.
      * by do 2 apply list_elem_of_further.
    + intros u Hu. apply elem_of_cons in Hu as [->|Hu].
      * destruct (decide (x < v)); lra.
      * apply elem_of_cons in Hu as [->|Hu].
        -- destruct (decide (x < v)); lra.
        -- apply Hle. by apply list_elem_of_further.
Qed.

Lemma fold_max_spec (rest : list R) (v : R) :
  is_max (fold_left (λ m x, if decide (m < x) then x else m) rest v) (v :: rest).
Proof.
  revert v. induction rest as [|x rest IH]; intros v; simpl.
  - split; [apply list_elem_of_here|].
    intros u Hu. apply list_elem_of_singleton in Hu as ->. lra.
  - destruct (IH (if decide (v < x) then x else v)) as [Hfound Hle].
    pose proof (Hle _ (list_elem_of_here _ _)) as Hhead. split.
    + apply elem_of_cons in Hfound as [Hfound|Hfound].
      * rewrite Hfound. destruct (decide (v < x)).
        -- apply list_elem_of_further, list_elem_of_here.
        -- apply list_elem_of_here.
      * by do 2 apply list_elem_of_further.
    + intros u Hu. apply elem_of_cons in Hu as [->|Hu].
      * destruct (decide (v < x)); lra.
      * apply elem_of_cons in Hu as [->|Hu].
        -- destruct (decide (v < x)); lra.
        -- apply Hle. by apply list_elem_of_further.
Qed.

Lemma py_min_spec (l : list R) : l ≠ [] → ∃ m, py_min l = Ok m ∧ is_min m l.
Proof.
  destruct l as [|v rest]; [done|]. intros _. eexists. split; [done|].
  apply fold_min_spec.
Qed.

Lemma py_max_spec (l : list R) : l ≠ [] → ∃ m, py_max l = Ok m ∧ is_max m l.
Proof.
  destruct l as [|v rest]; [done|]. intros _. eexists. split; [done|].
  apply fold_max_spec.
Qed.

Lemma is_min_unique (l : list R) (a b : R) : is_min a l → is_min b l → a = b.
Proof. intros [Ha Ha'] [Hb Hb']. apply Rle_antisym; auto. Qed.

Lemma is_max_unique (l : list R) (a b : R) : is_max a l → is_max b l → a = b.
Proof. intros [Ha Ha'] [Hb Hb']. apply Rle_antisym; auto. Qed.

Lemma okay_xs_within (points : list (R * R)) :
  okay_xs points (mean points.*1 - 5 * pstdev points.*1)
                 (mean points.*1 + 5 * pstdev points.*1)
  = filter (within 5 points.*1) points.*1.
Proof. unfold okay_xs. by apply fmap_filter_fst. Qed.

Lemma okay_ys_within (points : list (R * R)) :
  okay_ys points (mean points.*2 - 3 * pstdev points.*2)
                 (mean points.*2 + 3 * pstdev points.*2)
  = filter (within 3 points.*2) points.*2.
Proof. unfold okay_ys. by apply fmap_filter_snd. Qed.

Lemma fmap_nonempty {A B} (f : A → B) (l : list A) : l ≠ [] → f <$> l ≠ [].
Proof. by destruct l. Qed.

(** The code computes the box of the specification, on every non-empty input. *)
Lemma calculate_bounds_is_spec_box (points : list (R * R)) :
  points ≠ [] →
  ∃ box, calculate_bounds points = Ok box ∧ is_spec_box points box.
Proof.
  intros Hne. unfold calculate_bounds.
  destruct points as [|p0 points0] eqn:Hpts; [done|]. rewrite <- Hpts in *.
  rewrite (stats_eq points.*1) by by apply fmap_nonempty.
  rewrite bind_Ok. cbv beta iota.
  rewrite (stats_eq points.*2) by by apply fmap_nonempty.
  rewrite bind_Ok. cbv beta iota zeta.
  rewrite okay_xs_within, okay_ys_within.
  assert (Hx : filter (within 5 points.*1) points.*1 ≠ [])
    by (apply within_nonempty; [by apply fmap_nonempty|lra]).
  assert (Hy : filter (within 3 points.*2) points.*2 ≠ [])
    by (apply within_nonempty; [by apply fmap_nonempty|lra]).
  destruct (py_min_spec _ Hx) as (left & -> & Hleft).
  destruct (py_min_spec _ Hy) as (bottom & -> & Hbottom).
  destruct (py_max_spec _ Hx) as (right & -> & Hright).
  destruct (py_max_spec _ Hy) as (top & -> & Htop).
  rewrite !bind_Ok. eexists. split; [done|].
  exists left, right, bottom, top. do 4 (split; [done|]).
  box_eq.
Qed.

Lemma is_spec_box_unique (points : list (R * R)) (b1 b2 : R * R * R * R) :
  is_spec_box points b1 → is_spec_box points b2 → b1 = b2.
Proof.
  intros (l1 & r1 & bo1 & t1 & Hl1 & Hr1 & Hb1 & Ht1 & ->)
         (l2 & r2 & bo2 & t2 & Hl2 & Hr2 & Hb2 & Ht2 & ->).
  rewrite (is_min_unique _ _ _ Hl1 Hl2), (is_max_unique _ _ _ Hr1 Hr2),
    (is_min_unique _ _ _ Hb1 Hb2), (is_max_unique _ _ _ Ht1 Ht2). done.
Qed.

Lemma make_context_degenerate (left bottom right width resolution : R) :
  make_context left bottom right bottom width resolution = Raise ZeroDivisionError.
Proof.
  unfold make_context, truediv.
  destruct (decide (bottom - bottom = 0)) as [_|Hne]; [done|]. exfalso. lra.
Qed.

Lemma replicate_fst {A B} (n : nat) (a : A) (b : B) :
  (replicate n (a, b)).*1 = replicate n a.
Proof. by rewrite fmap_replicate. Qed.

Lemma replicate_snd {A B} (n : nat) (a : A) (b : B) :
  (replicate n (a, b)).*2 = replicate n b.
Proof. by rewrite fmap_replicate. Qed.

Lemma is_min_replicate (m x : R) (n : nat) (P : R → Prop) `{!∀ v, Decision (P v)} :
  is_min m (filter P (replicate n x)) → m = x.
Proof.
  intros [Hm _]. apply list_elem_of_filter in Hm as [_ Hm].
  by apply elem_of_replicate in Hm as [-> _].
Qed.

Lemma is_max_replicate (m x : R) (n : nat) (P : R → Prop) `{!∀ v, Decision (P v)} :
  is_max m (filter P (replicate n x)) → m = x.
Proof.
  intros [Hm _]. apply list_elem_of_filter in Hm as [_ Hm].
  by apply elem_of_replicate in Hm as [-> _].
Qed.

(** On [n + 1] copies of one point the code returns the box of size zero. *)
Lemma calculate_bounds_replicate (x y : R) (n : nat) :
  calculate_bounds (replicate (S n) (x, y)) = Ok (x, y, x, y).
Proof.
  destruct (calculate_bounds_is_spec_box (replicate (S n) (x, y)) ltac:(done))
    as (box & -> & (left & right & bottom & top & Hl & Hr & Hb & Ht & ->)).
  rewrite replicate_fst in Hl, Hr. rewrite replicate_snd in Hb, Ht.
  apply is_min_replicate in Hl as ->. apply is_max_replicate in Hr as ->.
  apply is_min_replicate in Hb as ->. apply is_max_replicate in Ht as ->.
  f_equal. box_eq.
Qed.

(** C1, as the code has it: on an input whose points are all the same point
    [(x, y)], [calculate_bounds] does not fail; it returns the zero-size box
    [(x, y, x, y)], and the division by zero happens afterwards, in
    [make_context], which raises [ZeroDivisionError] on that box. *)
Theorem calculate_bounds_identical_points (x y : R) (n : nat) :
  calculate_bounds (replicate (S n) (x, y)) = Ok (x, y, x, y) ∧
  ∀ width resolution,
    make_context x y x y width resolution = Raise ZeroDivisionError.
Proof.
  split; [apply calculate_bounds_replicate|].
  intros. apply make_context_degenerate.
Qed.

(** C1, as stated, fails: two copies of the point [(1, 2)] give a returned
    box, with [xmax = xmin] and [ymax = ymin], and no exception. *)
Lemma calculate_bounds_identical_points_returns :
  calculate_bounds [(1, 2); (1, 2)] = Ok (1, 2, 1, 2) ∧
  ¬ (∃ e, calculate_bounds [(1, 2); (1, 2)] = Raise e).
Proof.
  pose proof (calculate_bounds_replicate 1 2 1) as Heq.
  change (replicate 2 (1, 2)) with [(1, 2); (1, 2)] in Heq.
  split; [done|]. intros [e He]. by rewrite Heq in He.
Qed.

(** C2, with the arithmetic read as exact: on every non-empty list of points
    [calculate_bounds] returns, and what it returns is the one box of the
    specification: per-axis mean and
    population standard deviation, x-values kept within 5 and y-values within
    3 standard deviations of their own mean, per-axis minimum and maximum of
    the kept values, each side moved out by 2% of the width or height. *)
Theorem calculate_bounds_refines_spec (points : list (R * R)) :
  points ≠ [] →
  ∃ box, calculate_bounds points = Ok box ∧
         is_spec_box points box ∧
         ∀ box', is_spec_box points box' → box' = box.
Proof.
  intros Hne. destruct (calculate_bounds_is_spec_box points Hne) as (box & Heq & Hbox).
  exists box. repeat split; [done..|].
  intros box' Hbox'. by apply (is_spec_box_unique points).
Qed.

Lemma calculate_bounds_refines_spec_witness :
  [(0, 0); (1, 1)] ≠ [] ∧
  ∃ box, calculate_bounds [(0, 0); (1, 1)] = Ok box ∧
         is_spec_box [(0, 0); (1, 1)] box ∧
         ∀ box', is_spec_box [(0, 0); (1, 1)] box' → box' = box.
Proof.
  split; [discriminate|].
  apply (calculate_bounds_refines_spec [(0, 0); (1, 1)]). discriminate.
Defined.

(** C8, with the arithmetic read as exact: on every non-empty list of points
    both filtered lists of [calculate_bounds] are non-empty, so [min] and
    [max] succeed on them and the function returns; the reason is that
    among finitely many values one always lies within [k >= 1] standard
    deviations of their mean. *)
Theorem filtered_sets_nonempty (points : list (R * R)) :
  points ≠ [] →
  (∀ k values, values ≠ [] → 1 <= k → ∃ v, v ∈ values ∧ within k values v) ∧
  ∃ xmean xsdev ymean ysdev,
    stats points.*1 = Ok (xmean, xsdev) ∧
    stats points.*2 = Ok (ymean, ysdev) ∧
    okay_xs points (xmean - 5 * xsdev) (xmean + 5 * xsdev) ≠ [] ∧
    okay_ys points (ymean - 3 * ysdev) (ymean + 3 * ysdev) ≠ [] ∧
    is_Ok (py_min (okay_xs points (xmean - 5 * xsdev) (xmean + 5 * xsdev))) ∧
    is_Ok (py_max (okay_xs points (xmean - 5 * xsdev) (xmean + 5 * xsdev))) ∧
    is_Ok (py_min (okay_ys points (ymean - 3 * ysdev) (ymean + 3 * ysdev))) ∧
    is_Ok (py_max (okay_ys points (ymean - 3 * ysdev) (ymean + 3 * ysdev))) ∧
    is_Ok (calculate_bounds points).
Proof.
  intros Hne. split.
  { intros k values Hv Hk. pose proof (within_nonempty k values Hv Hk) as Hf.
    destruct (filter (within k values) values) as [|v rest] eqn:Hfilter; [done|].
    assert (Hv' : v ∈ filter (within k values) values)
      by (rewrite Hfilter; apply list_elem_of_here).
    apply list_elem_of_filter in Hv' as [? ?]. by exists v. }
  exists (mean points.*1), (pstdev points.*1), (mean points.*2), (pstdev points.*2).
  rewrite !stats_eq by by apply fmap_nonempty.
  rewrite okay_xs_within, okay_ys_within.
  assert (Hx : filter (within 5 points.*1) points.*1 ≠ [])
    by (apply within_nonempty; [by apply fmap_nonempty|lra]).
  assert (Hy : filter (within 3 points.*2) points.*2 ≠ [])
    by (apply within_nonempty; [by apply fmap_nonempty|lra]).
  destruct (py_min_spec _ Hx) as (? & ? & _), (py_max_spec _ Hx) as (? & ? & _),
    (py_min_spec _ Hy) as (? & ? & _), (py_max_spec _ Hy) as (? & ? & _).
  destruct (calculate_bounds_is_spec_box points Hne) as (box & ? & _).
  repeat split; try done; by eexists.
Qed.

Lemma filtered_sets_nonempty_witness :
  [(0, 0); (3, 4)] ≠ [] ∧ is_Ok (calculate_bounds [(0, 0); (3, 4)]).
Proof.
  split; [discriminate|].
  destruct (filtered_sets_nonempty [(0, 0); (3, 4)]) as [_ Hex]; [discriminate|].
  destruct Hex as (? & ? & ? & ? & ? & ? & ? & ? & ? & ? & ? & ? & Hok).
  exact Hok.
Defined.

(** ** The tile grid and the canvas *)

Lemma EARTH_DIAMETER_pos : 0 < EARTH_DIAMETER.
Proof. unfold EARTH_DIAMETER. pose proof PI_RGT_0. lra. Qed.

Lemma Int_part_bounds (r : R) : IZR (Int_part r) <= r ∧ r < IZR (Int_part r) + 1.
Proof. destruct (base_Int_part r). split; lra. Qed.

Lemma Int_part_ge (r : R) (c : Z) : IZR c <= r → (c ≤ Int_part r)%Z.
Proof.
  intros Hc. destruct (Int_part_bounds r) as [_ Hlt].
  assert (IZR c < IZR (Int_part r + 1)) as Hlt' by (rewrite plus_IZR; lra).
  apply lt_IZR in Hlt'. lia.
Qed.

Lemma Int_part_lt (r : R) (c : Z) : r < IZR c → (Int_part r < c)%Z.
Proof.
  intros Hc. destruct (Int_part_bounds r) as [Hle _].
  apply lt_IZR. lra.
Qed.

Lemma Int_part_IZR (z : Z) : Int_part (IZR z) = z.
Proof. symmetry. apply Int_part_spec. lra. Qed.

Lemma Int_part_unique (r : R) (z : Z) : IZR z <= r → r < IZR z + 1 → Int_part r = z.
Proof. intros. symmetry. apply Int_part_spec. lra. Qed.

Lemma py_int_nonneg (r : R) : 0 <= r → py_int r = Int_part r.
Proof. intros Hr. unfold py_int. by destruct (decide (0 <= r)). Qed.

Lemma py_int_IZR (z : Z) : py_int (IZR z) = z.
Proof.
  unfold py_int. destruct (decide (0 <= IZR z)); [apply Int_part_IZR|].
  rewrite <- opp_IZR, Int_part_IZR. lia.
Qed.

Lemma py_int_trunc (r : R) (z : Z) :
  0 <= r → IZR z <= r → r < IZR z + 1 → py_int r = z.
Proof. intros. rewrite py_int_nonneg by done. by apply Int_part_unique. Qed.

(** [int] of something below a point of tile [c >= 0] is at most [c]. *)
Lemma py_int_below (r s : R) (c : Z) :
  (0 ≤ c)%Z → r <= s → s < IZR c + 1 → (py_int r ≤ c)%Z.
Proof.
  intros Hc Hrs Hs. unfold py_int. destruct (decide (0 <= r)) as [Hr|Hr].
  - assert (Int_part r < c + 1)%Z; [|lia].
    apply Int_part_lt. rewrite plus_IZR. lra.
  - assert (0 ≤ Int_part (- r))%Z; [|lia]. apply Int_part_ge. lra.
Qed.

(** [int] of something above a point of tile [c >= 0] is at least [c]. *)
Lemma py_int_above (r s : R) (c : Z) :
  (0 ≤ c)%Z → IZR c <= s → s <= r → (c ≤ py_int r)%Z.
Proof.
  intros Hc Hs Hsr. apply IZR_le in Hc.
  rewrite py_int_nonneg by lra. apply Int_part_ge. lra.
Qed.

Lemma elem_of_py_range (a b x : Z) : x ∈ py_range a (b + 1) ↔ (a ≤ x ≤ b)%Z.
Proof. unfold py_range. rewrite elem_of_seqZ. lia. Qed.

Lemma elem_of_row_cols (zoom : Z) (xmin ymin xmax ymax : R) (row col : Z) :
  (row, col) ∈ row_cols zoom xmin ymin xmax ymax ↔
  (py_int (minrow zoom ymax) ≤ row ≤ py_int (maxrow zoom ymin))%Z ∧
  (py_int (mincol zoom xmin) ≤ col ≤ py_int (maxcol zoom xmax))%Z.
Proof.
  unfold row_cols. rewrite list_elem_of_bind. split.
  - intros (r & Hmem & Hr). apply list_elem_of_bind in Hmem as (c & Hmem & Hc).
    apply list_elem_of_singleton in Hmem. injection Hmem as -> ->.
    by rewrite elem_of_py_range in Hr, Hc.
  - intros [Hr Hc]. exists row. rewrite elem_of_py_range. split; [|done].
    apply list_elem_of_bind. exists col. rewrite elem_of_py_range.
    split; [by apply list_elem_of_singleton|done].
Qed.

Lemma NoDup_row_cols (zoom : Z) (xmin ymin xmax ymax : R) :
  NoDup (row_cols zoom xmin ymin xmax ymax).
Proof.
  unfold row_cols, py_range. apply NoDup_bind; [| |apply NoDup_seqZ].
  - intros r1 r2 [r c] _ _ H1 H2.
    apply list_elem_of_bind in H1 as (c1 & H1 & _).
    apply list_elem_of_bind in H2 as (c2 & H2 & _).
    apply list_elem_of_singleton in H1. apply list_elem_of_singleton in H2.
    congruence.
  - intros r _. apply NoDup_bind; [| |apply NoDup_seqZ].
    + intros c1 c2 [r' c] _ _ H1 H2.
      apply list_elem_of_singleton in H1. apply list_elem_of_singleton in H2.
      congruence.
    + intros c _. apply NoDup_singleton.
Qed.

Lemma div_ge (a b c : R) : 0 < b → c * b <= a → c <= a / b.
Proof.
  intros Hb Hc. apply Rmult_le_reg_r with b; [done|].
  replace (a / b * b) with a by (field; lra). done.
Qed.

Lemma div_lt (a b c : R) : 0 < b → a < c * b → a / b < c.
Proof.
  intros Hb Hc. apply Rmult_lt_reg_r with b; [done|].
  replace (a / b * b) with a by (field; lra). done.
Qed.

(** The scaled coordinate of the code against the tile edges. *)
Lemma covers_col (zoom col : Z) (x : R) :
  - EARTH_DIAMETER / 2 + IZR col * tile_side zoom <= x ∧
  x < - EARTH_DIAMETER / 2 + (IZR col + 1) * tile_side zoom →
  IZR col <= mincol zoom x ∧ mincol zoom x < IZR col + 1.
Proof.
  pose proof EARTH_DIAMETER_pos as HE.
  pose proof (powerRZ_lt 2 zoom ltac:(lra)) as HP.
  unfold tile_side, mincol. set (E := EARTH_DIAMETER) in *.
  set (P := powerRZ 2 zoom) in *. intros [H1 H2].
  assert (Heq : P * (x + E / 2) / E = (x + E / 2) / (E / P)) by (field; lra).
  rewrite Heq. assert (Hs : 0 < E / P) by (apply Rdiv_lt_0_compat; lra).
  split.
  - apply div_ge; [done|]. lra.
  - apply div_lt; [done|]. lra.
Qed.

Lemma covers_row (zoom row : Z) (y : R) :
  EARTH_DIAMETER / 2 - (IZR row + 1) * tile_side zoom < y ∧
  y <= EARTH_DIAMETER / 2 - IZR row * tile_side zoom →
  IZR row <= minrow zoom y ∧ minrow zoom y < IZR row + 1.
Proof.
  pose proof EARTH_DIAMETER_pos as HE.
  pose proof (powerRZ_lt 2 zoom ltac:(lra)) as HP.
  unfold tile_side, minrow. set (E := EARTH_DIAMETER) in *.
  set (P := powerRZ 2 zoom) in *. intros [H1 H2].
  assert (Heq : P * (E / 2 - y) / E = (E / 2 - y) / (E / P)) by (field; lra).
  rewrite Heq. assert (Hs : 0 < E / P) by (apply Rdiv_lt_0_compat; lra).
  split.
  - apply div_ge; [done|]. lra.
  - apply div_lt; [done|]. lra.
Qed.

Lemma mincol_mono (zoom : Z) (x x' : R) : x <= x' → mincol zoom x <= mincol zoom x'.
Proof.
  pose proof EARTH_DIAMETER_pos as HE.
  pose proof (powerRZ_lt 2 zoom ltac:(lra)) as HP.
  intros Hx. unfold mincol. apply Rmult_le_compat_r.
  - left. by apply Rinv_0_lt_compat.
  - apply Rmult_le_compat_l; lra.
Qed.

Lemma minrow_anti (zoom : Z) (y y' : R) : y <= y' → minrow zoom y' <= minrow zoom y.
Proof.
  pose proof EARTH_DIAMETER_pos as HE.
  pose proof (powerRZ_lt 2 zoom ltac:(lra)) as HP.
  intros Hx. unfold minrow. apply Rmult_le_compat_r.
  - left. by apply Rinv_0_lt_compat.
  - apply Rmult_le_compat_l; lra.
Qed.

Lemma div_ge_inv (a b c : R) : 0 < b → c <= a / b → c * b <= a.
Proof.
  intros Hb Hc. replace a with (a / b * b) by (field; lra).
  apply Rmult_le_compat_r; lra.
Qed.

Lemma div_lt_inv (a b c : R) : 0 < b → a / b < c → a < c * b.
Proof.
  intros Hb Hc. replace a with (a / b * b) by (field; lra).
  apply Rmult_lt_compat_r; lra.
Qed.

Lemma col_covers (zoom col : Z) (x : R) :
  IZR col <= mincol zoom x ∧ mincol zoom x < IZR col + 1 →
  - EARTH_DIAMETER / 2 + IZR col * tile_side zoom <= x ∧
  x < - EARTH_DIAMETER / 2 + (IZR col + 1) * tile_side zoom.
Proof.
  pose proof EARTH_DIAMETER_pos as HE.
  pose proof (powerRZ_lt 2 zoom ltac:(lra)) as HP.
  unfold tile_side, mincol. set (E := EARTH_DIAMETER) in *.
  set (P := powerRZ 2 zoom) in *.
  assert (Heq : P * (x + E / 2) / E = (x + E / 2) / (E / P)) by (field; lra).
  rewrite Heq. assert (Hs : 0 < E / P) by (apply Rdiv_lt_0_compat; lra).
  intros [H1 H2]. apply div_ge_inv in H1; [|done]. apply div_lt_inv in H2; [|done].
  lra.
Qed.

Lemma row_covers (zoom row : Z) (y : R) :
  IZR row <= minrow zoom y ∧ minrow zoom y < IZR row + 1 →
  EARTH_DIAMETER / 2 - (IZR row + 1) * tile_side zoom < y ∧
  y <= EARTH_DIAMETER / 2 - IZR row * tile_side zoom.
Proof.
  pose proof EARTH_DIAMETER_pos as HE.
  pose proof (powerRZ_lt 2 zoom ltac:(lra)) as HP.
  unfold tile_side, minrow. set (E := EARTH_DIAMETER) in *.
  set (P := powerRZ 2 zoom) in *.
  assert (Heq : P * (E / 2 - y) / E = (E / 2 - y) / (E / P)) by (field; lra).
  rewrite Heq. assert (Hs : 0 < E / P) by (apply Rdiv_lt_0_compat; lra).
  intros [H1 H2]. apply div_ge_inv in H1; [|done]. apply div_lt_inv in H2; [|done].
  lra.
Qed.

Lemma mincol_nonneg (zoom : Z) (x : R) : - EARTH_DIAMETER / 2 <= x → 0 <= mincol zoom x.
Proof.
  pose proof EARTH_DIAMETER_pos as HE.
  pose proof (powerRZ_lt 2 zoom ltac:(lra)) as HP.
  intros Hx. unfold mincol. apply Rmult_le_pos.
  - apply Rmult_le_pos; lra.
  - left. by apply Rinv_0_lt_compat.
Qed.

Lemma minrow_nonneg (zoom : Z) (y : R) : y <= EARTH_DIAMETER / 2 → 0 <= minrow zoom y.
Proof.
  pose proof EARTH_DIAMETER_pos as HE.
  pose proof (powerRZ_lt 2 zoom ltac:(lra)) as HP.
  intros Hx. unfold minrow. apply Rmult_le_pos.
  - apply Rmult_le_pos; lra.
  - left. by apply Rinv_0_lt_compat.
Qed.

(** Every tile that covers a point of the box is in the planned list. *)
Lemma covering_tile_planned (zoom : Z) (xmin ymin xmax ymax x y : R) (row col : Z) :
  xmin <= x ∧ x <= xmax → ymin <= y ∧ y <= ymax →
  tile_covers zoom row col (x, y) →
  (row, col) ∈ row_cols zoom xmin ymin xmax ymax.
Proof.
  intros [Hx1 Hx2] [Hy1 Hy2] (Hrow & Hcol & Hcx & Hcy). simpl in Hcx, Hcy.
  apply covers_col in Hcx as [Hc1 Hc2]. apply covers_row in Hcy as [Hr1 Hr2].
  apply elem_of_row_cols. repeat split.
  - apply (py_int_below _ (minrow zoom y)); [done| |done]. by apply minrow_anti.
  - apply (py_int_above _ (minrow zoom y)); [done..|].
    change (maxrow zoom ymin) with (minrow zoom ymin). by apply minrow_anti.
  - apply (py_int_below _ (mincol zoom x)); [done| |done]. by apply mincol_mono.
  - apply (py_int_above _ (mincol zoom x)); [done..|].
    change (maxcol zoom xmax) with (mincol zoom xmax). by apply mincol_mono.
Qed.

(** A point inside the tiled square lies in the tile of its floored indices. *)
Lemma point_has_tile (zoom : Z) (x y : R) :
  - EARTH_DIAMETER / 2 <= x → y <= EARTH_DIAMETER / 2 →
  tile_covers zoom (Int_part (minrow zoom y)) (Int_part (mincol zoom x)) (x, y).
Proof.
  intros Hx Hy.
  pose proof (mincol_nonneg zoom x Hx) as Hc. pose proof (minrow_nonneg zoom y Hy) as Hr.
  split; [by apply Int_part_ge|]. split; [by apply Int_part_ge|]. split; simpl.
  - apply col_covers. apply Int_part_bounds.
  - apply row_covers. apply Int_part_bounds.
Qed.

Lemma py_round_up (r : R) (z : Z) :
  IZR z + 1 / 2 < r → r < IZR z + 1 → py_round r = (z + 1)%Z.
Proof.
  intros H1 H2. unfold py_round.
  rewrite (Int_part_unique r z) by lra.
  destruct (decide (r - IZR z < 1 / 2)); [lra|].
  destruct (decide (1 / 2 < r - IZR z)); [done|lra].
Qed.

Lemma py_round_IZR (z : Z) : py_round (IZR z) = z.
Proof.
  unfold py_round. rewrite Int_part_IZR.
  destruct (decide (IZR z - IZR z < 1 / 2)); [done|lra].
Qed.

Lemma truediv_ok (a b : R) : b ≠ 0 → truediv a b = Ok (a / b).
Proof. intros Hb. unfold truediv. by destruct (decide (b = 0)). Qed.

(** What [make_context] returns on a box with a width and a height. *)
Lemma make_context_ok (left bottom right top width resolution : R) :
  left ≠ right → bottom ≠ top →
  let hsize := py_int (resolution * width) in
  let aspect := (right - left) / (top - bottom) in
  make_context left bottom right top width resolution =
  Ok ({| surface_width := hsize; surface_height := py_int (IZR hsize / aspect) |},
      [Scale (IZR hsize / (right - left)) (IZR hsize / aspect / (bottom - top));
       Translate (- left) (- top)],
      IZR hsize / (right - left)).
Proof.
  intros Hw Hh hsize aspect. unfold make_context.
  assert (Hw' : right - left ≠ 0) by (intros Hz; apply Hw; lra).
  assert (Hh' : top - bottom ≠ 0) by (intros Hz; apply Hh; lra).
  assert (Hb' : bottom - top ≠ 0) by (intros Hz; apply Hh; lra).
  assert (Ha : aspect ≠ 0).
  { unfold aspect. intros Hz. apply Rmult_integral in Hz as [Hz|Hz]; [done|].
    by apply Rinv_neq_0_compat in Hh'. }
  subst hsize aspect.
  repeat first
    [ rewrite bind_Ok; cbv beta
    | match goal with
      | |- truediv ?a ?b ≫= _ = _ => rewrite (truediv_ok a b) by assumption
      end ].
  reflexivity.
Qed.

(** The box of two points, and the surface made for it at width 668. *)
Lemma make_context_668_example :
  ∃ context scale,
    make_context (-2) (-0.625) 102 31.875 668 1 =
    Ok ({| surface_width := 668; surface_height := 208 |}, context, scale).
Proof.
  rewrite make_context_ok by (intros Hz; lra). cbv zeta.
  replace (1 * 668) with (IZR 668) by lra. rewrite py_int_IZR.
  rewrite (py_int_trunc _ 208) by lra. by eexists _, _.
Qed.

(** ** Reading the points *)

Section ingest.
Context `{Externals}.

Lemma row_lonlat_valid (row : Row) (lon lat : R) :
  row_lonlat row = Ok (lon, lat) ↔
  cell_number row "LON" = Some lon ∧ cell_number row "LAT" = Some lat.
Proof.
  unfold row_lonlat, row_getitem, py_float, cell_number.
  destruct (row !! "LON") as [[s1|]|]; simpl; try (split; [done|by intros [? ?]]).
  destruct (float_of_str s1) as [x1|]; simpl; try (split; [done|by intros [? ?]]).
  destruct (row !! "LAT") as [[s2|]|]; simpl; try (split; [done|by intros [? ?]]).
  destruct (float_of_str s2) as [x2|]; simpl; try (split; [done|by intros [? ?]]).
  split; [by intros [= -> ->]|by intros [[= ->] [= ->]]].
Qed.

Lemma row_lonlat_raise (row : Row) (e : exn) :
  row_lonlat row = Raise e →
  cell_number row "LON" = None ∨ cell_number row "LAT" = None.
Proof.
  unfold row_lonlat, row_getitem, py_float, cell_number.
  destruct (row !! "LON") as [[s1|]|]; simpl; auto.
  destruct (float_of_str s1) as [x1|]; simpl; auto.
  destruct (row !! "LAT") as [[s2|]|]; simpl; auto.
  destruct (float_of_str s2) as [x2|]; simpl; auto. done.
Qed.

(** The loop yields the valid point of each row that has one, in order. *)
Lemma rows_points_valid (rows : list Row) :
  rows_points rows = omap valid_point rows.
Proof.
  induction rows as [|row rows IH]; [done|]. simpl. rewrite IH. clear IH.
  unfold valid_point.
  destruct (row_lonlat row) as [[lon lat]|e] eqn:Hrow.
  - apply row_lonlat_valid in Hrow as [-> ->]. simpl.
    by destruct (decide _).
  - apply row_lonlat_raise in Hrow as [->| Hlat]; [done|].
    rewrite Hlat. by destruct (cell_number row "LON").
Qed.

Lemma iterate_csv (filename : string) (rows : list Row) :
  str_lower (splitext filename).2 = ".csv" →
  read_csv filename = Ok rows →
  iterate_file_points filename = Ok (omap valid_point rows).
Proof.
  intros Hsuffix Hread. unfold iterate_file_points. rewrite Hsuffix.
  destruct (decide (".csv" = ".csv")); [|done].
  rewrite Hread, bind_Ok. by rewrite rows_points_valid.
Qed.

End ingest.

Lemma demo_row_number (body : json) (lon lat : string) :
  cell_number (H := demo_env body) (demo_row lon lat) "LON" = demo_float lon ∧
  cell_number (H := demo_env body) (demo_row lon lat) "LAT" = demo_float lat.
Proof. done. Qed.

Lemma demo_float_value (s : string) (n d : Z) :
  demo_decimal s = Some (n, d) → demo_float s = Some (IZR n / IZR d).
Proof. unfold demo_float. by intros ->. Qed.

Lemma demo_float_none (s : string) : demo_decimal s = None → demo_float s = None.
Proof. unfold demo_float. by intros ->. Qed.

Lemma five_rows_points (body : json) :
  omap (valid_point (H := demo_env body)) five_rows = [(-30.5, 20); (10, 40)].
Proof.
  unfold five_rows, valid_point. simpl omap.
  rewrite !(proj1 (demo_row_number body _ _)), !(proj2 (demo_row_number body _ _)).
  rewrite (demo_float_none "abc"), (demo_float_none EmptyString) by (by vm_compute).
  rewrite (demo_float_value "1" 1 1), (demo_float_value "10" 10 1),
    (demo_float_value "20" 20 1), (demo_float_value "2" 2 1),
    (demo_float_value "95" 95 1), (demo_float_value "-30.5" (-305) 10),
    (demo_float_value "40" 40 1) by (by vm_compute).
  simpl.
  case_ranges.
  simpl. f_equal; [|f_equal]; f_equal; lra.
Qed.

Section ingest_zip.
Context `{Externals}.

Lemma iterate_zip (filename name : string) (rows : list Row)
    (entries rest : list (string * result (list Row))) :
  str_lower (splitext filename).2 = ".zip" →
  read_zip filename = Ok entries →
  filter (λ entry, endswith entry.1 ".csv" = true) entries = (name, Ok rows) :: rest →
  iterate_file_points filename = Ok (omap valid_point rows).
Proof.
  intros Hsuffix Hread Hcsv. unfold iterate_file_points. rewrite Hsuffix.
  destruct (decide (".zip" = ".csv")); [done|].
  destruct (decide (".zip" = ".zip")); [|done].
  rewrite Hread, bind_Ok. cbv zeta. rewrite Hcsv, bind_Ok.
  by rewrite rows_points_valid.
Qed.

End ingest_zip.

Lemma demo_zip_points (body : json) :
  iterate_file_points (H := demo_env body) "points.zip" = Ok [(-30.5, 20); (10, 40)].
Proof.
  rewrite (iterate_zip (H := demo_env body) "points.zip" "points.csv" five_rows
             [("README.txt", Ok []); ("points.csv", Ok five_rows)] []);
    [|done..].
  by rewrite five_rows_points.
Qed.

(** ** Loops and binds *)

Lemma bind_Ok_inv {A B} (m : result A) (k : A → result B) (b : B) :
  m ≫= k = Ok b → ∃ a, m = Ok a ∧ k a = Ok b.
Proof.
  destruct m as [a|e]; [|by rewrite bind_Raise]. rewrite bind_Ok.
  intros Hk. by exists a.
Qed.

Lemma bind_Raise_inv {A B} (m : result A) (k : A → result B) (e : exn) :
  m ≫= k = Raise e → m = Raise e ∨ ∃ a, m = Ok a ∧ k a = Raise e.
Proof.
  destruct m as [a|e']; [|rewrite bind_Raise; intros [= ->]; by left]. rewrite bind_Ok.
  intros Hk. right. by exists a.
Qed.

Lemma for_loop_app {A S} (body : S → A → result S) (l1 l2 : list A) (s : S) :
  for_loop body (l1 ++ l2) s = for_loop body l1 s ≫= for_loop body l2.
Proof.
  revert s. induction l1 as [|x l1 IH]; intros s; [done|].
  simpl. destruct (body s x) as [s'|e]; [|done]. rewrite !bind_Ok. apply IH.
Qed.

(** A property kept by every step that returns holds when the loop returns. *)
Lemma for_loop_invariant {A S} (I : S → Prop) (body : S → A → result S)
    (items : list A) (s s' : S) :
  (∀ s x s', x ∈ items → I s → body s x = Ok s' → I s') →
  I s → for_loop body items s = Ok s' → I s'.
Proof.
  revert s. induction items as [|x items IH]; intros s Hstep Hs Hloop.
  - by injection Hloop as <-.
  - simpl in Hloop. apply bind_Ok_inv in Hloop as (s1 & Hx & Hloop).
    eapply IH; [|by eapply Hstep; [apply list_elem_of_here|..]|done].
    intros s2 y s3 Hy. apply Hstep. by apply list_elem_of_further.
Qed.

(** An exception no step raises is not raised by the loop. *)
Lemma for_loop_never {A S} (e : exn) (body : S → A → result S)
    (items : list A) (s : S) :
  (∀ s x, x ∈ items → body s x ≠ Raise e) → for_loop body items s ≠ Raise e.
Proof.
  revert s. induction items as [|x items IH]; intros s Hstep; [done|].
  simpl. destruct (body s x) as [s1|e1] eqn:Hx.
  - rewrite bind_Ok. apply IH. intros s2 y Hy. apply Hstep.
    by apply list_elem_of_further.
  - rewrite bind_Raise. intros [= ->]. by apply (Hstep s x (list_elem_of_here _ _)).
Qed.

Lemma bindM_Ok_inv {A B} (m : M A) (k : A → M B) (b : B) (w w' : list event) :
  (m ≫= k) w = (Ok b, w') → ∃ a w1, m w = (Ok a, w1) ∧ k a w1 = (Ok b, w').
Proof.
  unfold mbind, M_bind. destruct (m w) as [[a|e] w1]; [|done].
  intros Hk. by exists a, w1.
Qed.

Lemma for_loop_M_invariant {A S} (I : S → Prop) (body : S → A → M S)
    (items : list A) (s s' : S) (w w' : list event) :
  (∀ s x s' w w', x ∈ items → I s → body s x w = (Ok s', w') → I s') →
  I s → for_loop body items s w = (Ok s', w') → I s'.
Proof.
  revert s w. induction items as [|x items IH]; intros s w Hstep Hs Hloop.
  - by injection Hloop as <- <-.
  - simpl in Hloop. apply bindM_Ok_inv in Hloop as (s1 & w1 & Hx & Hloop).
    eapply IH; [|by eapply Hstep; [apply list_elem_of_here|..]|done].
    intros s2 y s3 w2 w3 Hy. apply Hstep. by apply list_elem_of_further.
Qed.

(** ** The tests of the classifier *)

Lemma in_tuple_str (value : json) (kinds : list string) :
  in_tuple value kinds = true → ∃ kind, value = JStr kind ∧ kind ∈ kinds.
Proof.
  unfold in_tuple. intros Hex. apply existsb_exists in Hex as (k & Hk & Heq).
  destruct value as [| | |s| |]; try done. simpl in Heq.
  apply bool_decide_eq_true in Heq as ->. exists k. split; [done|].
  by apply list_elem_of_In.
Qed.

Lemma in_tuple_other (kind : string) (kinds : list string) :
  kind ∉ kinds → in_tuple (JStr kind) kinds = false.
Proof.
  intros Hk. destruct (in_tuple (JStr kind) kinds) eqn:Hin; [|done].
  apply in_tuple_str in Hin as (k & [= <-] & ?). done.
Qed.

Lemma get_method_str (properties : json) (kind : string) :
  get_method properties "kind" = Ok (JStr kind) →
  ∃ members, properties = JObj members ∧ members !! "kind" = Some (JStr kind).
Proof.
  destruct properties as [| | | | |members]; try done. simpl.
  destruct (members !! "kind") as [v|] eqn:Hv; [|done].
  intros [= ->]. by exists members.
Qed.

Lemma getitem_str (properties : json) (kind : string) :
  getitem properties "kind" = Ok (JStr kind) →
  ∃ members, properties = JObj members ∧ members !! "kind" = Some (JStr kind).
Proof.
  destruct properties as [| | | | |members]; try done. simpl.
  destruct (members !! "kind") as [v|] eqn:Hv; [|done].
  intros [= ->]. by exists members.
Qed.

Section classifier.
Context `{Externals}.

(** A step of a layer loop that returns either leaves the list alone or adds
    the geometry of a feature that passed both tests. *)
Lemma landuse_step_inv (acc acc' : list Geometry) (feature : json) :
  landuse_step acc feature = Ok acc' →
  acc' = acc ∨ ∃ geom, acc' = acc ++ [geom] ∧
                       accepted "Polygon" landuse_kinds feature geom.
Proof.
  unfold landuse_step. intros Hstep.
  apply bind_Ok_inv in Hstep as ([|] & Htype & Hstep); [|left; by injection Hstep].
  apply bind_Ok_inv in Hstep as (properties & Hprops & Hstep).
  apply bind_Ok_inv in Hstep as (kind & Hkind & Hstep).
  destruct (in_tuple kind landuse_kinds) eqn:Hin; [|left; by injection Hstep].
  apply bind_Ok_inv in Hstep as (geom & Hgeom & [= <-]).
  right. exists geom. split; [done|]. split; [done|]. split; [|done].
  apply in_tuple_str in Hin as (k & -> & Hk).
  apply get_method_str in Hkind as (members & -> & Hmem). by exists members, k.
Qed.

Lemma water_step_inv (acc acc' : list Geometry) (feature : json) :
  water_step acc feature = Ok acc' →
  acc' = acc ∨ ∃ geom, acc' = acc ++ [geom] ∧
                       accepted "Polygon" water_kinds feature geom.
Proof.
  unfold water_step. intros Hstep.
  apply bind_Ok_inv in Hstep as ([|] & Htype & Hstep); [|left; by injection Hstep].
  apply bind_Ok_inv in Hstep as (properties & Hprops & Hstep).
  apply bind_Ok_inv in Hstep as (kind & Hkind & Hstep).
  destruct (in_tuple kind water_kinds) eqn:Hin; [|left; by injection Hstep].
  apply bind_Ok_inv in Hstep as (geom & Hgeom & [= <-]).
  right. exists geom. split; [done|]. split; [done|]. split; [|done].
  apply in_tuple_str in Hin as (k & -> & Hk).
  apply getitem_str in Hkind as (members & -> & Hmem). by exists members, k.
Qed.

Lemma roads_step_inv (acc acc' : list Geometry) (feature : json) :
  roads_step acc feature = Ok acc' →
  acc' = acc ∨ ∃ geom, acc' = acc ++ [geom] ∧
                       accepted "LineString" roads_kinds feature geom.
Proof.
  unfold roads_step. intros Hstep.
  apply bind_Ok_inv in Hstep as ([|] & Htype & Hstep); [|left; by injection Hstep].
  apply bind_Ok_inv in Hstep as (properties & Hprops & Hstep).
  apply bind_Ok_inv in Hstep as (kind & Hkind & Hstep).
  destruct (in_tuple kind roads_kinds) eqn:Hin; [|left; by injection Hstep].
  apply bind_Ok_inv in Hstep as (geom & Hgeom & [= <-]).
  right. exists geom. split; [done|]. split; [done|]. split; [|done].
  apply in_tuple_str in Hin as (k & -> & Hk).
  apply getitem_str in Hkind as (members & -> & Hmem). by exists members, k.
Qed.

Lemma layer_loop_ok zoom mapzen_key tiles layer needle kinds
    (step : list Geometry → json → result (list Geometry))
    (row_col : Z * Z) (got : Response) (features : list json)
    (acc acc' : list Geometry) :
  (∀ acc acc' feature, step acc feature = Ok acc' →
     acc' = acc ∨ ∃ geom, acc' = acc ++ [geom] ∧ accepted needle kinds feature geom) →
  row_col ∈ tiles →
  requests_get (tile_url zoom mapzen_key row_col) = Ok got →
  layer_features got layer = Ok features →
  layer_ok zoom mapzen_key tiles layer needle kinds acc →
  for_loop step features acc = Ok acc' →
  layer_ok zoom mapzen_key tiles layer needle kinds acc'.
Proof.
  intros Hinv Htile Hgot Hfeatures Hacc Hloop.
  refine (for_loop_invariant _ step features acc acc' _ Hacc Hloop).
  intros s feature s' Hfeature Hs Hstep.
  apply Hinv in Hstep as [->|(geom & -> & Haccepted)]; [done|].
  intros g Hg. apply elem_of_app in Hg as [Hg|Hg]; [by apply Hs|].
  apply list_elem_of_singleton in Hg as ->. exists feature. split; [|done].
  by exists row_col, got, features.
Qed.

Lemma tile_step_ok zoom mapzen_key tiles (row_col : Z * Z) (got : Response)
    (layers layers' : Layers) :
  row_col ∈ tiles →
  requests_get (tile_url zoom mapzen_key row_col) = Ok got →
  layers_ok zoom mapzen_key tiles layers →
  tile_step layers got = Ok layers' →
  layers_ok zoom mapzen_key tiles layers'.
Proof.
  intros Htile Hgot (Hl & Hw & Hr) Hstep. destruct layers as [[l w] r].
  unfold tile_step in Hstep.
  apply bind_Ok_inv in Hstep as (fl & Hfl & Hstep).
  apply bind_Ok_inv in Hstep as (l' & Hl' & Hstep).
  apply bind_Ok_inv in Hstep as (fw & Hfw & Hstep).
  apply bind_Ok_inv in Hstep as (w' & Hw' & Hstep).
  apply bind_Ok_inv in Hstep as (fr & Hfr & Hstep).
  apply bind_Ok_inv in Hstep as (r' & Hr' & [= <-]).
  split; [|split]; simpl.
  - by eapply (layer_loop_ok _ _ _ _ _ _ landuse_step), Hl'; [apply landuse_step_inv|..].
  - by eapply (layer_loop_ok _ _ _ _ _ _ water_step), Hw'; [apply water_step_inv|..].
  - by eapply (layer_loop_ok _ _ _ _ _ _ roads_step), Hr'; [apply roads_step_inv|..].
Qed.

Lemma fetch_tiles_ok zoom mapzen_key tiles (layers : Layers) (w w' : list event) :
  fetch_tiles zoom mapzen_key tiles w = (Ok layers, w') →
  layers_ok zoom mapzen_key tiles layers.
Proof.
  unfold fetch_tiles. intros Hloop.
  refine (for_loop_M_invariant (layers_ok zoom mapzen_key tiles) _ tiles _ _ _ _ _ _ Hloop).
  - intros s row_col s' w1 w2 Htile Hs Hbody. unfold fetch_tile in Hbody.
    apply bindM_Ok_inv in Hbody as ([] & w3 & _ & Hbody).
    apply bindM_Ok_inv in Hbody as (got & w4 & Hgot & Hbody).
    unfold lift in Hgot, Hbody. injection Hgot as Hgot _. injection Hbody as Hbody _.
    by eapply tile_step_ok.
  - repeat split; intros g Hg; by apply not_elem_of_nil in Hg.
Qed.

End classifier.

Lemma bindM_lift_Ok {A B} (a : A) (k : A → M B) (w : list event) :
  (lift (Ok a) ≫= k) w = k a w.
Proof. done. Qed.

Lemma bindM_lift_Raise {A B} (e : exn) (k : A → M B) (w : list event) :
  (lift (Raise e) ≫= k) w = (Raise e, w).
Proof. done. Qed.

Lemma bindM_emit {B} (ev : event) (k : unit → M B) (w : list event) :
  (emit ev ≫= k) w = k () (w ++ [ev]).
Proof. done. Qed.

Lemma for_loop_all_ok {A S} (body : S → A → result S) (items : list A) (s s' : S) :
  for_loop body items s = Ok s' →
  ∀ x, x ∈ items → ∃ s1 s2, body s1 x = Ok s2.
Proof.
  revert s. induction items as [|y items IH]; intros s Hloop x Hx.
  - by apply not_elem_of_nil in Hx.
  - simpl in Hloop. apply bind_Ok_inv in Hloop as (s1 & Hy & Hloop).
    apply elem_of_cons in Hx as [->|Hx]; [by exists s, s1|]. by eapply IH.
Qed.

Lemma for_loop_M_all_ok {A S} (body : S → A → M S) (items : list A) (s s' : S)
    (w w' : list event) :
  for_loop body items s w = (Ok s', w') →
  ∀ x, x ∈ items → ∃ s1 s2 w1 w2, body s1 x w1 = (Ok s2, w2).
Proof.
  revert s w. induction items as [|y items IH]; intros s w Hloop x Hx.
  - by apply not_elem_of_nil in Hx.
  - simpl in Hloop. apply bindM_Ok_inv in Hloop as (s1 & w1 & Hy & Hloop).
    apply elem_of_cons in Hx as [->|Hx]; [by exists s, s1, w, w1|]. by eapply IH.
Qed.

Lemma get_map_features_inv `{Externals} xmin ymin xmax ymax resolution scale
    mapzen_key (r : result Layers) (w w' : list event) :
  get_map_features xmin ymin xmax ymax resolution scale mapzen_key w = (r, w') →
  (∃ e, calculate_zoom scale resolution = Raise e ∧ r = Raise e ∧ w' = w) ∨
  ∃ z, calculate_zoom scale resolution = Ok z ∧
       fetch_tiles (py_round z) mapzen_key
         (row_cols (py_round z) xmin ymin xmax ymax) w = (r, w').
Proof.
  unfold get_map_features. destruct (calculate_zoom scale resolution) as [z|e].
  - rewrite bindM_lift_Ok. intros Hf. right. by exists z.
  - rewrite bindM_lift_Raise. intros [= <- <-]. left. by exists e.
Qed.

Section classifier_claims.
Context `{Externals}.

Lemma accepted_type_string (needle : string) (kinds : list string)
    (feature : json) (geom : Geometry) :
  ogr_reader_typed → accepted needle kinds feature geom →
  type_string_has needle feature ∧
  ∃ geometry raw,
    getitem feature "geometry" = Ok geometry ∧
    CreateGeometryFromJson geometry = Some raw ∧
    geom = Transform project raw ∧
    str_contains needle (geojson_name (GetGeometryType raw)) = true.
Proof.
  intros Hogr (Htype & _ & Hgeom). unfold geometry_type_has in Htype.
  apply bind_Ok_inv in Htype as (geometry & Hgeometry & Htype).
  apply bind_Ok_inv in Htype as (type & Htype & Hin).
  unfold projected_geom in Hgeom. rewrite Hgeometry, bind_Ok in Hgeom.
  destruct (CreateGeometryFromJson geometry) as [raw|] eqn:Hraw; [|done].
  injection Hgeom as <-. pose proof (Hogr _ _ Hraw) as Hname.
  rewrite Htype in Hname. injection Hname as ->. simpl in Hin.
  injection Hin as Hin. split.
  - by exists geometry, (geojson_name (GetGeometryType raw)).
  - by exists geometry, raw.
Qed.

Lemma landuse_step_other_kind (acc : list Geometry) (feature : json)
    (members : gmap string json) (kind : string) :
  geometry_type_has "Polygon" feature = Ok true →
  getitem feature "properties" = Ok (JObj members) →
  members !! "kind" = Some (JStr kind) →
  kind ∉ landuse_kinds →
  landuse_step acc feature = Ok acc.
Proof.
  intros Htype Hprops Hkind Hnot. unfold landuse_step.
  rewrite Htype, bind_Ok, Hprops, bind_Ok. unfold get_method.
  rewrite Hkind, bind_Ok. simpl default. by rewrite in_tuple_other.
Qed.

(** C3: when [get_map_features] returns its three lists, every geometry in a
    list was appended for a feature that a fetched tile offered to that layer
    and that passed both tests of the layer: the geometry-type test
    (['Polygon' in type] for landuse and water, ['LineString' in type] for
    roads) and the kind test, with a string kind on the layer's list.  Where
    OGR reads typed geometries the type is a string with the word inside.
    A landuse polygon of another kind, such as parking, leaves the list as
    it was. *)
Theorem classified_features_pass_tests :
  (∀ xmin ymin xmax ymax resolution scale mapzen_key landuse water roads w w',
     get_map_features xmin ymin xmax ymax resolution scale mapzen_key w
       = (Ok (landuse, water, roads), w') →
     ∃ z,
       calculate_zoom scale resolution = Ok z ∧
       let zoom := py_round z in
       let tiles := row_cols zoom xmin ymin xmax ymax in
       (∀ geom, geom ∈ landuse →
          ∃ feature, offered zoom mapzen_key tiles "landuse" feature ∧
                     accepted "Polygon" landuse_kinds feature geom) ∧
       (∀ geom, geom ∈ water →
          ∃ feature, offered zoom mapzen_key tiles "water" feature ∧
                     accepted "Polygon" water_kinds feature geom) ∧
       (∀ geom, geom ∈ roads →
          ∃ feature, offered zoom mapzen_key tiles "roads" feature ∧
                     accepted "LineString" roads_kinds feature geom)) ∧
  (ogr_reader_typed →
   ∀ needle kinds feature geom,
     accepted needle kinds feature geom → type_string_has needle feature) ∧
  (∀ acc feature members,
     geometry_type_has "Polygon" feature = Ok true →
     getitem feature "properties" = Ok (JObj members) →
     members !! "kind" = Some (JStr "parking") →
     landuse_step acc feature = Ok acc).
Proof.
  split; [|split].
  - intros xmin ymin xmax ymax resolution scale mapzen_key landuse water roads
      w w' Hget.
    apply get_map_features_inv in Hget as [(e & _ & ? & _)|(z & Hz & Hfetch)];
      [done|].
    exists z. split; [done|]. by apply fetch_tiles_ok in Hfetch as (? & ? & ?).
  - intros Hogr needle kinds feature geom Hacc.
    by destruct (accepted_type_string needle kinds feature geom Hogr Hacc).
  - intros acc feature members Htype Hprops Hkind.
    apply (landuse_step_other_kind acc feature members "parking"); [done..|].
    apply (proj1 (bool_decide_eq_false _)). by vm_compute.
Qed.

End classifier_claims.

(** ** The concrete environment *)

Lemma ln_2_pos : (0 < ln 2)%R.
Proof. rewrite <- ln_1. apply ln_increasing; lra. Qed.

Lemma calculate_zoom_ok (scale resolution : R) :
  (0 < scale)%R → (0 < resolution)%R → ∃ z, calculate_zoom scale resolution = Ok z.
Proof.
  intros Hs Hr. pose proof EARTH_DIAMETER_pos as HE. pose proof ln_2_pos as Hln.
  unfold calculate_zoom.
  rewrite (truediv_ok _ EARTH_DIAMETER), bind_Ok by lra.
  assert (Hz : (0 < resolution * 256 / EARTH_DIAMETER)%R)
    by (apply Rdiv_lt_0_compat; lra).
  rewrite truediv_ok, bind_Ok by lra.
  assert (Hratio : (0 < scale / (resolution * 256 / EARTH_DIAMETER))%R)
    by (by apply Rdiv_lt_0_compat).
  unfold math_log.
  destruct (decide (scale / (resolution * 256 / EARTH_DIAMETER) <= 0)%R); [lra|].
  rewrite bind_Ok. destruct (decide (2 <= 0)%R); [lra|]. rewrite bind_Ok.
  rewrite truediv_ok by lra. by eexists.
Qed.

Lemma demo_tile_step (layers : Layers) :
  tile_step (H := demo_env demo_tile) layers (demo_response demo_tile)
  = Ok (layers.1.1 ++ [Polygon []], layers.1.2 ++ [MultiPolygon []],
        layers.2 ++ [LineString []]).
Proof. by destruct layers as [[l w] r]. Qed.

Lemma for_loop_M_cons {A S} (body : S → A → M S) (x : A) (items : list A) (s : S)
    (w : list event) :
  for_loop body (x :: items) s w =
  match body s x w with
  | (Ok s', w') => for_loop body items s' w'
  | (Raise e, w') => (Raise e, w')
  end.
Proof. done. Qed.

Lemma demo_fetch_tile (zoom : Z) (mapzen_key : option string) (layers : Layers)
    (row_col : Z * Z) (w : list event) :
  fetch_tile (H := demo_env demo_tile) zoom mapzen_key layers row_col w
  = (Ok (layers.1.1 ++ [Polygon []], layers.1.2 ++ [MultiPolygon []],
         layers.2 ++ [LineString []]),
     w ++ [EvGet (tile_url (H := demo_env demo_tile) zoom mapzen_key row_col)]).
Proof.
  unfold fetch_tile. cbv zeta. rewrite bindM_emit.
  change (requests_get _) with (Ok (demo_response demo_tile)).
  by rewrite bindM_lift_Ok, demo_tile_step.
Qed.

Lemma demo_fetch_tiles (zoom : Z) (mapzen_key : option string)
    (tiles : list (Z * Z)) (layers : Layers) (w : list event) :
  ∃ layers' w',
    for_loop (fetch_tile (H := demo_env demo_tile) zoom mapzen_key) tiles layers w
    = (Ok layers', w').
Proof.
  revert layers w. induction tiles as [|row_col tiles IH]; intros layers w.
  - by exists layers, w.
  - rewrite for_loop_M_cons, demo_fetch_tile. apply IH.
Qed.

Lemma demo_get_map_features xmin ymin xmax ymax resolution scale mapzen_key w :
  (0 < scale)%R → (0 < resolution)%R →
  ∃ layers w',
    get_map_features (H := demo_env demo_tile) xmin ymin xmax ymax resolution scale
      mapzen_key w = (Ok layers, w').
Proof.
  intros Hs Hr. destruct (calculate_zoom_ok scale resolution Hs Hr) as [z Hz].
  unfold get_map_features. rewrite Hz, bindM_lift_Ok. apply demo_fetch_tiles.
Qed.

Lemma classified_features_pass_tests_witness :
  ∃ layers w' zoom,
    get_map_features (H := demo_env demo_tile) 0 0 1 1 1 1 None [] = (Ok layers, w') ∧
    ∀ geom, geom ∈ layers.1.1 →
      ∃ feature,
        offered (H := demo_env demo_tile) zoom None (row_cols zoom 0 0 1 1)
          "landuse" feature ∧
        accepted (H := demo_env demo_tile) "Polygon" landuse_kinds feature geom.
Proof.
  destruct (demo_get_map_features 0 0 1 1 1 1 None []) as ([[l wa] r] & w' & Hget);
    [lra..|].
  destruct (classified_features_pass_tests (H := demo_env demo_tile)) as (Hmain & _).
  destruct (Hmain _ _ _ _ _ _ _ _ _ _ _ _ Hget) as (z & _ & Hl & _).
  exists (l, wa, r), w', (py_round z). split; [exact Hget|exact Hl].
Defined.

Section missing_kind.
Context `{Externals}.

Lemma landuse_step_lacks_kind (acc : list Geometry) (feature : json) :
  geometry_type_has "Polygon" feature = Ok true → lacks_kind feature →
  landuse_step acc feature = Ok acc.
Proof.
  intros Htype (members & Hprops & Hkind). unfold landuse_step.
  rewrite Htype, bind_Ok, Hprops, bind_Ok. unfold get_method.
  by rewrite Hkind, bind_Ok.
Qed.

Lemma water_step_lacks_kind (acc : list Geometry) (feature : json) :
  geometry_type_has "Polygon" feature = Ok true → lacks_kind feature →
  water_step acc feature = Raise KeyError.
Proof.
  intros Htype (members & Hprops & Hkind). unfold water_step.
  rewrite Htype, bind_Ok, Hprops, bind_Ok. unfold getitem.
  by rewrite Hkind, bind_Raise.
Qed.

Lemma roads_step_lacks_kind (acc : list Geometry) (feature : json) :
  geometry_type_has "LineString" feature = Ok true → lacks_kind feature →
  roads_step acc feature = Raise KeyError.
Proof.
  intros Htype (members & Hprops & Hkind). unfold roads_step.
  rewrite Htype, bind_Ok, Hprops, bind_Ok. unfold getitem.
  by rewrite Hkind, bind_Raise.
Qed.

(** No tile loop returns once a fetched tile offers [feature] to [layer] and
    the step of that layer raises on it. *)
Lemma fetch_tiles_stuck zoom mapzen_key tiles (layer : string) (feature : json)
    (w : list event) :
  offered zoom mapzen_key tiles layer feature →
  (layer = "water" ∧ (∀ acc, water_step acc feature = Raise KeyError) ∨
   layer = "roads" ∧ (∀ acc, roads_step acc feature = Raise KeyError)) →
  ∃ e w', fetch_tiles zoom mapzen_key tiles w = (Raise e, w').
Proof.
  intros (row_col & got & features & Htile & Hgot & Hfeatures & Hfeature) Hstep.
  destruct (fetch_tiles zoom mapzen_key tiles w) as [[layers|e] w'] eqn:Hfetch;
    [|by exists e, w'].
  exfalso. unfold fetch_tiles in Hfetch.
  destruct (for_loop_M_all_ok _ _ _ _ _ _ Hfetch row_col Htile)
    as ([[l wa] r] & s2 & w1 & w2 & Hbody).
  unfold fetch_tile in Hbody.
  apply bindM_Ok_inv in Hbody as ([] & w3 & _ & Hbody).
  apply bindM_Ok_inv in Hbody as (got' & w4 & Hgot' & Hbody).
  unfold lift in Hgot', Hbody. rewrite Hgot in Hgot'. injection Hgot' as <- _.
  injection Hbody as Hbody _. unfold tile_step in Hbody.
  apply bind_Ok_inv in Hbody as (fl & Hfl & Hbody).
  apply bind_Ok_inv in Hbody as (l' & Hl' & Hbody).
  apply bind_Ok_inv in Hbody as (fw & Hfw & Hbody).
  apply bind_Ok_inv in Hbody as (wa' & Hw' & Hbody).
  apply bind_Ok_inv in Hbody as (fr & Hfr & Hbody).
  apply bind_Ok_inv in Hbody as (r' & Hr' & _).
  destruct Hstep as [[-> Hraise]|[-> Hraise]].
  - rewrite Hfeatures in Hfw. injection Hfw as <-.
    destruct (for_loop_all_ok _ _ _ _ Hw' feature Hfeature) as (s1 & s3 & Hok).
    by rewrite Hraise in Hok.
  - rewrite Hfeatures in Hfr. injection Hfr as <-.
    destruct (for_loop_all_ok _ _ _ _ Hr' feature Hfeature) as (s1 & s3 & Hok).
    by rewrite Hraise in Hok.
Qed.

End missing_kind.

Lemma GetGeometryType_Transform (ct : Coord → Coord) (g : Geometry) :
  GetGeometryType (Transform ct g) = GetGeometryType g.
Proof. induction g; simpl; congruence. Qed.

Lemma polygon_names (t : wkbType) :
  str_contains "Polygon" (geojson_name t) = true →
  t ∈ [wkbPolygon; wkbMultiPolygon; wkbPolygon25D; wkbMultiPolygon25D].
Proof.
  rewrite !elem_of_cons.
  destruct t; vm_compute; intros Hc; try discriminate; auto.
Qed.

Lemma plain_polygon (t : wkbType) :
  t ∈ [wkbPolygon; wkbMultiPolygon; wkbPolygon25D; wkbMultiPolygon25D] →
  is_2D t → t = wkbPolygon ∨ t = wkbMultiPolygon.
Proof.
  unfold is_2D. rewrite !elem_of_cons, !elem_of_nil.
  intros [->|[->|[->|[->|[]]]]] Hflat; auto;
    repeat destruct Hflat as [?|Hflat]; done.
Qed.

Lemma fill_arm_polygon (g : Geometry) :
  GetGeometryType g = wkbPolygon ∨ GetGeometryType g = wkbMultiPolygon →
  fill_arm_of g = FillPolygon ∨ fill_arm_of g = FillMultiPolygon.
Proof. unfold fill_arm_of. intros [->| ->]; auto. Qed.

Lemma GetPoints_nonempty (g : Geometry) (points : list Coord) :
  GetPoints g = Some points → points ≠ [].
Proof.
  induction g as [| [|] | | | | | |]; simpl; try done; by intros [= <-].
Qed.

(** Drawing a ring raises nothing but [TypeError]: the list that
    [GetPoints] returns has a first and a last item. *)
Lemma ring_line_error (closed : bool) (ctx : Context) (ring : Geometry) (e : exn) :
  ring_line closed ctx ring = Raise e → e = TypeError.
Proof.
  unfold ring_line. destruct (GetPoints ring) as [points|] eqn:Hpoints;
    [|by intros [= <-]].
  apply GetPoints_nonempty in Hpoints.
  destruct points as [|p points]; [done|]. unfold draw_ring.
  destruct closed.
  - unfold last_item. destruct (last (p :: points)) as [q|] eqn:Hlast.
    + rewrite bind_Ok. case_decide; [done|by intros [= <-]].
    + by apply last_None in Hlast.
  - change (first_item (p :: points)) with (Ok p).
    rewrite bind_Ok. case_decide; [done|by intros [= <-]].
Qed.

Lemma fill_part_error (ctx : Context) (part : Geometry) :
  fill_part ctx part ≠ Raise NotImplementedError.
Proof.
  unfold fill_part. intros Hraise.
  apply bind_Raise_inv in Hraise as [Hloop|(ctx' & _ & Hk)]; [|done].
  revert Hloop. apply for_loop_never. intros s ring _ Hstep.
  by apply ring_line_error in Hstep.
Qed.

Section fill.
Context `{Externals}.

(** Filling polygons and multi-polygons never reaches the last arm. *)
Lemma fill_geometries_polygons (ctx : Context) (geometries : list Geometry)
    (muppx : R) (rgb : R * R * R) :
  (∀ g, g ∈ geometries →
     fill_arm_of g = FillPolygon ∨ fill_arm_of g = FillMultiPolygon) →
  fill_geometries ctx geometries muppx rgb ≠ Raise NotImplementedError.
Proof.
  intros Harm. unfold fill_geometries. apply for_loop_never.
  intros s g Hg Hstep. unfold fill_parts in Hstep.
  destruct (Harm g Hg) as [Ha|Ha]; rewrite Ha, bind_Ok in Hstep;
    revert Hstep; apply for_loop_never; intros; apply fill_part_error.
Qed.

Lemma layer_ok_polygons zoom mapzen_key tiles (layer : string)
    (kinds : list string) (geoms : list Geometry) :
  ogr_reader_typed →
  layer_ok zoom mapzen_key tiles layer "Polygon" kinds geoms →
  ∀ g, g ∈ geoms →
    GetGeometryType g
    ∈ [wkbPolygon; wkbMultiPolygon; wkbPolygon25D; wkbMultiPolygon25D].
Proof.
  intros Hogr Hlayer g Hg. destruct (Hlayer g Hg) as (feature & _ & Hacc).
  destruct (accepted_type_string _ _ _ _ Hogr Hacc)
    as (_ & geometry & raw & _ & _ & -> & Hname).
  rewrite GetGeometryType_Transform. by apply polygon_names.
Qed.

(** C10, as the code has it: where OGR gives each geometry the type its
    GeoJSON [type] names, every geometry that [get_map_features] returns in
    the landuse or the water list is a polygon or a multi-polygon, plain or
    2.5D, so [fill_geometries] never takes the point arm for it; for a plain
    one it takes one of its first two arms, and on a list of plain ones it
    does not raise [NotImplementedError]; a 2.5D one at the head of the
    list takes the arm that raises. *)
Theorem classified_polygons_fill xmin ymin xmax ymax resolution scale mapzen_key
    (landuse water roads : list Geometry) (w w' : list event) :
  ogr_reader_typed →
  get_map_features xmin ymin xmax ymax resolution scale mapzen_key w
    = (Ok (landuse, water, roads), w') →
  (∀ g, g ∈ landuse ++ water →
     GetGeometryType g
     ∈ [wkbPolygon; wkbMultiPolygon; wkbPolygon25D; wkbMultiPolygon25D] ∧
     fill_arm_of g ≠ FillPoint ∧
     (is_2D (GetGeometryType g) →
      (GetGeometryType g = wkbPolygon ∨ GetGeometryType g = wkbMultiPolygon) ∧
      (fill_arm_of g = FillPolygon ∨ fill_arm_of g = FillMultiPolygon)) ∧
     (¬ is_2D (GetGeometryType g) →
      fill_arm_of g = FillOther ∧
      ∀ ctx rest muppx rgb,
        fill_geometries ctx (g :: rest) muppx rgb = Raise NotImplementedError)) ∧
  (∀ ctx muppx rgb,
     ((∀ g, g ∈ landuse → is_2D (GetGeometryType g)) →
      fill_geometries ctx landuse muppx rgb ≠ Raise NotImplementedError) ∧
     ((∀ g, g ∈ water → is_2D (GetGeometryType g)) →
      fill_geometries ctx water muppx rgb ≠ Raise NotImplementedError)).
Proof.
  intros Hogr Hget.
  apply get_map_features_inv in Hget as [(e & _ & ? & _)|(z & _ & Hfetch)]; [done|].
  apply fetch_tiles_ok in Hfetch as (Hl & Hw & _). simpl in Hl, Hw.
  pose proof (layer_ok_polygons _ _ _ _ _ _ Hogr Hl) as Hlt.
  pose proof (layer_ok_polygons _ _ _ _ _ _ Hogr Hw) as Hwt.
  assert (Htype : ∀ g, g ∈ landuse ++ water →
            GetGeometryType g
            ∈ [wkbPolygon; wkbMultiPolygon; wkbPolygon25D; wkbMultiPolygon25D])
    by (intros g Hg; apply elem_of_app in Hg as [Hg|Hg]; auto).
  split.
  - intros g Hg. pose proof (Htype g Hg) as Ht. split; [done|].
    split; [|split].
    + unfold fill_arm_of. revert Ht. rewrite !elem_of_cons, elem_of_nil.
      intros [->|[->|[->|[->|[]]]]]; by repeat case_decide.
    + intros Hflat. pose proof (plain_polygon _ Ht Hflat) as Hp.
      split; [done|]. by apply fill_arm_polygon.
    + intros Hz.
      assert (Harm : fill_arm_of g = FillOther).
      { unfold fill_arm_of. revert Ht Hz. unfold is_2D.
        rewrite !elem_of_cons, !elem_of_nil.
        intros [->|[->|[->|[->|[]]]]] Hz; repeat case_decide; try done;
          exfalso; apply Hz; auto 10. }
      split; [done|]. intros ctx rest muppx rgb.
      unfold fill_geometries, fill_parts. simpl. by rewrite Harm.
  - intros ctx muppx rgb.
    split; intros Hflat; apply fill_geometries_polygons; intros g Hg;
      apply fill_arm_polygon, plain_polygon; auto;
      apply Htype, elem_of_app; auto.
Qed.

End fill.

Lemma demo_ogr_flat_typed (type : string) (coordinates : json) (geom : Geometry) :
  demo_ogr_flat type coordinates = Some geom →
  is_2D (GetGeometryType geom) ∧ type = geojson_name (GetGeometryType geom).
Proof.
  unfold demo_ogr_flat, is_2D.
  repeat case_decide; subst; try done;
    intros Hg; apply fmap_Some in Hg as (? & _ & ->); (split; [|done]);
    simpl; rewrite !elem_of_cons; auto 10.
Qed.

Lemma demo_ogr_typed (body : json) : ogr_reader_typed (H := demo_env body).
Proof.
  intros geometry geom. simpl. unfold demo_ogr.
  destruct geometry as [| | | | |members]; try done.
  unfold getitem.
  destruct (members !! "type") as [[| | |type| |]|]; try done.
  destruct (members !! "coordinates") as [coordinates|]; try done.
  destruct (has_z coordinates).
  - intros Hg. apply fmap_Some in Hg as (flat & Hflat & ->).
    apply demo_ogr_flat_typed in Hflat as [_ ->]. simpl.
    by destruct (GetGeometryType flat).
  - intros Hg. by apply demo_ogr_flat_typed in Hg as [_ ->].
Qed.

Lemma demo_fetch_tiles_plain (zoom : Z) (mapzen_key : option string)
    (tiles : list (Z * Z)) (layers layers' : Layers) (w w' : list event) :
  for_loop (fetch_tile (H := demo_env demo_tile) zoom mapzen_key) tiles layers w
  = (Ok layers', w') →
  Forall (λ g, is_2D (GetGeometryType g)) (layers.1.1 ++ layers.1.2) →
  Forall (λ g, is_2D (GetGeometryType g)) (layers'.1.1 ++ layers'.1.2).
Proof.
  revert layers w. induction tiles as [|row_col tiles IH]; intros layers w.
  - by intros [= <- <-].
  - rewrite for_loop_M_cons, demo_fetch_tile. intros Hloop Hplain.
    apply (IH _ _ Hloop). simpl. apply Forall_app in Hplain as [Hl Hw].
    repeat (apply Forall_app; split); try done;
      apply Forall_singleton; unfold is_2D; simpl; rewrite !elem_of_cons; auto 10.
Qed.

Lemma classified_polygons_fill_witness :
  ∃ layers w',
    get_map_features (H := demo_env demo_tile) 0 0 1 1 1 1 None [] = (Ok layers, w') ∧
    ∀ ctx muppx rgb,
      fill_geometries (H := demo_env demo_tile) ctx layers.1.1 muppx rgb
        ≠ Raise NotImplementedError ∧
      fill_geometries (H := demo_env demo_tile) ctx layers.1.2 muppx rgb
        ≠ Raise NotImplementedError.
Proof.
  destruct (demo_get_map_features 0 0 1 1 1 1 None []) as ([[l wa] r] & w' & Hget);
    [lra..|].
  exists (l, wa, r), w'. split; [exact Hget|].
  assert (Hplain : Forall (λ g, is_2D (GetGeometryType g)) (l ++ wa)).
  { pose proof Hget as Hloop.
    apply get_map_features_inv in Hloop as [(e & _ & ? & _)|(z & _ & Hloop)];
      [done|].
    by apply demo_fetch_tiles_plain in Hloop. }
  apply Forall_app in Hplain as [Hl Hw].
  intros ctx muppx rgb.
  destruct (proj2 (classified_polygons_fill (H := demo_env demo_tile)
                     _ _ _ _ _ _ _ _ _ _ _ _ (demo_ogr_typed demo_tile) Hget)
              ctx muppx rgb) as [Hland Hwater].
  split; [apply Hland|apply Hwater]; by apply Forall_forall.
Defined.

(** The park of [raised_tile] as OGR reads it. *)
Lemma raised_tile_step (layers : Layers) :
  tile_step (H := demo_env raised_tile) layers (demo_response raised_tile)
  = Ok (layers.1.1
          ++ [Geometry25D (Polygon [[(0, 0); (1, 0); (0, 1); (0, 0)]%R])],
        layers.1.2, layers.2).
Proof. by destruct layers as [[l w] r]. Qed.

Lemma raised_fetch_tiles (zoom : Z) (mapzen_key : option string)
    (tiles : list (Z * Z)) (layers : Layers) (w : list event) :
  ∃ w',
    for_loop (fetch_tile (H := demo_env raised_tile) zoom mapzen_key) tiles layers w
    = (Ok (layers.1.1
             ++ replicate (length tiles)
                  (Geometry25D (Polygon [[(0, 0); (1, 0); (0, 1); (0, 0)]%R])),
           layers.1.2, layers.2), w').
Proof.
  revert layers w. induction tiles as [|row_col tiles IH]; intros layers w.
  - exists w. destruct layers as [[l wa] r]. simpl. by rewrite app_nil_r.
  - rewrite for_loop_M_cons. unfold fetch_tile at 1. cbv zeta. rewrite bindM_emit.
    change (requests_get _) with (Ok (demo_response raised_tile)).
    rewrite bindM_lift_Ok, raised_tile_step. unfold lift.
    destruct (IH (layers.1.1
                    ++ [Geometry25D (Polygon [[(0, 0); (1, 0); (0, 1); (0, 0)]%R])],
                  layers.1.2, layers.2)
                 (w ++ [EvGet (tile_url (H := demo_env raised_tile)
                                 zoom mapzen_key row_col)]))
      as [w' ->].
    exists w'. simpl. by rewrite <- app_assoc.
Qed.

(** C10, as stated, fails: a park whose positions have a third number is a
    GeoJSON Polygon, so the classifier keeps it; OGR reads it as
    [wkbPolygon25D], which is neither of the two types [fill_geometries]
    fills, and the landuse list makes it raise [NotImplementedError]. *)
Lemma raised_polygon_not_filled :
  ogr_reader_typed (H := demo_env raised_tile) ∧
  ∃ landuse w',
    get_map_features (H := demo_env raised_tile) 0 0 1 1 1 1 None []
    = (Ok (landuse, [], []), w') ∧
    landuse ≠ [] ∧
    (∀ g, g ∈ landuse →
       type_string_has "Polygon" raised_park ∧
       GetGeometryType g = wkbPolygon25D ∧ fill_arm_of g = FillOther) ∧
    ∀ ctx muppx rgb,
      fill_geometries (H := demo_env raised_tile) ctx landuse muppx rgb
      = Raise NotImplementedError.
Proof.
  split; [apply demo_ogr_typed|].
  destruct (calculate_zoom_ok 1 1) as [z Hz]; [lra..|].
  destruct (raised_fetch_tiles (py_round z) None
              (row_cols (py_round z) 0 0 1 1) ([], [], []) []) as [w' Hfetch].
  simpl in Hfetch.
  assert (Htiles : row_cols (py_round z) 0 0 1 1 ≠ []).
  { pose proof EARTH_DIAMETER_pos as HE.
    pose proof (point_has_tile (py_round z) 0 0 ltac:(lra) ltac:(lra)) as Hcov.
    apply (covering_tile_planned _ 0 0 1 1) in Hcov; [|lra..].
    intros Hnil. rewrite Hnil in Hcov. by apply elem_of_nil in Hcov. }
  eexists _, w'. split.
  { unfold get_map_features. rewrite Hz, bindM_lift_Ok. exact Hfetch. }
  destruct (row_cols (py_round z) 0 0 1 1) as [|tile tiles]; [done|].
  split; [done|]. split.
  - intros g Hg. apply elem_of_replicate in Hg as [-> _].
    split; [|done]. eexists _, _.
    split; [by vm_compute|]. split; by vm_compute.
  - intros ctx muppx rgb. done.
Qed.

(** ** What a render leaves in the world *)

Lemma quiet_ret {A} (a : A) : quiet (mret a).
Proof.
  intros w r w' [= <- <-]. exists []. by rewrite app_nil_r.
Qed.

Lemma quiet_lift {A} (x : result A) : quiet (lift x).
Proof.
  intros w r w' [= <- <-]. exists []. by rewrite app_nil_r.
Qed.

Lemma quiet_emit (ev : event) : ¬ is_png ev → quiet (emit ev).
Proof.
  intros Hev w r w' [= <- <-]. exists [ev]. split; [done|]. by apply Forall_singleton.
Qed.

Lemma quiet_bind {A B} (m : M A) (k : A → M B) :
  quiet m → (∀ a, quiet (k a)) → quiet (m ≫= k).
Proof.
  intros Hm Hk w r w' Hrun. unfold mbind, M_bind in Hrun.
  destruct (m w) as [[a|e] w1] eqn:Hmw.
  - destruct (Hm _ _ _ Hmw) as (ev1 & -> & Hev1).
    destruct (Hk a _ _ _ Hrun) as (ev2 & -> & Hev2).
    exists (ev1 ++ ev2). split; [by rewrite app_assoc|]. by apply Forall_app.
  - injection Hrun as <- <-. by apply (Hm _ _ _ Hmw).
Qed.

Lemma quiet_for_loop {A S} (body : S → A → M S) (items : list A) (s : S) :
  (∀ s x, quiet (body s x)) → quiet (for_loop body items s).
Proof.
  intros Hbody. revert s. induction items as [|x items IH]; intros s.
  - apply quiet_ret.
  - simpl. apply quiet_bind; [apply Hbody|apply IH].
Qed.

Create HintDb quiet discriminated.
#[local] Hint Resolve quiet_ret quiet_lift quiet_bind quiet_for_loop : quiet.
#[local] Hint Extern 1 (quiet (emit _)) =>
  (apply quiet_emit; let Hp := fresh in intros Hp; exact Hp) : quiet.

Lemma png_last_bind {A} (filename : string) (m : M A) (k : A → M unit) :
  quiet m → (∀ a, png_last filename (k a)) → png_last filename (m ≫= k).
Proof.
  intros Hm Hk w r w' Hrun. unfold mbind, M_bind in Hrun.
  destruct (m w) as [[a|e] w1] eqn:Hmw.
  - destruct (Hm _ _ _ Hmw) as (ev1 & -> & Hev1).
    destruct (Hk a _ _ _ Hrun)
      as (ev2 & Hev2 & [[Hr ->]|[[Hr ->]|[-> (s & d & ->)]]]).
    + exists (ev1 ++ ev2). split; [by apply Forall_app|]. left.
      split; [done|]. by rewrite app_assoc.
    + exists (ev1 ++ ev2). split; [by apply Forall_app|]. right. left.
      split; [done|]. by rewrite !app_assoc.
    + exists (ev1 ++ ev2). split; [by apply Forall_app|]. right. right.
      split; [done|]. exists s, d. by rewrite !app_assoc.
  - injection Hrun as <- <-. destruct (Hm _ _ _ Hmw) as (ev1 & -> & Hev1).
    exists ev1. split; [done|]. left. split; [by exists e|done].
Qed.

Section world.
Context `{Externals}.

Lemma png_last_write (surface : Surface) (ctx : Context) (filename : string) :
  png_last filename (write_to_png surface ctx filename).
Proof.
  intros w r w'. unfold write_to_png.
  destruct (cairo_write_to_png surface filename) as [[]|e].
  - intros [= <- <-]. exists []. split; [done|]. right. right.
    split; [done|]. by exists surface, ctx.
  - intros [= <- <-]. exists []. split; [done|]. right. left.
    split; [by exists e|done].
Qed.

Lemma quiet_get_local_filename (filename_or_url : string) :
  quiet (get_local_filename filename_or_url).
Proof.
  unfold get_local_filename. destruct (urlparse filename_or_url) as [scheme path].
  destruct (bool_decide (scheme ∈ [EmptyString; "file"])); [auto with quiet|].
  destruct (negb _); auto 10 with quiet.
Qed.

Lemma quiet_fetch_tile zoom mapzen_key layers row_col :
  quiet (fetch_tile zoom mapzen_key layers row_col).
Proof. unfold fetch_tile. auto 10 with quiet. Qed.

Lemma quiet_get_map_features xmin ymin xmax ymax resolution scale mapzen_key :
  quiet (get_map_features xmin ymin xmax ymax resolution scale mapzen_key).
Proof.
  unfold get_map_features. apply quiet_bind; [auto with quiet|]. intros z.
  apply quiet_for_loop. intros. apply quiet_fetch_tile.
Qed.

#[local] Hint Resolve quiet_get_local_filename quiet_get_map_features : quiet.

(** The PNG is the last thing [render] does. *)
Lemma png_last_render filename_or_url png_filename width resolution mapzen_key :
  png_last png_filename
    (render filename_or_url png_filename width resolution mapzen_key).
Proof.
  unfold render.
  repeat (apply png_last_bind;
          [auto with quiet|intros; repeat case_match]).
  apply png_last_write.
Qed.

(** Each tile of the list is asked for once, in order, up to the first
    exception. *)
Lemma fetch_loop_requests zoom mapzen_key (tiles : list (Z * Z)) (layers : Layers)
    (r : result Layers) (w w' : list event) :
  for_loop (fetch_tile zoom mapzen_key) tiles layers w = (r, w') →
  ∃ n, (n ≤ length tiles)%nat ∧
       w' = w ++ (EvGet ∘ tile_url zoom mapzen_key <$> take n tiles) ∧
       (is_Ok r → n = length tiles).
Proof.
  revert layers w. induction tiles as [|row_col tiles IH]; intros layers w Hloop.
  - injection Hloop as <- <-. exists 0%nat. by rewrite app_nil_r.
  - rewrite for_loop_M_cons in Hloop.
    destruct (fetch_tile zoom mapzen_key layers row_col w) as [[layers1|e] w1] eqn:Htile.
    + assert (w1 = w ++ [EvGet (tile_url zoom mapzen_key row_col)]) as ->.
      { unfold fetch_tile in Htile. cbv zeta in Htile. rewrite bindM_emit in Htile.
        destruct (requests_get _) as [got|e]; by injection Htile. }
      destruct (IH _ _ Hloop) as (n & Hn & -> & Hok).
      exists (S n). split; [simpl; lia|]. split; [by rewrite <- app_assoc|].
      intros Hr. simpl. by rewrite Hok.
    + injection Hloop as <- <-.
      assert (w1 = w ++ [EvGet (tile_url zoom mapzen_key row_col)]) as ->.
      { unfold fetch_tile in Htile. cbv zeta in Htile. rewrite bindM_emit in Htile.
        destruct (requests_get _) as [got|e']; by injection Htile. }
      exists 1%nat. split; [simpl; lia|]. split; [done|]. by intros [? ?].
Qed.

End world.

(** C4, with the arithmetic read as exact: at any zoom, and so at the chosen
    one, the planned tiles are the pairs of a row in
    [int(minrow) .. int(maxrow)] and a column in
    [int(mincol) .. int(maxcol)], each pair once; every tile (non-negative
    indices) that covers some point of the bounding box is among them; every
    point of the box inside the tiled square, also one on a tile edge, is
    covered by a planned tile; and a [get_map_features] that returns has
    asked for exactly the planned tiles of the zoom it chose. *)
Theorem row_cols_cover (zoom : Z) (xmin ymin xmax ymax : R) :
  (∀ row col,
     (row, col) ∈ row_cols zoom xmin ymin xmax ymax ↔
     (py_int (minrow zoom ymax) ≤ row ≤ py_int (maxrow zoom ymin))%Z ∧
     (py_int (mincol zoom xmin) ≤ col ≤ py_int (maxcol zoom xmax))%Z) ∧
  NoDup (row_cols zoom xmin ymin xmax ymax) ∧
  (∀ x y row col,
     xmin <= x ∧ x <= xmax → ymin <= y ∧ y <= ymax →
     tile_covers zoom row col (x, y) →
     (row, col) ∈ row_cols zoom xmin ymin xmax ymax) ∧
  (∀ x y,
     xmin <= x ∧ x <= xmax → ymin <= y ∧ y <= ymax →
     - EARTH_DIAMETER / 2 <= x → y <= EARTH_DIAMETER / 2 →
     ∃ row col, tile_covers zoom row col (x, y) ∧
                (row, col) ∈ row_cols zoom xmin ymin xmax ymax) ∧
  (∀ (E : Externals) resolution scale mapzen_key layers w w',
     get_map_features xmin ymin xmax ymax resolution scale mapzen_key w
       = (Ok layers, w') →
     ∃ z, calculate_zoom scale resolution = Ok z ∧
          w' = w ++ (EvGet ∘ tile_url (py_round z) mapzen_key
                       <$> row_cols (py_round z) xmin ymin xmax ymax)).
Proof.
  split; [intros; apply elem_of_row_cols|].
  split; [apply NoDup_row_cols|]. split; [|split].
  - intros x y row col. apply covering_tile_planned.
  - intros x y Hx Hy Hwest Hnorth.
    exists (Int_part (minrow zoom y)), (Int_part (mincol zoom x)).
    pose proof (point_has_tile zoom x y Hwest Hnorth) as Hcov.
    split; [done|]. by apply (covering_tile_planned zoom xmin ymin xmax ymax x y).
  - intros E resolution scale mapzen_key layers w w' Hget.
    apply get_map_features_inv in Hget as [(e & _ & ? & _)|(z & Hz & Hfetch)];
      [done|].
    exists z. split; [done|].
    apply fetch_loop_requests in Hfetch as (n & _ & -> & Hn).
    rewrite Hn by (by eexists). by rewrite firstn_all.
Qed.

Lemma row_cols_cover_witness :
  ∃ row col, tile_covers 1 row col (0, 0) ∧ (row, col) ∈ row_cols 1 (-1) (-1) 1 1.
Proof.
  pose proof EARTH_DIAMETER_pos as HE.
  destruct (row_cols_cover 1 (-1) (-1) 1 1) as (_ & _ & _ & Hex & _).
  apply (Hex 0 0); lra.
Defined.

(** ** The render as a whole *)

Lemma bindM_lift_Ok_inv {A B} (x : result A) (k : A → M B) (b : B)
    (w w' : list event) :
  (lift x ≫= k) w = (Ok b, w') → ∃ a, x = Ok a ∧ k a w = (Ok b, w').
Proof. destruct x as [a|e]; [|done]. intros Hk. by exists a. Qed.

Lemma truediv_Ok_inv (a b q : R) : truediv a b = Ok q → b ≠ 0 ∧ q = a / b.
Proof. unfold truediv. destruct (decide (b = 0)); [done|]. by intros [= <-]. Qed.

Lemma make_context_Ok_inv (left bottom right top width resolution : R)
    (surface : Surface) (context : Context) (scale : R) :
  make_context left bottom right top width resolution = Ok (surface, context, scale) →
  left ≠ right ∧ bottom ≠ top ∧
  surface = {| surface_width := py_int (resolution * width);
               surface_height :=
                 py_int (IZR (py_int (resolution * width))
                         / ((right - left) / (top - bottom))) |} ∧
  scale = IZR (py_int (resolution * width)) / (right - left).
Proof.
  intros Hmake. unfold make_context in Hmake.
  apply bind_Ok_inv in Hmake as (aspect & Haspect & Hmake).
  apply truediv_Ok_inv in Haspect as [Hh ->].
  apply bind_Ok_inv in Hmake as (v & Hv & Hmake).
  apply truediv_Ok_inv in Hv as [Ha ->].
  apply bind_Ok_inv in Hmake as (hscale & Hhscale & Hmake).
  apply truediv_Ok_inv in Hhscale as [Hw ->].
  apply bind_Ok_inv in Hmake as (v' & Hv' & Hmake).
  apply bind_Ok_inv in Hmake as (vscale & Hvscale & Hmake).
  injection Hmake as <- _ <-.
  split; [intros ->; apply Hw; lra|]. split; [intros ->; apply Hh; lra|]. done.
Qed.

Lemma bindM_run {A B} (m : M A) (k : A → M B) (r : result A) (w w1 : list event) :
  m w = (r, w1) →
  (m ≫= k) w = match r with Ok a => k a w1 | Raise e => (Raise e, w1) end.
Proof. intros Hm. unfold mbind, M_bind. rewrite Hm. by destruct r. Qed.

Section render_inv.
Context `{Externals}.

(** [write_to_png] leaves one event, and which one tells how it ended. *)
Lemma write_to_png_inv (surface : Surface) (ctx : Context) (png_filename : string)
    (r : result ()) (w w' : list event) :
  write_to_png surface ctx png_filename w = (r, w') →
  (r = Ok () ∧ cairo_write_to_png surface png_filename = Ok () ∧
   w' = w ++ [EvWritePng png_filename surface ctx]) ∨
  (∃ e, r = Raise e ∧ cairo_write_to_png surface png_filename = Raise e ∧
        w' = w ++ [EvWritePngFailed png_filename]).
Proof.
  unfold write_to_png.
  destruct (cairo_write_to_png surface png_filename) as [[]|e].
  - intros [= <- <-]. by left.
  - intros [= <- <-]. right. by exists e.
Qed.

(** However a render ends, either a stage before [write_to_png] raised and
    [write_to_png] was not called, or every stage returned and the render
    ends as [write_to_png] does. *)
Lemma render_inv filename_or_url png_filename width resolution mapzen_key
    (r : result ()) (w w' : list event) :
  render filename_or_url png_filename width resolution mapzen_key w = (r, w') →
  (∃ e events, r = Raise e ∧ w' = w ++ events ∧
               Forall (λ ev, ¬ is_png ev) events) ∨
  (∃ w2 surface drawn,
     ready_to_write filename_or_url width resolution mapzen_key w w2 surface drawn ∧
     write_to_png surface drawn png_filename w2 = (r, w')).
Proof.
  intros Hrender. unfold render in Hrender.
  destruct (get_local_filename filename_or_url w) as [[src|e] w1] eqn:Hsrc;
    rewrite (bindM_run _ _ _ _ _ Hsrc) in Hrender.
  2:{ injection Hrender as <- <-. left.
      destruct (quiet_get_local_filename _ _ _ _ Hsrc) as (events & -> & Hq).
      by exists e, events. }
  destruct (quiet_get_local_filename _ _ _ _ Hsrc) as (ev1 & Hw1 & Hq1).
  assert (Hearly : ∀ e, (∃ e' events, @Raise () e = Raise e' ∧ w1 = w ++ events ∧
                                      Forall (λ ev, ¬ is_png ev) events))
    by (intros e; by exists e, ev1).
  destruct (iterate_file_points src) as [lonlats|e] eqn:Hpoints.
  2:{ rewrite bindM_lift_Raise in Hrender. injection Hrender as <- <-. by left. }
  rewrite bindM_lift_Ok in Hrender.
  destruct (calculate_bounds (project_points lonlats))
    as [[[[xmin ymin] xmax] ymax]|e] eqn:Hbounds.
  2:{ rewrite bindM_lift_Raise in Hrender. injection Hrender as <- <-. by left. }
  rewrite bindM_lift_Ok in Hrender. cbv beta iota in Hrender.
  destruct (make_context xmin ymin xmax ymax width resolution)
    as [[[surface context] scale]|e] eqn:Hmake.
  2:{ rewrite bindM_lift_Raise in Hrender. injection Hrender as <- <-. by left. }
  rewrite bindM_lift_Ok in Hrender. cbv beta iota in Hrender.
  destruct (calculate_zoom scale resolution) as [zoom|e] eqn:Hzoom.
  2:{ rewrite bindM_lift_Raise in Hrender. injection Hrender as <- <-. by left. }
  rewrite bindM_lift_Ok in Hrender.
  destruct (truediv resolution scale) as [muppx|e] eqn:Hmuppx.
  2:{ rewrite bindM_lift_Raise in Hrender. injection Hrender as <- <-. by left. }
  rewrite bindM_lift_Ok in Hrender. cbv zeta in Hrender.
  destruct (get_map_features xmin ymin xmax ymax resolution scale mapzen_key w1)
    as [[[[landuse water] roads]|e] w2] eqn:Hget;
    rewrite (bindM_run _ _ _ _ _ Hget) in Hrender.
  2:{ injection Hrender as <- <-. left.
      destruct (quiet_get_map_features _ _ _ _ _ _ _ _ _ _ Hget) as (ev2 & -> & Hq2).
      exists e, (ev1 ++ ev2). rewrite Hw1, app_assoc.
      split; [done|]. split; [done|]. by apply Forall_app. }
  destruct (quiet_get_map_features _ _ _ _ _ _ _ _ _ _ Hget) as (ev2 & Hw2 & Hq2).
  assert (Hlate : ∀ e, (∃ e' events, @Raise () e = Raise e' ∧ w2 = w ++ events ∧
                                     Forall (λ ev, ¬ is_png ev) events)).
  { intros e. exists e, (ev1 ++ ev2). rewrite Hw2, Hw1, app_assoc.
    split; [done|]. split; [done|]. by apply Forall_app. }
  cbv beta iota in Hrender.
  destruct (fill_geometries _ landuse muppx park_fill) as [c1|e] eqn:Hc1.
  2:{ rewrite bindM_lift_Raise in Hrender. injection Hrender as <- <-. by left. }
  rewrite bindM_lift_Ok in Hrender.
  destruct (fill_geometries c1 water muppx water_fill) as [c2|e] eqn:Hc2.
  2:{ rewrite bindM_lift_Raise in Hrender. injection Hrender as <- <-. by left. }
  rewrite bindM_lift_Ok in Hrender. cbv zeta in Hrender.
  destruct (stroke_geometries _ roads) as [c3|e] eqn:Hc3.
  2:{ rewrite bindM_lift_Raise in Hrender. injection Hrender as <- <-. by left. }
  rewrite bindM_lift_Ok in Hrender. cbv zeta in Hrender.
  right. eexists w2, surface, _. split; [|exact Hrender].
  by exists src, w1, lonlats, xmin, ymin, xmax, ymax, context, scale, zoom, muppx,
    landuse, water, roads, c1, c2, c3.
Qed.

(** A render that returns has passed every stage, and ends by writing the
    PNG. *)
Lemma render_Ok_inv filename_or_url png_filename width resolution mapzen_key
    (w w' : list event) :
  render filename_or_url png_filename width resolution mapzen_key w = (Ok (), w') →
  ∃ src_filename w1 lonlats xmin ymin xmax ymax surface context scale zoom muppx
    landuse water roads w2 context1 context2 context3 drawn,
    get_local_filename filename_or_url w = (Ok src_filename, w1) ∧
    iterate_file_points src_filename = Ok lonlats ∧
    calculate_bounds (project_points lonlats) = Ok (xmin, ymin, xmax, ymax) ∧
    make_context xmin ymin xmax ymax width resolution = Ok (surface, context, scale) ∧
    calculate_zoom scale resolution = Ok zoom ∧
    truediv resolution scale = Ok muppx ∧
    get_map_features xmin ymin xmax ymax resolution scale mapzen_key w1
      = (Ok (landuse, water, roads), w2) ∧
    fill_geometries
      (context ++ [set_source_rgb off_white;
                   Rectangle xmin ymax (xmax - xmin) (ymin - ymax); Fill])
      landuse muppx park_fill = Ok context1 ∧
    fill_geometries context1 water muppx water_fill = Ok context2 ∧
    stroke_geometries
      (context2 ++ [SetLineWidth (0.5 * muppx); set_source_rgb road_stroke])
      roads = Ok context3 ∧
    drawn = draw_points (context3 ++ [SetLineWidth (0.25 * muppx)])
              (project_points lonlats) ∧
    w' = w2 ++ [EvWritePng png_filename surface drawn].
Proof.
  intros Hrender.
  apply render_inv in Hrender
    as [(e & events & ? & _)|(w2 & surface & drawn & Hready & Hwrite)]; [done|].
  apply write_to_png_inv in Hwrite as [(_ & _ & ->)|(e & ? & _)]; [|done].
  destruct Hready
    as (src & w1 & lonlats & xmin & ymin & xmax & ymax & context & scale & zoom
        & muppx & landuse & water & roads & c1 & c2 & c3 & Hsrc & Hpoints & Hbounds
        & Hmake & Hzoom & Hmuppx & Hget & Hc1 & Hc2 & Hc3 & Hdrawn).
  by exists src, w1, lonlats, xmin, ymin, xmax, ymax, surface, context, scale,
    zoom, muppx, landuse, water, roads, w2, c1, c2, c3, drawn.
Qed.

End render_inv.

(** ** A render in the concrete environment *)

Lemma pstdev_value (l : list R) (s : R) :
  l ≠ [] → 0 <= s →
  INR (length l) * (s * s) = total ((λ v, (v - mean l) * (v - mean l)) <$> l) →
  pstdev l = s.
Proof.
  intros Hl Hs Hsq. pose proof (pstdev_sqr l Hl) as Hp.
  pose proof (pstdev_nonneg l) as Hp0. pose proof (INR_length_pos l Hl) as Hn.
  rewrite <- Hsq in Hp. apply Rmult_eq_reg_l in Hp; [|lra]. nra.
Qed.

Lemma fmt7_IZR (z : Z) : fmt7 (IZR z) = IZR z.
Proof.
  unfold fmt7. replace (IZR z * 10 ^ 7) with (IZR (z * 10 ^ 7)).
  - rewrite py_round_IZR, mult_IZR. change (IZR (10 ^ 7)) with 10000000.
    simpl. lra.
  - rewrite mult_IZR. change (IZR (10 ^ 7)) with 10000000. simpl. lra.
Qed.

Lemma square_rows_points (body : json) :
  omap (valid_point (H := demo_env body)) square_rows = square.
Proof.
  unfold square_rows, valid_point. simpl omap.
  rewrite !(proj1 (demo_row_number body _ _)), !(proj2 (demo_row_number body _ _)).
  rewrite (demo_float_value "0" 0 1), (demo_float_value "1" 1 1) by (by vm_compute).
  simpl.
  case_ranges.
  simpl. unfold square. repeat (f_equal; try lra).
Qed.

Lemma project_square (body : json) :
  project_points (H := demo_env body) square = square.
Proof.
  unfold project_points, square. simpl. rewrite !(fmt7_IZR 0), !(fmt7_IZR 1). done.
Qed.

Lemma square_axis_stats (l : list R) :
  l = [0; 1; 0; 1] ∨ l = [0; 0; 1; 1] → mean l = 1 / 2 ∧ pstdev l = 1 / 2.
Proof.
  intros Hl.
  assert (Hm : mean l = 1 / 2)
    by (destruct Hl as [-> | ->]; unfold mean, total; simpl; lra).
  split; [done|]. apply pstdev_value; [by destruct Hl as [-> | ->]|lra|].
  rewrite Hm. destruct Hl as [-> | ->]; unfold total; simpl; lra.
Qed.

Lemma square_axis_kept (k : R) (l : list R) :
  1 <= k → l = [0; 1; 0; 1] ∨ l = [0; 0; 1; 1] → filter (within k l) l = l.
Proof.
  intros Hk Hl. destruct (square_axis_stats l Hl) as [Hm Hs].
  assert (H0 : within k l 0) by (unfold within; rewrite Hm, Hs; lra).
  assert (H1 : within k l 1) by (unfold within; rewrite Hm, Hs; lra).
  destruct Hl as [Hl|Hl]; rewrite Hl in H0, H1 |- *;
    by rewrite !filter_cons_True, filter_nil.
Qed.

Lemma square_axis_extremes (l : list R) (lo hi : R) :
  l = [0; 1; 0; 1] ∨ l = [0; 0; 1; 1] → is_min lo l → is_max hi l → lo = 0 ∧ hi = 1.
Proof.
  intros Hl [Hlo Hmin] [Hhi Hmax].
  assert (H0 : 0 ∈ l) by (destruct Hl as [-> | ->]; apply list_elem_of_here).
  assert (H1 : 1 ∈ l)
    by (destruct Hl as [-> | ->]; repeat constructor).
  assert (Hcases : ∀ v, v ∈ l → v = 0 ∨ v = 1).
  { intros v Hv.
    destruct Hl as [-> | ->];
      repeat (apply elem_of_cons in Hv as [->|Hv]; [auto|]);
      by apply not_elem_of_nil in Hv. }
  pose proof (Hmin 0 H0). pose proof (Hmax 1 H1).
  destruct (Hcases lo Hlo), (Hcases hi Hhi); split; lra.
Qed.

Lemma calculate_bounds_square :
  calculate_bounds square = Ok (-1 / 50, -1 / 50, 51 / 50, 51 / 50).
Proof.
  destruct (calculate_bounds_is_spec_box square ltac:(done))
    as (box & -> & (left & right & bottom & top & Hl & Hr & Hb & Ht & ->)).
  change (square.*1) with [0; 1; 0; 1] in Hl, Hr.
  change (square.*2) with [0; 0; 1; 1] in Hb, Ht.
  rewrite square_axis_kept in Hl, Hr by (lra || auto).
  rewrite square_axis_kept in Hb, Ht by (lra || auto).
  destruct (square_axis_extremes _ _ _ (or_introl eq_refl) Hl Hr) as [-> ->].
  destruct (square_axis_extremes _ _ _ (or_intror eq_refl) Hb Ht) as [-> ->].
  f_equal. box_eq.
Qed.

Lemma bindM_run_Ok {A B} (m : M A) (k : A → M B) (a : A) (w w1 : list event) :
  m w = (Ok a, w1) → (m ≫= k) w = k a w1.
Proof. intros Hm. unfold mbind, M_bind. by rewrite Hm. Qed.

Lemma empty_fetch_tile zoom mapzen_key (layers : Layers) row_col (w : list event) :
  fetch_tile (H := demo_env empty_tile) zoom mapzen_key layers row_col w
  = (Ok layers, w ++ [EvGet (tile_url (H := demo_env empty_tile) zoom mapzen_key row_col)]).
Proof. by destruct layers as [[l wa] r]. Qed.

Lemma empty_fetch_tiles zoom mapzen_key (tiles : list (Z * Z)) (layers : Layers)
    (w : list event) :
  for_loop (fetch_tile (H := demo_env empty_tile) zoom mapzen_key) tiles layers w
  = (Ok layers,
     w ++ (EvGet ∘ tile_url (H := demo_env empty_tile) zoom mapzen_key <$> tiles)).
Proof.
  revert w. induction tiles as [|row_col tiles IH]; intros w.
  - simpl. by rewrite app_nil_r.
  - rewrite for_loop_M_cons, empty_fetch_tile, IH. by rewrite <- app_assoc.
Qed.

Lemma empty_get_map_features xmin ymin xmax ymax resolution scale mapzen_key w :
  0 < scale → 0 < resolution →
  ∃ requests,
    get_map_features (H := demo_env empty_tile) xmin ymin xmax ymax resolution scale
      mapzen_key w = (Ok ([], [], []), w ++ requests).
Proof.
  intros Hs Hr. destruct (calculate_zoom_ok scale resolution Hs Hr) as [z Hz].
  unfold get_map_features. rewrite Hz, bindM_lift_Ok. unfold fetch_tiles.
  rewrite empty_fetch_tiles. by eexists.
Qed.

(** Four points on a unit square, no map features: one PNG of 668 by 668. *)
Lemma square_render :
  ∃ requests drawn,
    render (H := demo_env empty_tile) "points.csv" "out.png" 668 1 None []
    = (Ok (), requests ++
              [EvWritePng "out.png"
                 {| surface_width := 668; surface_height := 668 |} drawn]).
Proof.
  unfold render.
  rewrite (bindM_run_Ok _ _ "points.csv" [] []) by done.
  rewrite (iterate_csv (H := demo_env empty_tile) "points.csv" square_rows) by done.
  rewrite bindM_lift_Ok, square_rows_points, project_square, calculate_bounds_square.
  rewrite bindM_lift_Ok. cbv beta iota.
  rewrite make_context_ok by (intros Hz; lra). cbv zeta.
  replace (1 * 668) with (IZR 668) by lra. rewrite py_int_IZR.
  replace (668 / ((51 / 50 - -1 / 50) / (51 / 50 - -1 / 50))) with (IZR 668)
    by (field_simplify; lra).
  rewrite py_int_IZR, bindM_lift_Ok. cbv beta iota.
  destruct (calculate_zoom_ok (668 / (51 / 50 - -1 / 50)) 1) as [z Hz]; [lra..|].
  rewrite Hz, bindM_lift_Ok.
  rewrite truediv_ok, bindM_lift_Ok by lra. cbv zeta.
  destruct (empty_get_map_features (-1 / 50) (-1 / 50) (51 / 50) (51 / 50) 1
              (668 / (51 / 50 - -1 / 50)) None []) as [requests Hget]; [lra..|].
  rewrite (bindM_run_Ok _ _ _ _ _ Hget). cbv beta iota.
  change (fill_geometries ?c [] ?m ?rgb) with (Ok (c ++ [set_source_rgb rgb])).
  rewrite !bindM_lift_Ok.
  change (stroke_geometries ?c []) with (Ok c).
  rewrite bindM_lift_Ok. by eexists requests, _.
Qed.

(** ** Two points *)

Lemma pair_stats (a b : R) :
  a <= b → mean [a; b] = (a + b) / 2 ∧ pstdev [a; b] = (b - a) / 2.
Proof.
  intros Hab.
  assert (Hm : mean [a; b] = (a + b) / 2) by (unfold mean, total; simpl; lra).
  split; [done|]. apply pstdev_value; [done|lra|].
  rewrite Hm. unfold total. simpl. lra.
Qed.

Lemma pair_kept (k a b : R) : 1 <= k → a <= b → filter (within k [a; b]) [a; b] = [a; b].
Proof.
  intros Hk Hab. destruct (pair_stats a b Hab) as [Hm Hs].
  assert (Ha : within k [a; b] a) by (unfold within; rewrite Hm, Hs; split; nra).
  assert (Hb : within k [a; b] b) by (unfold within; rewrite Hm, Hs; split; nra).
  by rewrite !filter_cons_True, filter_nil.
Qed.

Lemma pair_extremes (a b lo hi : R) :
  a <= b → is_min lo [a; b] → is_max hi [a; b] → lo = a ∧ hi = b.
Proof.
  intros Hab [Hlo Hmin] [Hhi Hmax].
  pose proof (Hmin a (list_elem_of_here _ _)).
  pose proof (Hmax b ltac:(repeat constructor)).
  apply elem_of_cons in Hlo as [->|Hlo]; apply elem_of_cons in Hhi as [->|Hhi];
    try apply list_elem_of_singleton in Hlo as ->;
    try apply list_elem_of_singleton in Hhi as ->; split; lra.
Qed.

(** The box of two points in increasing order. *)
Lemma calculate_bounds_pair (x1 y1 x2 y2 : R) :
  x1 <= x2 → y1 <= y2 →
  calculate_bounds [(x1, y1); (x2, y2)]
  = Ok (x1 - (x2 - x1) / 50, y1 - (y2 - y1) / 50,
        x2 + (x2 - x1) / 50, y2 + (y2 - y1) / 50).
Proof.
  intros Hx Hy.
  destruct (calculate_bounds_is_spec_box [(x1, y1); (x2, y2)] ltac:(done))
    as (box & -> & (left & right & bottom & top & Hl & Hr & Hb & Ht & ->)).
  change ([(x1, y1); (x2, y2)].*1) with [x1; x2] in Hl, Hr.
  change ([(x1, y1); (x2, y2)].*2) with [y1; y2] in Hb, Ht.
  rewrite pair_kept in Hl, Hr by lra. rewrite pair_kept in Hb, Ht by lra.
  destruct (pair_extremes _ _ _ _ Hx Hl Hr) as [-> ->].
  destruct (pair_extremes _ _ _ _ Hy Hb Ht) as [-> ->].
  f_equal. box_eq.
Qed.

(** C6, as the code has it, with the arithmetic read as exact: the PNG that
    a render writes is [M * W] pixels wide and [int(M * W / A)] pixels high,
    the quotient cut toward zero and not rounded, where
    [A = (xmax - xmin) / (ymax - ymin)] is the aspect of the box that
    [calculate_bounds] gives for the projected points; the surface that
    [make_context] returns for a box is of that size. *)
Theorem png_size_truncates `{Externals} :
  (∀ left bottom right top (W M : Z) surface context scale,
     make_context left bottom right top (IZR W) (IZR M)
     = Ok (surface, context, scale) →
     surface = {| surface_width := M * W;
                  surface_height :=
                    py_int (IZR (M * W) / ((right - left) / (top - bottom))) |}) ∧
  (∀ filename_or_url png_filename (W M : Z) mapzen_key w w',
     render filename_or_url png_filename (IZR W) (IZR M) mapzen_key w = (Ok (), w') →
     ∃ src_filename w1 lonlats xmin ymin xmax ymax events drawn,
       get_local_filename filename_or_url w = (Ok src_filename, w1) ∧
       iterate_file_points src_filename = Ok lonlats ∧
       calculate_bounds (project_points lonlats) = Ok (xmin, ymin, xmax, ymax) ∧
       w' = events ++
            [EvWritePng png_filename
               {| surface_width := M * W;
                  surface_height :=
                    py_int (IZR (M * W) / ((xmax - xmin) / (ymax - ymin))) |}
               drawn]).
Proof.
  split.
  { intros left bottom right top W M surface context scale Hmake.
    apply make_context_Ok_inv in Hmake as (_ & _ & -> & _).
    by rewrite <- mult_IZR, py_int_IZR. }
  intros filename_or_url png_filename W M mapzen_key w w' Hrender.
  apply render_Ok_inv in Hrender
    as (src & w1 & lonlats & xmin & ymin & xmax & ymax & surface & context & scale
        & zoom & muppx & landuse & water & roads & w2 & c1 & c2 & c3 & drawn
        & Hsrc & Hpoints & Hbounds & Hmake & _ & _ & _ & _ & _ & _ & _ & ->).
  apply make_context_Ok_inv in Hmake as (_ & _ & -> & _).
  rewrite <- mult_IZR, py_int_IZR.
  by exists src, w1, lonlats, xmin, ymin, xmax, ymax, w2, drawn.
Qed.

Lemma png_size_truncates_witness :
  ∃ events drawn,
    render (H := demo_env empty_tile) "points.csv" "out.png" (IZR 668) (IZR 1) None []
    = (Ok (), events ++
              [EvWritePng "out.png"
                 {| surface_width := 1 * 668;
                    surface_height :=
                      py_int (IZR (1 * 668)
                              / ((51 / 50 - -1 / 50) / (51 / 50 - -1 / 50))) |}
                 drawn]).
Proof.
  destruct square_render as (requests & drawn0 & Hrender).
  destruct (proj2 (png_size_truncates (H := demo_env empty_tile))
              "points.csv" "out.png" 668%Z 1%Z None [] _ Hrender)
    as (src & w1 & lonlats & xmin & ymin & xmax & ymax & events & drawn
        & Hsrc & Hpoints & Hbounds & Hw).
  injection Hsrc as <- <-.
  rewrite (iterate_csv (H := demo_env empty_tile) "points.csv" square_rows) in Hpoints
    by done.
  rewrite square_rows_points in Hpoints. injection Hpoints as <-.
  rewrite project_square, calculate_bounds_square in Hbounds.
  injection Hbounds as <- <- <- <-.
  exists events, drawn. by rewrite Hrender, Hw.
Defined.

(** C6, as stated, fails: for the points (0, 0) and (100, 31.25) the box has
    aspect 3.2, the surface made at width 668 is 208 pixels high, and
    [round(668 / 3.2)] is 209; all of it is exact in binary64, where the
    code gives the same box and the same 208.  And where the quotient is
    a whole number the two divisions of binary64 can fall just short of it:
    on the box (0, 0, 668, 125) the code makes a surface 124 pixels high,
    and [668 / (668 / 125)] is 125. *)
Lemma png_height_not_rounded :
  calculate_bounds [(0, 0); (100, 31.25)] = Ok (-2, -0.625, 102, 31.875) ∧
  (∃ context scale,
     make_context (-2) (-0.625) 102 31.875 668 1
     = Ok ({| surface_width := 668; surface_height := 208 |}, context, scale)) ∧
  py_round (1 * 668 / ((102 - -2) / (31.875 - -0.625))) = 209%Z ∧
  Binary64.calculate_bounds [(0, 0); (100, 31.25)]%float
  = Ok (-2, -0.625, 102, 31.875)%float ∧
  (∃ scales offsets scale,
     Binary64.make_context (-2) (-0.625) 102 31.875 668 1
     = Ok ({| surface_width := 668; surface_height := 208 |},
           scales, offsets, scale)) ∧
  (∃ scales offsets scale,
     Binary64.make_context 0 0 668 125 668 1
     = Ok ({| surface_width := 668; surface_height := 124 |},
           scales, offsets, scale)) ∧
  py_round (1 * 668 / ((668 - 0) / (125 - 0))) = 125%Z.
Proof.
  split; [|split; [|split; [|split; [|split; [|split]]]]].
  - rewrite calculate_bounds_pair by lra.
    f_equal. box_eq.
  - apply make_context_668_example.
  - apply (py_round_up _ 208); lra.
  - by vm_compute.
  - eexists _, _, _. by vm_compute.
  - eexists _, _, _. by vm_compute.
  - replace (1 * 668 / ((668 - 0) / (125 - 0))) with (IZR 125) by (field; lra).
    apply py_round_IZR.
Qed.

(** C7: however [render] ends, either a stage before [write_to_png] raised,
    and then the render raised without calling [write_to_png], so nothing
    of a PNG was written; or every stage returned, from resolving the
    source to stroking the roads, and the render ends as its last statement
    [write_to_png] does: with the PNG written when that returns, and raising
    what that raises.  So an exception in any stage is the end of the
    render, before the PNG.  The tile loop asks for each planned tile once,
    in order, and for none after the first exception. *)
Theorem render_aborts_before_png `{Externals} :
  (∀ filename_or_url png_filename width resolution mapzen_key w r w',
     render filename_or_url png_filename width resolution mapzen_key w = (r, w') →
     (∃ e events,
        r = Raise e ∧ w' = w ++ events ∧ Forall (λ ev, ¬ is_png ev) events) ∨
     (∃ w2 surface drawn events,
        ready_to_write filename_or_url width resolution mapzen_key w w2
          surface drawn ∧
        w2 = w ++ events ∧ Forall (λ ev, ¬ is_png ev) events ∧
        ((r = Ok () ∧ cairo_write_to_png surface png_filename = Ok () ∧
          w' = w2 ++ [EvWritePng png_filename surface drawn]) ∨
         (∃ e, r = Raise e ∧ cairo_write_to_png surface png_filename = Raise e ∧
               w' = w2 ++ [EvWritePngFailed png_filename])))) ∧
  (∀ filename_or_url png_filename width resolution mapzen_key w w',
     render filename_or_url png_filename width resolution mapzen_key w = (Ok (), w') →
     ∃ src_filename w1 lonlats xmin ymin xmax ymax surface context scale zoom muppx
       landuse water roads w2 context1 context2 context3 drawn,
       get_local_filename filename_or_url w = (Ok src_filename, w1) ∧
       iterate_file_points src_filename = Ok lonlats ∧
       calculate_bounds (project_points lonlats) = Ok (xmin, ymin, xmax, ymax) ∧
       make_context xmin ymin xmax ymax width resolution
         = Ok (surface, context, scale) ∧
       calculate_zoom scale resolution = Ok zoom ∧
       truediv resolution scale = Ok muppx ∧
       get_map_features xmin ymin xmax ymax resolution scale mapzen_key w1
         = (Ok (landuse, water, roads), w2) ∧
       fill_geometries
         (context ++ [set_source_rgb off_white;
                      Rectangle xmin ymax (xmax - xmin) (ymin - ymax); Fill])
         landuse muppx park_fill = Ok context1 ∧
       fill_geometries context1 water muppx water_fill = Ok context2 ∧
       stroke_geometries
         (context2 ++ [SetLineWidth (0.5 * muppx); set_source_rgb road_stroke])
         roads = Ok context3 ∧
       drawn = draw_points (context3 ++ [SetLineWidth (0.25 * muppx)])
                 (project_points lonlats) ∧
       w' = w2 ++ [EvWritePng png_filename surface drawn]) ∧
  (∀ zoom mapzen_key tiles layers w w',
     fetch_tiles zoom mapzen_key tiles w = (Ok layers, w') →
     ∀ row_col, row_col ∈ tiles →
       ∃ got before after,
         requests_get (tile_url zoom mapzen_key row_col) = Ok got ∧
         tile_step before got = Ok after) ∧
  (∀ zoom mapzen_key tiles r w w',
     fetch_tiles zoom mapzen_key tiles w = (r, w') →
     ∃ n, (n ≤ length tiles)%nat ∧
          w' = w ++ (EvGet ∘ tile_url zoom mapzen_key <$> take n tiles) ∧
          (is_Ok r → n = length tiles)).
Proof.
  split; [|split; [|split]].
  - intros ? ? ? ? ? w r w' Hrender.
    apply render_inv in Hrender
      as [Hearly|(w2 & surface & drawn & Hready & Hwrite)]; [by left|].
    right. exists w2, surface, drawn.
    assert (Hquiet : ∃ events, w2 = w ++ events ∧ Forall (λ ev, ¬ is_png ev) events).
    { destruct Hready
        as (src & w1 & lonlats & xmin & ymin & xmax & ymax & context & scale & zoom
            & muppx & landuse & water & roads & c1 & c2 & c3 & Hsrc & _ & _ & _
            & _ & _ & Hget & _).
      destruct (quiet_get_local_filename _ _ _ _ Hsrc) as (ev1 & -> & Hq1).
      destruct (quiet_get_map_features _ _ _ _ _ _ _ _ _ _ Hget) as (ev2 & -> & Hq2).
      exists (ev1 ++ ev2). split; [by rewrite app_assoc|by apply Forall_app]. }
    destruct Hquiet as (events & Hw2 & Hq). exists events.
    split; [done|]. split; [done|]. split; [done|].
    apply write_to_png_inv in Hwrite as [(-> & Hok & ->)|(e & -> & Hraise & ->)].
    + by left.
    + right. by exists e.
  - intros. by apply render_Ok_inv.
  - intros zoom mapzen_key tiles layers w w' Hfetch row_col Htile.
    destruct (for_loop_M_all_ok _ _ _ _ _ _ Hfetch row_col Htile)
      as (before & after & w1 & w2 & Hbody).
    unfold fetch_tile in Hbody.
    apply bindM_Ok_inv in Hbody as ([] & w3 & _ & Hbody).
    apply bindM_lift_Ok_inv in Hbody as (got & Hgot & Hbody).
    injection Hbody as Hstep _. by exists got, before, after.
  - intros zoom mapzen_key tiles r w w' Hfetch. by apply fetch_loop_requests in Hfetch.
Qed.

Section missing_kind_render.
Context `{Externals}.

(** A render whose tile stage is offered a feature on which the water or the
    roads step raises does not return. *)
Lemma render_stuck filename_or_url png_filename width resolution mapzen_key
    (w w' w1 : list event) (r : result ()) src_filename lonlats xmin ymin xmax ymax
    surface context scale z (layer : string) (feature : json) :
  render filename_or_url png_filename width resolution mapzen_key w = (r, w') →
  get_local_filename filename_or_url w = (Ok src_filename, w1) →
  iterate_file_points src_filename = Ok lonlats →
  calculate_bounds (project_points lonlats) = Ok (xmin, ymin, xmax, ymax) →
  make_context xmin ymin xmax ymax width resolution = Ok (surface, context, scale) →
  calculate_zoom scale resolution = Ok z →
  offered (py_round z) mapzen_key (row_cols (py_round z) xmin ymin xmax ymax)
    layer feature →
  (layer = "water" ∧ (∀ acc, water_step acc feature = Raise KeyError) ∨
   layer = "roads" ∧ (∀ acc, roads_step acc feature = Raise KeyError)) →
  ∃ e, r = Raise e.
Proof.
  intros Hrender Hsrc Hpoints Hbounds Hmake Hzoom Hoffered Hstep.
  destruct r as [[]|e]; [|by exists e]. exfalso.
  apply render_Ok_inv in Hrender
    as (src' & w1' & lonlats' & xmin' & ymin' & xmax' & ymax' & surface' & context'
        & scale' & z' & muppx & landuse & water & roads & w2 & c1 & c2 & c3 & drawn
        & Hsrc' & Hpoints' & Hbounds' & Hmake' & Hzoom' & _ & Hget & _).
  rewrite Hsrc in Hsrc'. injection Hsrc' as <- <-.
  rewrite Hpoints in Hpoints'. injection Hpoints' as <-.
  rewrite Hbounds in Hbounds'. injection Hbounds' as <- <- <- <-.
  rewrite Hmake in Hmake'. injection Hmake' as <- <- <-.
  apply get_map_features_inv in Hget as [(e & _ & ? & _)|(z'' & Hzoom'' & Hfetch)];
    [done|].
  rewrite Hzoom in Hzoom''. injection Hzoom'' as <-.
  destruct (fetch_tiles_stuck _ _ _ _ _ w1 Hoffered Hstep) as (e & w3 & Hraise).
  by rewrite Hraise in Hfetch.
Qed.

(** C9: a feature that passes the geometry-type test and whose properties
    object has no ['kind'] is passed over by the landuse loop, which goes on
    as if the feature were not there, while the water loop and the roads
    loop raise [KeyError] on it; so once a fetched tile offers such a feature
    to water or roads, the loop over the tiles ends in an exception, and a
    render that has come as far as the tiles ends in an exception too. *)
Theorem missing_kind_asymmetry (feature : json) :
  lacks_kind feature →
  (geometry_type_has "Polygon" feature = Ok true →
   (∀ acc, landuse_step acc feature = Ok acc) ∧
   (∀ before after acc,
      for_loop landuse_step (before ++ feature :: after) acc
      = for_loop landuse_step (before ++ after) acc) ∧
   (∀ acc, water_step acc feature = Raise KeyError) ∧
   (∀ before after acc,
      for_loop water_step (before ++ feature :: after) acc
      = for_loop water_step before acc ≫= λ _, Raise KeyError) ∧
   (∀ zoom mapzen_key tiles w,
      offered zoom mapzen_key tiles "water" feature →
      ∃ e w', fetch_tiles zoom mapzen_key tiles w = (Raise e, w')) ∧
   (∀ filename_or_url png_filename width resolution mapzen_key w r w' w1
      src_filename lonlats xmin ymin xmax ymax surface context scale z,
      render filename_or_url png_filename width resolution mapzen_key w = (r, w') →
      get_local_filename filename_or_url w = (Ok src_filename, w1) →
      iterate_file_points src_filename = Ok lonlats →
      calculate_bounds (project_points lonlats) = Ok (xmin, ymin, xmax, ymax) →
      make_context xmin ymin xmax ymax width resolution
        = Ok (surface, context, scale) →
      calculate_zoom scale resolution = Ok z →
      offered (py_round z) mapzen_key (row_cols (py_round z) xmin ymin xmax ymax)
        "water" feature →
      ∃ e, r = Raise e)) ∧
  (geometry_type_has "LineString" feature = Ok true →
   (∀ acc, roads_step acc feature = Raise KeyError) ∧
   (∀ before after acc,
      for_loop roads_step (before ++ feature :: after) acc
      = for_loop roads_step before acc ≫= λ _, Raise KeyError) ∧
   (∀ zoom mapzen_key tiles w,
      offered zoom mapzen_key tiles "roads" feature →
      ∃ e w', fetch_tiles zoom mapzen_key tiles w = (Raise e, w')) ∧
   (∀ filename_or_url png_filename width resolution mapzen_key w r w' w1
      src_filename lonlats xmin ymin xmax ymax surface context scale z,
      render filename_or_url png_filename width resolution mapzen_key w = (r, w') →
      get_local_filename filename_or_url w = (Ok src_filename, w1) →
      iterate_file_points src_filename = Ok lonlats →
      calculate_bounds (project_points lonlats) = Ok (xmin, ymin, xmax, ymax) →
      make_context xmin ymin xmax ymax width resolution
        = Ok (surface, context, scale) →
      calculate_zoom scale resolution = Ok z →
      offered (py_round z) mapzen_key (row_cols (py_round z) xmin ymin xmax ymax)
        "roads" feature →
      ∃ e, r = Raise e)).
Proof.
  intros Hlacks. split; intros Htype.
  - split; [intros; by apply landuse_step_lacks_kind|].
    split.
    { intros before after acc. rewrite !for_loop_app.
      destruct (for_loop landuse_step before acc) as [acc'|e]; [|done].
      rewrite !bind_Ok. simpl. by rewrite landuse_step_lacks_kind. }
    split; [intros; by apply water_step_lacks_kind|].
    split.
    { intros before after acc. rewrite for_loop_app.
      destruct (for_loop water_step before acc) as [acc'|e]; [|done].
      rewrite !bind_Ok. simpl. by rewrite water_step_lacks_kind. }
    assert (Hstep : "water" = "water" ∧ (∀ acc, water_step acc feature = Raise KeyError) ∨
                    "water" = "roads" ∧ (∀ acc, roads_step acc feature = Raise KeyError)).
    { left. split; [done|]. intros. by apply water_step_lacks_kind. }
    split.
    + intros zoom mapzen_key tiles w Hoffered.
      by apply (fetch_tiles_stuck zoom mapzen_key tiles "water" feature w Hoffered).
    + intros. eapply render_stuck with (layer := "water"); eassumption.
  - split; [intros; by apply roads_step_lacks_kind|].
    split.
    { intros before after acc. rewrite for_loop_app.
      destruct (for_loop roads_step before acc) as [acc'|e]; [|done].
      rewrite !bind_Ok. simpl. by rewrite roads_step_lacks_kind. }
    assert (Hstep : "roads" = "water" ∧ (∀ acc, water_step acc feature = Raise KeyError) ∨
                    "roads" = "roads" ∧ (∀ acc, roads_step acc feature = Raise KeyError)).
    { right. split; [done|]. intros. by apply roads_step_lacks_kind. }
    split.
    + intros zoom mapzen_key tiles w Hoffered.
      by apply (fetch_tiles_stuck zoom mapzen_key tiles "roads" feature w Hoffered).
    + intros. eapply render_stuck with (layer := "roads"); eassumption.
Qed.

End missing_kind_render.

Lemma missing_kind_asymmetry_witness :
  landuse_step (H := demo_env unkind_tile) [] (demo_feature "Polygon" ∅) = Ok [] ∧
  water_step (H := demo_env unkind_tile) [] (demo_feature "Polygon" ∅) = Raise KeyError ∧
  ∃ e w', fetch_tiles (H := demo_env unkind_tile) 0 None [(0, 0)%Z] [] = (Raise e, w').
Proof.
  assert (Hlacks : lacks_kind (demo_feature "Polygon" ∅)) by (by exists ∅).
  destruct (missing_kind_asymmetry (H := demo_env unkind_tile)
              (demo_feature "Polygon" ∅) Hlacks) as [Hpolygon _].
  destruct (Hpolygon eq_refl) as (Hlanduse & _ & Hwater & _ & Hfetch & _).
  split; [apply Hlanduse|]. split; [apply Hwater|].
  apply Hfetch. exists (0, 0)%Z, (demo_response unkind_tile), [demo_feature "Polygon" ∅].
  split; [apply list_elem_of_here|]. split; [reflexivity|].
  split; [reflexivity|apply list_elem_of_here].
Defined.

(** ** The code in binary64 *)

(** The value of a float literal, from its mantissa and exponent. *)
Ltac float_value :=
  unfold Binary64.to_R;
  repeat match goal with
         | |- context [Prim2SF ?x] =>
             let v := eval vm_compute in (Prim2SF x) in
             change (Prim2SF x) with v
         end;
  cbv beta iota; cbn [powerRZ]; rewrite ?pow_IZR;
  repeat match goal with
         | |- context [(2 ^ Z.of_nat ?n)%Z] =>
             let v := eval vm_compute in (2 ^ Z.of_nat n)%Z in
             change (2 ^ Z.of_nat n)%Z with v
         end.

(** The two equal points of the first claim: binary64 computes on them what
    the exact reading does, a box without a width and a height, on which
    [make_context] divides by zero. *)
Lemma identical_points_in_binary64 :
  Binary64.calculate_bounds [(1, 2); (1, 2)]%float = Ok (1, 2, 1, 2)%float ∧
  Binary64.make_context 1 2 1 2 668 1 = Raise ZeroDivisionError.
Proof. split; by vm_compute. Qed.

Lemma to_R_small_integers :
  Binary64.to_R 0 = 0 ∧ Binary64.to_R 1 = 1 ∧ Binary64.to_R 7 = 7.
Proof. repeat split; float_value; lra. Qed.

Lemma nine_and_one_stats (a : R) (l : list R) :
  0 <= a → l = replicate 9 0 ++ [a] →
  mean l = a / 10 ∧ pstdev l = 3 * a / 10.
Proof.
  intros Ha ->.
  assert (Hm : mean (replicate 9 0 ++ [a]) = a / 10)
    by (unfold mean, total; simpl; lra).
  split; [done|]. apply pstdev_value; [done|lra|].
  rewrite Hm. unfold total. simpl. lra.
Qed.

Lemma nine_and_one_kept (k a : R) :
  0 <= a → 3 <= k →
  filter (within k (replicate 9 0 ++ [a])) (replicate 9 0 ++ [a])
  = replicate 9 0 ++ [a].
Proof.
  intros Ha Hk.
  destruct (nine_and_one_stats a _ Ha eq_refl) as [Hm Hs].
  assert (H0 : within k (replicate 9 0 ++ [a]) 0)
    by (unfold within; rewrite Hm, Hs; nra).
  assert (H1 : within k (replicate 9 0 ++ [a]) a)
    by (unfold within; rewrite Hm, Hs; nra).
  simpl in *. by rewrite !filter_cons_True, filter_nil.
Qed.

Lemma nine_and_one_extremes (a : R) :
  0 <= a → is_min 0 (replicate 9 0 ++ [a]) ∧ is_max a (replicate 9 0 ++ [a]).
Proof.
  intros Ha. simpl. split; (split; [repeat constructor|]);
    intros v Hv; repeat (apply elem_of_cons in Hv as [->|Hv]; [lra|]);
    by apply elem_of_nil in Hv.
Qed.

(** C2, as stated, fails in binary64.  On nine points (0, 0) and the point
    (1, 7) the box of the specification has its top at 7.14: the mean of
    the y is 0.7, their deviation 2.1, and 7 is the mean plus three
    deviations, within the range.  The code computes the deviation as
    2.0999999999999996, drops 7, and returns a box with top 0.  On the
    points (0, 1e-200) and (1, 3e-200) the squares of the deviations
    underflow, the deviation is 0, both y are dropped, and the code raises
    [ValueError] where the claim has a box. *)
Lemma calculate_bounds_leaves_the_spec_box :
  Binary64.calculate_bounds (replicate 9 (0, 0) ++ [(1, 7)])%float
  = Ok (-0.02, 0, 1.02, 0)%float ∧
  (λ p, (Binary64.to_R p.1, Binary64.to_R p.2))
    <$> (replicate 9 (0, 0) ++ [(1, 7)])%float
  = replicate 9 (0, 0) ++ [(1, 7)] ∧
  is_spec_box (replicate 9 (0, 0) ++ [(1, 7)])
    (-1 / 50, -7 / 50, 51 / 50, 357 / 50) ∧
  Binary64.calculate_bounds [(0, 1e-200); (1, 3e-200)]%float = Raise ValueError.
Proof.
  split; [by vm_compute|]. split; [|split; [|by vm_compute]].
  - destruct to_R_small_integers as (H0 & H1 & H7).
    cbn [replicate app fmap list_fmap fst snd]. by rewrite H0, H1, H7.
  - exists 0, 1, 0, 7.
    change ((replicate 9 (0, 0) ++ [(1, 7)]).*1) with (replicate 9 0 ++ [1]).
    change ((replicate 9 (0, 0) ++ [(1, 7)]).*2) with (replicate 9 0 ++ [7]).
    cbv zeta. rewrite !nine_and_one_kept by lra.
    destruct (nine_and_one_extremes 1 ltac:(lra)) as [? ?].
    destruct (nine_and_one_extremes 7 ltac:(lra)) as [? ?].
    do 4 (split; [done|]).
    apply pair_equal_spec; split; [apply pair_equal_spec; split;
      [apply pair_equal_spec; split|]|]; lra.
Qed.

(** C8, as stated, fails in binary64: on the points (1e-200, 0) and
    (3e-200, 1) the mean of the x is 2e-200, the squares of the two
    deviations underflow to 0, so the deviation is 0 and the range of the
    filter is the mean alone, which is neither x; [okay_xs] is empty and
    [min] raises [ValueError]. *)
Lemma filtered_sets_empty_in_binary64 :
  Binary64.stats [1e-200; 3e-200]%float = Ok (2e-200, 0)%float ∧
  Binary64.okay_xs [(1e-200, 0); (3e-200, 1)]%float
    (PrimFloat.sub 2e-200 (PrimFloat.mul 5 0))
    (PrimFloat.add 2e-200 (PrimFloat.mul 5 0)) = [] ∧
  Binary64.py_min [] = Raise ValueError ∧
  Binary64.calculate_bounds [(1e-200, 0); (3e-200, 1)]%float = Raise ValueError.
Proof. repeat split; by vm_compute. Qed.

(** C4, as stated, fails in binary64: at zoom 1, for the box from
    (-1e-9, 0) to (1, 1), the sum [xmin + EARTH_DIAMETER / 2] rounds to
    [EARTH_DIAMETER / 2], [mincol] is 1.0, and only column 1 is planned;
    the corner (-1e-9, 1) of the box lies west of the meridian, in tile
    (0, 0), which is not asked for. *)
Lemma sliver_tile_not_planned :
  Binary64.row_cols 1 (-1e-9) 0 1 1 = Ok [(0, 1); (1, 1)]%Z ∧
  tile_covers 1 0 0 (Binary64.to_R (-1e-9), Binary64.to_R 1) ∧
  (0, 0)%Z ∉ [(0, 1); (1, 1)]%Z.
Proof.
  split; [by vm_compute|]. split.
  - pose proof PI2_1 as Hpi.
    unfold tile_covers, tile_side, EARTH_DIAMETER. cbn [fst snd powerRZ].
    replace (2 ^ Pos.to_nat 1) with 2 by (simpl; lra).
    split; [done|]. split; [done|].
    split; float_value; split; lra.
  - rewrite !elem_of_cons, elem_of_nil. intros [[=]|[[=]|[]]].
Qed.

(** * Further properties of the module *)

(** ** How much the filters of [calculate_bounds] drop *)

(** The squared deviations of the values outside [P] add up to more than
    [c] each, when there is one. *)
Lemma total_outside (d : R → R) (c : R) (P : R → Prop) `{!∀ v, Decision (P v)}
    (l : list R) :
  (∀ v, 0 <= d v) → (∀ v, ¬ P v → c < d v) → 0 <= c →
  c * INR (length l - length (filter P l)) <= total (d <$> l) ∧
  ((length (filter P l) < length l)%nat →
   c * INR (length l - length (filter P l)) < total (d <$> l)).
Proof.
  intros Hd Hout Hc. induction l as [|v l [IH1 IH2]].
  - simpl. unfold total. simpl. split; [lra|lia].
  - pose proof (length_filter P l) as Hle.
    rewrite filter_cons. change (total (d <$> v :: l)) with (d v + total (d <$> l)).
    destruct (decide (P v)) as [Hv|Hv].
    + change (length (v :: filter P l)) with (S (length (filter P l))).
      change (length (v :: l)) with (S (length l)).
      replace (S (length l) - S (length (filter P l)))%nat
        with (length l - length (filter P l))%nat by lia.
      specialize (Hd v). split; [lra|]. intros Hlt.
      assert (length (filter P l) < length l)%nat as Hlt' by lia.
      specialize (IH2 Hlt'). lra.
    + change (length (v :: l)) with (S (length l)).
      replace (S (length l) - length (filter P l))%nat
        with (S (length l - length (filter P l))) by lia.
      rewrite S_INR. specialize (Hout v Hv). split; [nra|]. intros _. nra.
Qed.

(** Chebyshev's inequality for the filter: fewer than one value in [k * k]
    lies further than [k] standard deviations from the mean. *)
Lemma within_drops_few (k : R) (l : list R) :
  l ≠ [] → 0 < k →
  k * k * INR (length l - length (filter (within k l) l)) < INR (length l).
Proof.
  intros Hl Hk.
  pose proof (INR_length_pos l Hl) as Hn.
  pose proof (pstdev_nonneg l) as Hs.
  pose proof (length_filter (within k l) l) as Hle.
  destruct (decide (length (filter (within k l) l) = length l)) as [Heq|Hne].
  { rewrite Heq, Nat.sub_diag. simpl. lra. }
  assert (Hlt : (length (filter (within k l) l) < length l)%nat) by lia.
  destruct (total_outside (λ v, (v - mean l) * (v - mean l))
              (k * pstdev l * (k * pstdev l)) (within k l) l) as [_ Hstrict].
  - intros v. cbv beta. set (x := v - mean l). nra.
  - intros v Hv. cbv beta. unfold within in Hv.
    destruct (Rle_dec (mean l - k * pstdev l) v) as [H1|H1].
    + assert (k * pstdev l < v - mean l)
        by (destruct (Rle_dec v (mean l + k * pstdev l)); [tauto|lra]).
      assert (0 <= k * pstdev l) by nra. nra.
    + assert (k * pstdev l < mean l - v) by lra.
      assert (0 <= k * pstdev l) by nra. nra.
  - nra.
  - specialize (Hstrict Hlt). rewrite <- pstdev_sqr in Hstrict by done.
    set (m := INR (length l - length (filter (within k l) l))) in *.
    assert (Hm : 1 <= m).
    { unfold m. change 1 with (INR 1). apply le_INR. lia. }
    set (s := pstdev l) in *.
    assert (Hpos : 0 < s * s).
    { destruct (Req_dec s 0) as [Hz|Hz]; [rewrite Hz in Hstrict; lra|nra]. }
    assert (Hfac : (k * k * m) * (s * s) < INR (length l) * (s * s)) by lra.
    apply Rmult_lt_reg_r in Hfac; done.
Qed.

Lemma filter_all_length {A} (P : A → Prop) `{!∀ x, Decision (P x)} (l : list A) :
  length (filter P l) = length l → filter P l = l.
Proof.
  induction l as [|x l IH]; [done|]. rewrite filter_cons.
  pose proof (length_filter P l) as Hle.
  destruct (decide (P x)); simpl; intros Hlen; [|lia].
  f_equal. apply IH. lia.
Qed.

(** A list of at most [k * k] values loses none to the filter. *)
Lemma within_keeps_few (k : R) (l : list R) :
  l ≠ [] → 0 < k → INR (length l) <= k * k → filter (within k l) l = l.
Proof.
  intros Hl Hk Hlen. apply filter_all_length.
  pose proof (within_drops_few k l Hl Hk) as Hc.
  pose proof (length_filter (within k l) l) as Hle.
  destruct (decide (length (filter (within k l) l) = length l)) as [|Hd]; [done|].
  exfalso.
  assert (Hm : 1 <= INR (length l - length (filter (within k l) l))).
  { change 1 with (INR 1). apply le_INR. lia. }
  nra.
Qed.

Lemma stats_Ok_inv (l : list R) (m s : R) :
  stats l = Ok (m, s) → l ≠ [] ∧ m = mean l ∧ s = pstdev l.
Proof.
  destruct l as [|v l].
  { unfold stats, truediv. simpl. by destruct (decide (0 = 0)). }
  rewrite stats_eq by done. by intros [= <- <-].
Qed.

Lemma calculate_bounds_Ok_nonempty (points : list (R * R)) box :
  calculate_bounds points = Ok box → points ≠ [].
Proof. by destruct points. Qed.

(** X1: the two filters of [calculate_bounds] drop few points: fewer than
    one in 25 has its x further than 5 standard deviations from the mean x,
    and fewer than one in 9 has its y further than 3 standard deviations
    from the mean y. *)
Theorem bounds_filters_drop_few (points : list (R * R)) :
  points ≠ [] →
  ∃ xmean xsdev ymean ysdev,
    stats points.*1 = Ok (xmean, xsdev) ∧
    stats points.*2 = Ok (ymean, ysdev) ∧
    (25 * (length points
           - length (okay_xs points (xmean - 5 * xsdev)%R (xmean + 5 * xsdev)%R))
     < length points)%nat ∧
    (9 * (length points
          - length (okay_ys points (ymean - 3 * ysdev)%R (ymean + 3 * ysdev)%R))
     < length points)%nat.
Proof.
  intros Hne.
  exists (mean points.*1), (pstdev points.*1), (mean points.*2), (pstdev points.*2).
  split; [by apply stats_eq, fmap_nonempty|].
  split; [by apply stats_eq, fmap_nonempty|].
  rewrite okay_xs_within, okay_ys_within. split.
  - pose proof (within_drops_few 5 points.*1 (fmap_nonempty _ _ Hne)) as Hc.
    rewrite length_fmap in Hc. apply INR_lt. rewrite mult_INR.
    replace (INR 25) with (5 * 5) by (simpl; lra). apply Hc. lra.
  - pose proof (within_drops_few 3 points.*2 (fmap_nonempty _ _ Hne)) as Hc.
    rewrite length_fmap in Hc. apply INR_lt. rewrite mult_INR.
    replace (INR 9) with (3 * 3) by (simpl; lra). apply Hc. lra.
Qed.

Lemma bounds_filters_drop_few_witness :
  ∃ xmean xsdev ymean ysdev,
    stats [(0, 0); (3, 4)].*1 = Ok (xmean, xsdev) ∧
    stats [(0, 0); (3, 4)].*2 = Ok (ymean, ysdev) ∧
    (25 * (2 - length (okay_xs [(0, 0); (3, 4)]%R
                         (xmean - 5 * xsdev)%R (xmean + 5 * xsdev)%R)) < 2)%nat ∧
    (9 * (2 - length (okay_ys [(0, 0); (3, 4)]%R
                        (ymean - 3 * ysdev)%R (ymean + 3 * ysdev)%R)) < 2)%nat.
Proof. apply (bounds_filters_drop_few [(0, 0); (3, 4)]). done. Defined.

(** X2, with the arithmetic read as exact: with nine points or fewer
    nothing is dropped: the box is the extent
    of all the points, each side moved out by a fiftieth of the width or the
    height, and every point lies in it. *)
Theorem calculate_bounds_few_points (points : list (R * R)) :
  points ≠ [] → (length points ≤ 9)%nat →
  ∃ left bottom right top,
    is_min left points.*1 ∧ is_max right points.*1 ∧
    is_min bottom points.*2 ∧ is_max top points.*2 ∧
    calculate_bounds points
    = Ok (left - (right - left) / 50, bottom - (top - bottom) / 50,
          right + (right - left) / 50, top + (top - bottom) / 50) ∧
    ∀ p, p ∈ points →
      (left - (right - left) / 50 <= p.1 ∧ p.1 <= right + (right - left) / 50) ∧
      (bottom - (top - bottom) / 50 <= p.2 ∧ p.2 <= top + (top - bottom) / 50).
Proof.
  intros Hne Hlen.
  destruct (calculate_bounds_is_spec_box points Hne)
    as (box & Hbox & left & right & bottom & top & Hl & Hr & Hb & Ht & ->).
  assert (Hxs : filter (within 5 points.*1) points.*1 = points.*1).
  { apply within_keeps_few; [by apply fmap_nonempty|lra|].
    rewrite length_fmap. replace (5 * 5) with (INR 25) by (simpl; lra).
    apply le_INR. lia. }
  assert (Hys : filter (within 3 points.*2) points.*2 = points.*2).
  { apply within_keeps_few; [by apply fmap_nonempty|lra|].
    rewrite length_fmap. replace (3 * 3) with (INR 9) by (simpl; lra).
    by apply le_INR. }
  rewrite Hxs in Hl, Hr. rewrite Hys in Hb, Ht.
  exists left, bottom, right, top. do 4 (split; [done|]). split.
  - rewrite Hbox. f_equal. box_eq.
  - intros p Hp.
    assert (Hp1 : p.1 ∈ points.*1) by (apply list_elem_of_fmap; eauto).
    assert (Hp2 : p.2 ∈ points.*2) by (apply list_elem_of_fmap; eauto).
    destruct Hl as [Hl1 Hl2], Hr as [Hr1 Hr2], Hb as [Hb1 Hb2], Ht as [Ht1 Ht2].
    pose proof (Hl2 _ Hp1). pose proof (Hr2 _ Hp1).
    pose proof (Hb2 _ Hp2). pose proof (Ht2 _ Hp2).
    pose proof (Hl2 _ Hr1). pose proof (Hb2 _ Ht1).
    repeat split; lra.
Qed.

Lemma calculate_bounds_few_points_witness :
  ∃ left bottom right top,
    calculate_bounds [(0, 0); (3, 4)]
    = Ok (left - (right - left) / 50, bottom - (top - bottom) / 50,
          right + (right - left) / 50, top + (top - bottom) / 50) ∧
    ∀ p, p ∈ [(0, 0); (3, 4)] →
      (left - (right - left) / 50 <= p.1 ∧ p.1 <= right + (right - left) / 50) ∧
      (bottom - (top - bottom) / 50 <= p.2 ∧ p.2 <= top + (top - bottom) / 50).
Proof.
  destruct (calculate_bounds_few_points [(0, 0); (3, 4)])
    as (left & bottom & right & top & _ & _ & _ & _ & Hbox & Hin);
    [done|simpl; lia|].
  by exists left, bottom, right, top.
Defined.

(** X3: the box that [calculate_bounds] returns is never inside out, and it
    holds every x that passed the x filter and every y that passed the y
    filter: a point is off the canvas on an axis only if it was dropped as
    an outlier on that axis. *)
Theorem calculate_bounds_encloses (points : list (R * R))
    (left bottom right top xmean xsdev ymean ysdev : R) :
  calculate_bounds points = Ok (left, bottom, right, top) →
  stats points.*1 = Ok (xmean, xsdev) →
  stats points.*2 = Ok (ymean, ysdev) →
  left <= right ∧ bottom <= top ∧
  ∀ p, p ∈ points →
    (xmean - 5 * xsdev <= p.1 ∧ p.1 <= xmean + 5 * xsdev →
     left <= p.1 ∧ p.1 <= right) ∧
    (ymean - 3 * ysdev <= p.2 ∧ p.2 <= ymean + 3 * ysdev →
     bottom <= p.2 ∧ p.2 <= top).
Proof.
  intros Hbox Hsx Hsy.
  pose proof (calculate_bounds_Ok_nonempty _ _ Hbox) as Hne.
  apply stats_Ok_inv in Hsx as (_ & -> & ->).
  apply stats_Ok_inv in Hsy as (_ & -> & ->).
  destruct (calculate_bounds_is_spec_box points Hne)
    as (box & Hbox' & l & r & b & t & Hl & Hr & Hb & Ht & ->).
  rewrite Hbox in Hbox'. injection Hbox' as -> -> -> ->.
  destruct Hl as [Hl1 Hl2], Hr as [Hr1 Hr2], Hb as [Hb1 Hb2], Ht as [Ht1 Ht2].
  pose proof (Hl2 _ Hr1). pose proof (Hb2 _ Ht1).
  split; [lra|]. split; [lra|]. intros p Hp. split; intros Hw.
  - assert (Hk : p.1 ∈ filter (within 5 points.*1) points.*1).
    { apply list_elem_of_filter. split; [done|]. apply list_elem_of_fmap; eauto. }
    pose proof (Hl2 _ Hk). pose proof (Hr2 _ Hk). lra.
  - assert (Hk : p.2 ∈ filter (within 3 points.*2) points.*2).
    { apply list_elem_of_filter. split; [done|]. apply list_elem_of_fmap; eauto. }
    pose proof (Hb2 _ Hk). pose proof (Ht2 _ Hk). lra.
Qed.

Lemma calculate_bounds_encloses_witness :
  calculate_bounds [(0, 0); (3, 4)]
  = Ok (0 - (3 - 0) / 50, 0 - (4 - 0) / 50, 3 + (3 - 0) / 50, 4 + (4 - 0) / 50) ∧
  0 - (3 - 0) / 50 <= 3 + (3 - 0) / 50.
Proof.
  split; [apply calculate_bounds_pair; lra|].
  assert (Hbox := calculate_bounds_pair 0 0 3 4 ltac:(lra) ltac:(lra)).
  assert (Hsx := stats_eq [(0, 0); (3, 4)].*1 ltac:(by apply fmap_nonempty)).
  assert (Hsy := stats_eq [(0, 0); (3, 4)].*2 ltac:(by apply fmap_nonempty)).
  exact (proj1 (calculate_bounds_encloses _ _ _ _ _ _ _ _ _ Hbox Hsx Hsy)).
Defined.

(** ** The canvas *)

Lemma make_context_zero_width (left bottom top width resolution : R) :
  make_context left bottom left top width resolution = Raise ZeroDivisionError.
Proof.
  unfold make_context, truediv.
  destruct (decide (top - bottom = 0)) as [|Hh]; [done|].
  rewrite bind_Ok. cbv beta.
  destruct (decide ((left - left) / (top - bottom) = 0)) as [|Ha]; [done|].
  exfalso. apply Ha. unfold Rdiv. rewrite Rminus_diag. lra.
Qed.

(** X4, with the arithmetic read as exact: [make_context] raises
    [ZeroDivisionError] exactly on a box without
    a width or without a height, whatever the width and the resolution asked
    for: without a height the aspect cannot be computed, and without a width
    the aspect is 0 and the height in pixels cannot. *)
Theorem make_context_fails_iff (left bottom right top width resolution : R) :
  make_context left bottom right top width resolution = Raise ZeroDivisionError
  ↔ left = right ∨ bottom = top.
Proof.
  split.
  - intros Hraise.
    destruct (decide (left = right)) as [|Hw]; [by left|].
    destruct (decide (bottom = top)) as [|Hh]; [by right|].
    by rewrite make_context_ok in Hraise.
  - intros [->| ->]; [apply make_context_zero_width|apply make_context_degenerate].
Qed.

(** X5, with the arithmetic read as exact and cairo taking the size: on a
    box with [left < right] and [bottom < top], and a width of at
    least one pixel, [make_context] scales both axes by the same factor,
    turning the y axis over, and moves the top left corner of the box to
    the origin; the box is then as wide as the surface, and as high as the
    surface but for less than one pixel row, which [int] cuts off. *)
Theorem make_context_isotropic (left bottom right top width resolution : R) :
  left < right → bottom < top → 1 <= resolution * width →
  ∃ surface scale,
    make_context left bottom right top width resolution
    = Ok (surface, [Scale scale (- scale); Translate (- left) (- top)], scale) ∧
    0 < scale ∧
    scale * (right - left) = IZR (surface_width surface) ∧
    IZR (surface_height surface) <= scale * (top - bottom) ∧
    scale * (top - bottom) < IZR (surface_height surface) + 1.
Proof.
  intros Hw Hh Hrw.
  rewrite make_context_ok by lra. cbv zeta.
  set (hsize := py_int (resolution * width)).
  assert (Hhs : 1 <= IZR hsize).
  { unfold hsize. rewrite py_int_nonneg by lra.
    apply IZR_le. apply Int_part_ge. lra. }
  assert (Hq : IZR hsize / ((right - left) / (top - bottom))
               = IZR hsize / (right - left) * (top - bottom)) by (field; lra).
  eexists _, _. split.
  { f_equal. f_equal. f_equal. f_equal. f_equal. field. lra. }
  simpl.
  assert (Hs : 0 < IZR hsize / (right - left)).
  { apply Rdiv_lt_0_compat; lra. }
  split; [done|]. split; [field; lra|].
  assert (Hv : 0 <= IZR hsize / (right - left) * (top - bottom))
    by (apply Rmult_le_pos; lra).
  rewrite Hq, py_int_nonneg by done.
  pose proof (Int_part_bounds (IZR hsize / (right - left) * (top - bottom))).
  lra.
Qed.

Lemma make_context_isotropic_witness :
  ∃ surface scale,
    make_context 0 0 4 2 668 1
    = Ok (surface, [Scale scale (- scale); Translate (- 0) (- 2)], scale) ∧
    scale * (4 - 0) = IZR (surface_width surface).
Proof.
  destruct (make_context_isotropic 0 0 4 2 668 1)
    as (surface & scale & Hmake & _ & Hwidth & _); [lra..|].
  by exists surface, scale.
Defined.

(** X6, with the arithmetic read as exact: points that all have the same
    x, or all the same y, get a box
    without a width or without a height from [calculate_bounds], and
    [make_context] raises [ZeroDivisionError] on it, whatever the width and
    the resolution. *)
Theorem points_on_a_line_fail (points : list (R * R)) (c : R) :
  points ≠ [] →
  (∀ p, p ∈ points → p.1 = c) ∨ (∀ p, p ∈ points → p.2 = c) →
  ∃ left bottom right top,
    calculate_bounds points = Ok (left, bottom, right, top) ∧
    (left = right ∨ bottom = top) ∧
    ∀ width resolution,
      make_context left bottom right top width resolution
      = Raise ZeroDivisionError.
Proof.
  intros Hne Hline.
  destruct (calculate_bounds_is_spec_box points Hne)
    as (box & Hbox & l & r & b & t & Hl & Hr & Hb & Ht & ->).
  eexists _, _, _, _. split; [exact Hbox|].
  assert (Hdeg : l = r ∨ b = t).
  { destruct Hline as [Hx|Hy]; [left|right].
    - destruct Hl as [Hl _], Hr as [Hr _].
      apply list_elem_of_filter in Hl as [_ Hl], Hr as [_ Hr].
      apply list_elem_of_fmap in Hl as (p & -> & Hp), Hr as (q & -> & Hq).
      by rewrite (Hx p), (Hx q).
    - destruct Hb as [Hb _], Ht as [Ht _].
      apply list_elem_of_filter in Hb as [_ Hb], Ht as [_ Ht].
      apply list_elem_of_fmap in Hb as (p & -> & Hp), Ht as (q & -> & Hq).
      by rewrite (Hy p), (Hy q). }
  assert (Hdeg' : l - 2 / 100 * (r - l) = r + 2 / 100 * (r - l) ∨
                  b - 2 / 100 * (t - b) = t + 2 / 100 * (t - b)).
  { destruct Hdeg as [->| ->]; [left|right]; lra. }
  split; [done|]. intros width resolution.
  destruct Hdeg' as [->| ->];
    [apply make_context_zero_width|apply make_context_degenerate].
Qed.

Lemma points_on_a_line_fail_witness :
  ∃ left bottom right top,
    calculate_bounds [(7, 0); (7, 1); (7, 5)] = Ok (left, bottom, right, top) ∧
    make_context left bottom right top 668 1 = Raise ZeroDivisionError.
Proof.
  destruct (points_on_a_line_fail [(7, 0); (7, 1); (7, 5)] 7)
    as (left & bottom & right & top & Hbox & _ & Hmake); [done| |].
  - left. intros p Hp. repeat (apply elem_of_cons in Hp as [->|Hp]; [done|]).
    by apply elem_of_nil in Hp.
  - exists left, bottom, right, top. split; [done|apply Hmake].
Defined.

(** ** Mean and standard deviation *)

Lemma total_between (l : list R) (lo hi : R) :
  (∀ v, v ∈ l → lo <= v ∧ v <= hi) →
  INR (length l) * lo <= total l ∧ total l <= INR (length l) * hi.
Proof.
  induction l as [|x l IH]; intros Hall.
  { unfold total. simpl. lra. }
  destruct IH as [IH1 IH2]; [intros v Hv; apply Hall; by right|].
  destruct (Hall x ltac:(by left)).
  change (length (x :: l)) with (S (length l)). rewrite S_INR.
  change (total (x :: l)) with (x + total l). lra.
Qed.

Lemma mean_between (l : list R) (lo hi : R) :
  l ≠ [] → (∀ v, v ∈ l → lo <= v ∧ v <= hi) → lo <= mean l ∧ mean l <= hi.
Proof.
  intros Hne Hall. pose proof (INR_length_pos l Hne) as Hn.
  destruct (total_between l lo hi Hall) as [H1 H2]. unfold mean. split.
  - apply div_ge; [done|lra].
  - apply (Rmult_le_reg_r (INR (length l))); [done|].
    unfold Rdiv. rewrite Rmult_assoc, Rinv_l by lra. lra.
Qed.

Lemma total_squares_zero (l : list R) (m : R) :
  total ((λ v, (v - m) * (v - m)) <$> l) = 0 ↔ ∀ v, v ∈ l → v = m.
Proof.
  induction l as [|x l IH].
  { split; [|done]. intros _ v Hv. by apply elem_of_nil in Hv. }
  change (total ((λ v, (v - m) * (v - m)) <$> x :: l))
    with ((x - m) * (x - m) + total ((λ v, (v - m) * (v - m)) <$> l)).
  pose proof (total_squares_nonneg l m) as Hpos.
  assert (Hx : 0 <= (x - m) * (x - m)) by (set (d := x - m); nra).
  split.
  - intros Hsum v Hv.
    assert (Hx0 : (x - m) * (x - m) = 0) by lra.
    apply elem_of_cons in Hv as [->|Hv].
    + apply Rmult_integral in Hx0. lra.
    + apply IH; [lra|done].
  - intros Hall. rewrite (proj2 IH) by (intros v Hv; apply Hall; by right).
    rewrite (Hall x) by (by left). lra.
Qed.

(** X7, with the arithmetic read as exact: [stats] raises only on the
    empty list, and then
    [ZeroDivisionError]; on any other list it returns a mean that lies
    between any two bounds of the values and a standard deviation that is
    not negative and not more than the distance between the bounds, and the
    deviation is 0 exactly when all the values are the same. *)
Theorem stats_properties :
  stats [] = Raise ZeroDivisionError ∧
  (∀ values, values ≠ [] → is_Ok (stats values)) ∧
  (∀ values m s,
     stats values = Ok (m, s) →
     0 <= s ∧
     (∀ lo hi, (∀ v, v ∈ values → lo <= v ∧ v <= hi) →
               lo <= m ∧ m <= hi ∧ s <= hi - lo) ∧
     (s = 0 ↔ ∀ v, v ∈ values → v = m)).
Proof.
  split; [|split].
  - unfold stats, truediv. simpl. by destruct (decide (0 = 0)).
  - intros values Hne. rewrite stats_eq by done. by eexists.
  - intros values m s Hstats.
    apply stats_Ok_inv in Hstats as (Hne & -> & ->).
    pose proof (INR_length_pos values Hne) as Hn.
    pose proof (variance_nonneg values Hne) as Hvar.
    split; [apply pstdev_nonneg|]. split.
    + intros lo hi Hall.
      destruct (mean_between values lo hi Hne Hall) as [Hlo Hhi].
      split; [done|]. split; [done|].
      assert (Hd : 0 <= hi - lo) by lra.
      rewrite <- (sqrt_square (hi - lo)) by done. unfold pstdev.
      apply sqrt_le_1_alt.
      apply (Rmult_le_reg_r (INR (length values))); [done|].
      unfold Rdiv. rewrite Rmult_assoc, Rinv_l, Rmult_1_r by lra.
      destruct (total_between
                  ((λ v, (v - mean values) * (v - mean values)) <$> values)
                  0 ((hi - lo) * (hi - lo))) as [_ Hup].
      { intros sq (v & -> & Hv)%list_elem_of_fmap.
        destruct (Hall v Hv). set (d := v - mean values).
        assert (- (hi - lo) <= d ∧ d <= hi - lo) as [? ?] by (unfold d; lra).
        split; nra. }
      rewrite length_fmap in Hup. lra.
    + split.
      * intros Hs. apply total_squares_zero.
        apply sqrt_eq_0 in Hs; [|done].
        apply (Rmult_eq_compat_r (INR (length values))) in Hs.
        unfold Rdiv in Hs. rewrite Rmult_assoc, Rinv_l in Hs by lra. lra.
      * intros Hall. unfold pstdev.
        rewrite (proj2 (total_squares_zero values (mean values)) Hall).
        unfold Rdiv. rewrite Rmult_0_l. apply sqrt_0.
Qed.

(** ** A box with a width and a height *)

Lemma extent_zero_iff (kept : list R) (lo hi : R) :
  is_min lo kept → is_max hi kept →
  (lo - 2 / 100 * (hi - lo) = hi + 2 / 100 * (hi - lo)
   ↔ ∀ v v', v ∈ kept → v' ∈ kept → v = v').
Proof.
  intros [Hlo1 Hlo2] [Hhi1 Hhi2]. pose proof (Hlo2 _ Hhi1). split.
  - intros Heq v v' Hv Hv'.
    pose proof (Hlo2 _ Hv). pose proof (Hhi2 _ Hv).
    pose proof (Hlo2 _ Hv'). pose proof (Hhi2 _ Hv'). lra.
  - intros Hall. rewrite (Hall lo hi) by done. lra.
Qed.

(** X8: the box of [calculate_bounds] has no width exactly when all the
    x that pass the x filter are the same, and no height exactly when all
    the y that pass the y filter are the same; so points that differ only
    in what the filters drop still give a box without extent. *)
Theorem box_has_extent_iff (points : list (R * R))
    (left bottom right top xmean xsdev ymean ysdev : R) :
  calculate_bounds points = Ok (left, bottom, right, top) →
  stats points.*1 = Ok (xmean, xsdev) →
  stats points.*2 = Ok (ymean, ysdev) →
  (left = right
   ↔ ∀ p q, p ∈ points → q ∈ points →
       xmean - 5 * xsdev <= p.1 ∧ p.1 <= xmean + 5 * xsdev →
       xmean - 5 * xsdev <= q.1 ∧ q.1 <= xmean + 5 * xsdev →
       p.1 = q.1) ∧
  (bottom = top
   ↔ ∀ p q, p ∈ points → q ∈ points →
       ymean - 3 * ysdev <= p.2 ∧ p.2 <= ymean + 3 * ysdev →
       ymean - 3 * ysdev <= q.2 ∧ q.2 <= ymean + 3 * ysdev →
       p.2 = q.2).
Proof.
  intros Hbox Hsx Hsy.
  pose proof (calculate_bounds_Ok_nonempty _ _ Hbox) as Hne.
  apply stats_Ok_inv in Hsx as (_ & -> & ->).
  apply stats_Ok_inv in Hsy as (_ & -> & ->).
  destruct (calculate_bounds_is_spec_box points Hne)
    as (box & Hbox' & l & r & b & t & Hl & Hr & Hb & Ht & ->).
  rewrite Hbox in Hbox'. injection Hbox' as -> -> -> ->.
  split.
  - rewrite (extent_zero_iff _ _ _ Hl Hr). split.
    + intros Hall p q Hp Hq Hwp Hwq.
      apply Hall; apply list_elem_of_filter; (split; [done|]);
        apply list_elem_of_fmap; eauto.
    + intros Hall v v' Hv Hv'.
      apply list_elem_of_filter in Hv as [Hwv Hv], Hv' as [Hwv' Hv'].
      apply list_elem_of_fmap in Hv as (p & -> & Hp), Hv' as (q & -> & Hq).
      by apply Hall.
  - rewrite (extent_zero_iff _ _ _ Hb Ht). split.
    + intros Hall p q Hp Hq Hwp Hwq.
      apply Hall; apply list_elem_of_filter; (split; [done|]);
        apply list_elem_of_fmap; eauto.
    + intros Hall v v' Hv Hv'.
      apply list_elem_of_filter in Hv as [Hwv Hv], Hv' as [Hwv' Hv'].
      apply list_elem_of_fmap in Hv as (p & -> & Hp), Hv' as (q & -> & Hq).
      by apply Hall.
Qed.

Lemma box_has_extent_iff_witness :
  calculate_bounds [(0, 0); (3, 4)]
  = Ok (0 - (3 - 0) / 50, 0 - (4 - 0) / 50, 3 + (3 - 0) / 50, 4 + (4 - 0) / 50) ∧
  (0 - (3 - 0) / 50 = 3 + (3 - 0) / 50
   ↔ ∀ p q, p ∈ [(0, 0); (3, 4)] → q ∈ [(0, 0); (3, 4)] →
       mean [(0, 0); (3, 4)].*1 - 5 * pstdev [(0, 0); (3, 4)].*1 <= p.1 ∧
       p.1 <= mean [(0, 0); (3, 4)].*1 + 5 * pstdev [(0, 0); (3, 4)].*1 →
       mean [(0, 0); (3, 4)].*1 - 5 * pstdev [(0, 0); (3, 4)].*1 <= q.1 ∧
       q.1 <= mean [(0, 0); (3, 4)].*1 + 5 * pstdev [(0, 0); (3, 4)].*1 →
       p.1 = q.1).
Proof.
  assert (Hbox := calculate_bounds_pair 0 0 3 4 ltac:(lra) ltac:(lra)).
  assert (Hsx := stats_eq [(0, 0); (3, 4)].*1 ltac:(by apply fmap_nonempty)).
  assert (Hsy := stats_eq [(0, 0); (3, 4)].*2 ltac:(by apply fmap_nonempty)).
  split; [exact Hbox|].
  exact (proj1 (box_has_extent_iff _ _ _ _ _ _ _ _ _ Hbox Hsx Hsy)).
Defined.

(** ** The zoom *)

Lemma truediv_zero (a b : R) : b = 0 → truediv a b = Raise ZeroDivisionError.
Proof. intros Hb. unfold truediv. by destruct (decide (b = 0)). Qed.

Lemma scale_at_zero_ok (resolution : R) :
  truediv (resolution * 256) EARTH_DIAMETER = Ok (resolution * 256 / EARTH_DIAMETER).
Proof. apply truediv_ok. pose proof EARTH_DIAMETER_pos. lra. Qed.

Lemma scale_at_zero_eq_0 (resolution : R) :
  resolution * 256 / EARTH_DIAMETER = 0 ↔ resolution = 0.
Proof.
  pose proof EARTH_DIAMETER_pos as HE. split.
  - intros Hz. apply (Rmult_eq_compat_r EARTH_DIAMETER) in Hz.
    unfold Rdiv in Hz. rewrite Rmult_assoc, Rinv_l in Hz by lra. lra.
  - intros ->. unfold Rdiv. lra.
Qed.

Lemma ratio_eq (scale resolution : R) :
  resolution ≠ 0 →
  scale / (resolution * 256 / EARTH_DIAMETER)
  = scale / resolution * (EARTH_DIAMETER / 256).
Proof. intros Hr. pose proof EARTH_DIAMETER_pos. field. lra. Qed.

(** The steps of [calculate_zoom] on a resolution that is not zero. *)
Lemma calculate_zoom_unfold (scale resolution : R) :
  resolution ≠ 0 →
  calculate_zoom scale resolution
  = num ← math_log (scale / resolution * (EARTH_DIAMETER / 256));
    Ok (num / ln 2).
Proof.
  intros Hr. unfold calculate_zoom.
  rewrite scale_at_zero_ok, bind_Ok.
  rewrite truediv_ok by by rewrite scale_at_zero_eq_0.
  rewrite bind_Ok, ratio_eq by done.
  destruct (math_log (scale / resolution * (EARTH_DIAMETER / 256)))
    as [num|e]; [|by rewrite !bind_Raise].
  rewrite !bind_Ok. pose proof ln_2_pos as H2. unfold math_log.
  destruct (decide (2 <= 0)) as [|_]; [lra|]. rewrite bind_Ok.
  apply truediv_ok. lra.
Qed.

Lemma calculate_zoom_zero_resolution (scale : R) :
  calculate_zoom scale 0 = Raise ZeroDivisionError.
Proof.
  unfold calculate_zoom. rewrite scale_at_zero_ok, bind_Ok.
  by rewrite truediv_zero by by apply scale_at_zero_eq_0.
Qed.

Lemma calculate_zoom_not_positive (scale resolution : R) :
  resolution ≠ 0 → scale / resolution <= 0 →
  calculate_zoom scale resolution = Raise ValueError.
Proof.
  intros Hr Hneg. pose proof EARTH_DIAMETER_pos as HE.
  rewrite calculate_zoom_unfold by done. unfold math_log.
  destruct (decide (scale / resolution * (EARTH_DIAMETER / 256) <= 0))
    as [|Hpos]; [done|].
  exfalso. apply Hpos.
  assert (0 < EARTH_DIAMETER / 256) by (apply Rdiv_lt_0_compat; lra). nra.
Qed.

Lemma calculate_zoom_positive (scale resolution : R) :
  0 < scale / resolution →
  ∃ z, calculate_zoom scale resolution = Ok z ∧
       Rpower 2 z * (256 * resolution) = scale * EARTH_DIAMETER.
Proof.
  intros Hpos. pose proof EARTH_DIAMETER_pos as HE.
  assert (Hr : resolution ≠ 0).
  { intros ->. unfold Rdiv in Hpos. rewrite Rinv_0 in Hpos. lra. }
  assert (Hq : 0 < scale / resolution * (EARTH_DIAMETER / 256)).
  { apply Rmult_lt_0_compat; [done|]. apply Rdiv_lt_0_compat; lra. }
  rewrite calculate_zoom_unfold by done. unfold math_log.
  destruct (decide (scale / resolution * (EARTH_DIAMETER / 256) <= 0));
    [lra|].
  rewrite bind_Ok. eexists. split; [done|].
  unfold Rpower. pose proof ln_2_pos.
  replace (ln (scale / resolution * (EARTH_DIAMETER / 256)) / ln 2 * ln 2)
    with (ln (scale / resolution * (EARTH_DIAMETER / 256))) by (field; lra).
  rewrite exp_ln by done. field. done.
Qed.

(** X9, with the arithmetic read as exact: [calculate_zoom] raises
    [ZeroDivisionError] on resolution 0 and
    [ValueError] when scale and resolution have different signs or the scale
    is 0; otherwise it returns the zoom [z] at which the world, 256 pixels
    wide at zoom 0 and doubling with each level, is drawn at the given
    scale: [2^z * 256 * resolution = scale * EARTH_DIAMETER]. *)
Theorem calculate_zoom_cases (scale resolution : R) :
  (resolution = 0 → calculate_zoom scale resolution = Raise ZeroDivisionError) ∧
  (resolution ≠ 0 → scale / resolution <= 0 →
   calculate_zoom scale resolution = Raise ValueError) ∧
  (0 < scale / resolution →
   ∃ z, calculate_zoom scale resolution = Ok z ∧
        Rpower 2 z * (256 * resolution) = scale * EARTH_DIAMETER).
Proof.
  split; [|split].
  - intros ->. apply calculate_zoom_zero_resolution.
  - apply calculate_zoom_not_positive.
  - apply calculate_zoom_positive.
Qed.

(** X10, with the arithmetic read as exact: the zoom depends on the scale
    per unit of resolution only:
    multiplying both by the same factor, zero apart, leaves a zoom as it
    is; doubling the scale alone is one zoom level more, and doubling the
    resolution alone is one less. *)
Theorem calculate_zoom_doubling (scale resolution z : R) :
  calculate_zoom scale resolution = Ok z →
  calculate_zoom (2 * scale) resolution = Ok (z + 1) ∧
  calculate_zoom scale (2 * resolution) = Ok (z - 1) ∧
  ∀ k, k ≠ 0 → calculate_zoom (k * scale) (k * resolution) = Ok z.
Proof.
  intros Hz. pose proof ln_2_pos as H2.
  destruct (decide (resolution = 0)) as [->|Hr].
  { by rewrite calculate_zoom_zero_resolution in Hz. }
  rewrite calculate_zoom_unfold in Hz by done.
  apply bind_Ok_inv in Hz as (num & Hnum & [= <-]).
  unfold math_log in Hnum.
  destruct (decide (scale / resolution * (EARTH_DIAMETER / 256) <= 0))
    as [|Hpos]; [done|].
  injection Hnum as <-. apply Rnot_le_lt in Hpos.
  split; [|split].
  - rewrite calculate_zoom_unfold by done.
    replace (2 * scale / resolution * (EARTH_DIAMETER / 256))
      with (2 * (scale / resolution * (EARTH_DIAMETER / 256))) by (field; done).
    unfold math_log.
    destruct (decide (2 * (scale / resolution * (EARTH_DIAMETER / 256)) <= 0));
      [lra|].
    rewrite bind_Ok, ln_mult by lra. f_equal. field. lra.
  - rewrite calculate_zoom_unfold by lra.
    replace (scale / (2 * resolution) * (EARTH_DIAMETER / 256))
      with (/ 2 * (scale / resolution * (EARTH_DIAMETER / 256))) by (field; done).
    unfold math_log.
    destruct (decide (/ 2 * (scale / resolution * (EARTH_DIAMETER / 256)) <= 0));
      [lra|].
    rewrite bind_Ok, ln_mult, ln_Rinv by lra. f_equal. field. lra.
  - intros k Hk.
    rewrite calculate_zoom_unfold by (by apply Rmult_integral_contrapositive).
    replace (k * scale / (k * resolution)) with (scale / resolution)
      by (field; done).
    unfold math_log.
    destruct (decide (scale / resolution * (EARTH_DIAMETER / 256) <= 0)); [lra|].
    by rewrite bind_Ok.
Qed.

Lemma calculate_zoom_doubling_witness :
  ∃ z, calculate_zoom 1 1 = Ok z ∧ calculate_zoom (2 * 1) 1 = Ok (z + 1).
Proof.
  destruct (calculate_zoom_ok 1 1) as [z Hz]; [lra..|].
  exists z. split; [done|]. by apply (calculate_zoom_doubling 1 1 z).
Defined.

(** ** How many tiles are asked for *)






Lemma py_round_near (x : R) :
  IZR (py_round x) <= x + 1 / 2 ∧ x - 1 / 2 <= IZR (py_round x).
Proof.
  unfold py_round. pose proof (Int_part_bounds x) as [H1 H2].
  destruct (decide (x - IZR (Int_part x) < 1 / 2)); [lra|].
  destruct (decide (1 / 2 < x - IZR (Int_part x))); [rewrite plus_IZR; lra|].
  destruct (Z.even (Int_part x)); [lra|rewrite plus_IZR; lra].
Qed.

(** The power of two of the rounded zoom against that of the zoom. *)
Lemma powerRZ_round_le (z : R) :
  powerRZ 2 (py_round z) <= sqrt 2 * Rpower 2 z.
Proof.
  rewrite powerRZ_Rpower by lra.
  replace (sqrt 2 * Rpower 2 z) with (Rpower 2 (z + / 2))
    by (rewrite Rpower_plus, Rpower_sqrt by lra; lra).
  apply Rle_Rpower; [lra|]. destruct (py_round_near z). lra.
Qed.



(** ** Resolution *)

Lemma calculate_zoom_scale_free (k scale resolution : R) :
  k ≠ 0 →
  calculate_zoom (k * scale) (k * resolution) = calculate_zoom scale resolution.
Proof.
  intros Hk. destruct (decide (resolution = 0)) as [->|Hr].
  - rewrite Rmult_0_r. unfold calculate_zoom.
    rewrite scale_at_zero_ok, !bind_Ok.
    by rewrite !truediv_zero by by apply scale_at_zero_eq_0.
  - rewrite !calculate_zoom_unfold by (by try apply Rmult_integral_contrapositive).
    by replace (k * scale / (k * resolution)) with (scale / resolution)
      by (field; done).
Qed.

Lemma Int_part_scale (m : Z) (v : R) (h : Z) :
  (0 < m)%Z → IZR h <= v → v < IZR h + 1 →
  (m * h ≤ Int_part (IZR m * v) < m * (h + 1))%Z.
Proof.
  intros Hm H1 H2. assert (0 < IZR m) by (by apply IZR_lt).
  split.
  - apply Int_part_ge. rewrite mult_IZR. by apply Rmult_le_compat_l; [lra|].
  - apply Int_part_lt. rewrite mult_IZR, plus_IZR. by apply Rmult_lt_compat_l.
Qed.

(** X12, with the arithmetic read as exact: drawing at resolution [M]
    instead of 1 asks for the same tiles:
    the surface is [M] times as wide and the scale [M] times as large, the
    height is [M] times the height at resolution 1 plus less than [M]
    pixels, and the zoom, the whole of [get_map_features] and the map units
    per reference pixel are as at resolution 1. *)
Theorem resolution_keeps_the_map (xmin ymin xmax ymax : R) (W M : Z)
    (mapzen_key : option string) `{Externals} :
  xmin < xmax → ymin < ymax → (0 < W)%Z → (0 < M)%Z →
  ∃ surface1 context1 scale1 surfaceM contextM scaleM,
    make_context xmin ymin xmax ymax (IZR W) 1 = Ok (surface1, context1, scale1) ∧
    make_context xmin ymin xmax ymax (IZR W) (IZR M)
    = Ok (surfaceM, contextM, scaleM) ∧
    surface_width surfaceM = (M * surface_width surface1)%Z ∧
    (M * surface_height surface1 ≤ surface_height surfaceM
     < M * (surface_height surface1 + 1))%Z ∧
    scaleM = IZR M * scale1 ∧
    calculate_zoom scaleM (IZR M) = calculate_zoom scale1 1 ∧
    get_map_features xmin ymin xmax ymax (IZR M) scaleM mapzen_key
    = get_map_features xmin ymin xmax ymax 1 scale1 mapzen_key ∧
    truediv (IZR M) scaleM = truediv 1 scale1.
Proof.
  intros Hx Hy HW HM.
  assert (HMr : 0 < IZR M) by (by apply IZR_lt).
  assert (HWr : 0 < IZR W) by (by apply IZR_lt).
  rewrite !make_context_ok by lra. cbv zeta.
  replace (1 * IZR W) with (IZR W) by lra.
  rewrite <- mult_IZR, !py_int_IZR.
  eexists _, _, _, _, _, _. split; [done|]. split; [done|]. simpl.
  split; [done|].
  set (v := IZR W / ((xmax - xmin) / (ymax - ymin))).
  assert (Hv : v = IZR W / (xmax - xmin) * (ymax - ymin))
    by (unfold v; field; lra).
  assert (Hv0 : 0 <= v).
  { rewrite Hv. apply Rmult_le_pos; [|lra]. apply Rmult_le_pos; [lra|].
    apply Rlt_le, Rinv_0_lt_compat. lra. }
  assert (HvM : IZR (M * W) / ((xmax - xmin) / (ymax - ymin)) = IZR M * v)
    by (unfold v; rewrite mult_IZR; field; lra).
  assert (Hscale : IZR (M * W) / (xmax - xmin) = IZR M * (IZR W / (xmax - xmin)))
    by (rewrite mult_IZR; field; lra).
  split.
  { rewrite HvM, !py_int_nonneg by first [lra|apply Rmult_le_pos; lra].
    apply Int_part_scale; [done|apply Int_part_bounds..]. }
  split; [done|]. rewrite Hscale.
  assert (Hzoom : calculate_zoom (IZR M * (IZR W / (xmax - xmin))) (IZR M)
                  = calculate_zoom (IZR W / (xmax - xmin)) 1).
  { rewrite <- (calculate_zoom_scale_free (IZR M) _ 1) by lra.
    by rewrite Rmult_1_r. }
  split; [done|]. split.
  { unfold get_map_features. by rewrite Hzoom. }
  unfold truediv.
  destruct (decide (IZR W / (xmax - xmin) = 0)) as [Hz|Hz].
  - rewrite Hz, Rmult_0_r. by destruct (decide (0 = 0)).
  - destruct (decide (IZR M * (IZR W / (xmax - xmin)) = 0)) as [Hz'|_].
    + apply Rmult_integral in Hz' as [?|?]; [lra|done].
    + f_equal. field. repeat split; lra.
Qed.

Lemma resolution_keeps_the_map_witness :
  ∃ surface1 context1 scale1 surfaceM contextM scaleM,
    make_context 0 0 4 2 (IZR 668) 1 = Ok (surface1, context1, scale1) ∧
    make_context 0 0 4 2 (IZR 668) (IZR 2) = Ok (surfaceM, contextM, scaleM) ∧
    surface_width surfaceM = (2 * surface_width surface1)%Z ∧
    get_map_features (H := demo_env empty_tile) 0 0 4 2 (IZR 2) scaleM None
    = get_map_features (H := demo_env empty_tile) 0 0 4 2 1 scale1 None.
Proof.
  destruct (resolution_keeps_the_map 0 0 4 2 668 2 None (H := demo_env empty_tile))
    as (s1 & c1 & k1 & sM & cM & kM & H1 & HM & Hw & _ & _ & _ & Hget & _);
    [lra|lra|lia|lia|].
  by exists s1, c1, k1, sM, cM, kM.
Defined.

(** ** Seven decimals *)

Lemma fmt7_near (x : R) :
  ∃ n : Z, fmt7 x = IZR n / 10 ^ 7 ∧ Rabs (IZR n / 10 ^ 7 - x) <= 5 / 10 ^ 8.
Proof.
  exists (py_round (x * 10 ^ 7)). split; [done|].
  destruct (py_round_near (x * 10 ^ 7)) as [Hhi Hlo].
  assert (Hp : 10 ^ 7 = 10000000) by (simpl; lra).
  assert (Hq : 10 ^ 8 = 100000000) by (simpl; lra).
  rewrite Hp, Hq in *. apply Rabs_le. split.
  - apply (Rmult_le_reg_r 10000000); [lra|].
    replace ((IZR (py_round (x * 10000000)) / 10000000 - x) * 10000000)
      with (IZR (py_round (x * 10000000)) - x * 10000000) by (field; lra).
    lra.
  - apply (Rmult_le_reg_r 10000000); [lra|].
    replace ((IZR (py_round (x * 10000000)) / 10000000 - x) * 10000000)
      with (IZR (py_round (x * 10000000)) - x * 10000000) by (field; lra).
    lra.
Qed.

Lemma fmt7_fixed (n : Z) : fmt7 (IZR n / 10 ^ 7) = IZR n / 10 ^ 7.
Proof.
  unfold fmt7.
  replace (IZR n / 10 ^ 7 * 10 ^ 7) with (IZR n)
    by (field; try (apply pow_nonzero; lra)).
  by rewrite py_round_IZR.
Qed.

Section seven.
Context `{Externals}.

Lemma project_points_fmap (lonlats : list (R * R)) :
  project_points lonlats = (λ p, project (fmt7 p.1, fmt7 p.2)) <$> lonlats.
Proof.
  unfold project_points. apply list_fmap_ext. intros i [lon lat] _.
  cbn [Transform GetX GetY fst snd]. by destruct (project (fmt7 lon, fmt7 lat)).
Qed.

(** X13: [project_points] gives one projected point for each point of its
    input, in the same order; what is projected is the point with both
    coordinates rounded to seven decimals, which moves a coordinate by at
    most 0.00000005, and a coordinate of at most seven decimals goes in as
    it is. *)
Theorem project_points_rounds (lonlats : list (R * R)) :
  length (project_points lonlats) = length lonlats ∧
  (∀ i lon lat,
     lonlats !! i = Some (lon, lat) →
     ∃ n m : Z,
       project_points lonlats !! i
       = Some (project (IZR n / 10 ^ 7, IZR m / 10 ^ 7)) ∧
       Rabs (IZR n / 10 ^ 7 - lon) <= 5 / 10 ^ 8 ∧
       Rabs (IZR m / 10 ^ 7 - lat) <= 5 / 10 ^ 8) ∧
  (∀ n m : Z,
     project_points [(IZR n / 10 ^ 7, IZR m / 10 ^ 7)]
     = [project (IZR n / 10 ^ 7, IZR m / 10 ^ 7)]).
Proof.
  split; [|split].
  - unfold project_points. by rewrite length_fmap.
  - intros i lon lat Hi.
    destruct (fmt7_near lon) as (n & Hn & Hnear).
    destruct (fmt7_near lat) as (m & Hm & Hmear).
    exists n, m. split; [|done].
    rewrite project_points_fmap, list_lookup_fmap, Hi.
    cbn [fmap option_fmap option_map fst snd]. by rewrite Hn, Hm.
  - intros n m. rewrite project_points_fmap.
    cbn [fmap list_fmap fst snd]. by rewrite !fmt7_fixed.
Qed.

End seven.

(** ** Renders that end before the tiles *)

Section early.
Context `{Externals}.

Lemma render_iterate_raise filename_or_url png_filename width resolution mapzen_key
    (w w1 : list event) src_filename (e : exn) :
  get_local_filename filename_or_url w = (Ok src_filename, w1) →
  iterate_file_points src_filename = Raise e →
  render filename_or_url png_filename width resolution mapzen_key w = (Raise e, w1).
Proof.
  intros Hsrc Hiter. unfold render.
  by rewrite (bindM_run_Ok _ _ _ _ _ Hsrc), Hiter, bindM_lift_Raise.
Qed.

Lemma render_bounds_raise filename_or_url png_filename width resolution mapzen_key
    (w w1 : list event) src_filename lonlats (e : exn) :
  get_local_filename filename_or_url w = (Ok src_filename, w1) →
  iterate_file_points src_filename = Ok lonlats →
  calculate_bounds (project_points lonlats) = Raise e →
  render filename_or_url png_filename width resolution mapzen_key w = (Raise e, w1).
Proof.
  intros Hsrc Hiter Hbounds. unfold render.
  by rewrite (bindM_run_Ok _ _ _ _ _ Hsrc), Hiter, bindM_lift_Ok, Hbounds,
    bindM_lift_Raise.
Qed.

Lemma render_context_raise filename_or_url png_filename width resolution mapzen_key
    (w w1 : list event) src_filename lonlats xmin ymin xmax ymax (e : exn) :
  get_local_filename filename_or_url w = (Ok src_filename, w1) →
  iterate_file_points src_filename = Ok lonlats →
  calculate_bounds (project_points lonlats) = Ok (xmin, ymin, xmax, ymax) →
  make_context xmin ymin xmax ymax width resolution = Raise e →
  render filename_or_url png_filename width resolution mapzen_key w = (Raise e, w1).
Proof.
  intros Hsrc Hiter Hbounds Hmake. unfold render.
  rewrite (bindM_run_Ok _ _ _ _ _ Hsrc), Hiter, bindM_lift_Ok, Hbounds,
    bindM_lift_Ok.
  cbv beta iota. by rewrite Hmake, bindM_lift_Raise.
Qed.

(** X14: a CSV file without a single valid row, so also an empty one or
    one without the LON and LAT columns, ends the render in [ValueError],
    raised by [calculate_bounds] on the empty list; once the source is
    there, nothing is asked of the tile server and no picture is written. *)
Theorem render_without_valid_rows filename_or_url png_filename width resolution
    mapzen_key (w w1 : list event) src_filename (rows : list Row) :
  get_local_filename filename_or_url w = (Ok src_filename, w1) →
  str_lower (splitext src_filename).2 = ".csv" →
  read_csv src_filename = Ok rows →
  Forall (λ row, valid_point row = None) rows →
  iterate_file_points src_filename = Ok [] ∧
  render filename_or_url png_filename width resolution mapzen_key w
  = (Raise ValueError, w1).
Proof.
  intros Hsrc Hsuffix Hread Hrows.
  assert (Hiter : iterate_file_points src_filename = Ok []).
  { rewrite (iterate_csv _ rows) by done. f_equal. clear Hread.
    induction Hrows as [|row rows Hrow _ IH]; [done|]. simpl. by rewrite Hrow. }
  split; [done|]. by eapply render_bounds_raise.
Qed.

(** X15: when the points read from the file, once projected, all have the
    same x or all the same y, which is so for a file with one valid row, the
    render ends in [ZeroDivisionError], raised by [make_context]; once the
    source is there, nothing is asked of the tile server and no picture is
    written. *)
Theorem render_points_on_a_line filename_or_url png_filename width resolution
    mapzen_key (w w1 : list event) src_filename (lonlats : list (R * R)) (c : R) :
  get_local_filename filename_or_url w = (Ok src_filename, w1) →
  iterate_file_points src_filename = Ok lonlats →
  lonlats ≠ [] →
  (∀ p, p ∈ project_points lonlats → p.1 = c) ∨
  (∀ p, p ∈ project_points lonlats → p.2 = c) →
  render filename_or_url png_filename width resolution mapzen_key w
  = (Raise ZeroDivisionError, w1).
Proof.
  intros Hsrc Hiter Hne Hline.
  assert (Hne' : project_points lonlats ≠ []) by (by apply fmap_nonempty).
  destruct (calculate_bounds_is_spec_box _ Hne')
    as (box & Hbox & l & r & b & t & Hl & Hr & Hb & Ht & ->).
  eapply render_context_raise; [done..|].
  destruct Hline as [Hx|Hy].
  - destruct Hl as [Hl _], Hr as [Hr _].
    apply list_elem_of_filter in Hl as [_ Hl], Hr as [_ Hr].
    apply list_elem_of_fmap in Hl as (p & -> & Hp), Hr as (q & -> & Hq).
    rewrite (Hx p), (Hx q) by done.
    replace (c - 2 / 100 * (c - c)) with (c + 2 / 100 * (c - c)) by lra.
    apply make_context_zero_width.
  - destruct Hb as [Hb _], Ht as [Ht _].
    apply list_elem_of_filter in Hb as [_ Hb], Ht as [_ Ht].
    apply list_elem_of_fmap in Hb as (p & -> & Hp), Ht as (q & -> & Hq).
    rewrite (Hy p), (Hy q) by done.
    replace (c - 2 / 100 * (c - c)) with (c + 2 / 100 * (c - c)) by lra.
    apply make_context_degenerate.
Qed.

(** X16: a file name whose extension, in lower case, is neither [.csv] nor
    [.zip] makes [iterate_file_points] raise [UnboundLocalError], no file
    having been opened; a zip archive with no entry whose name ends in
    [.csv] makes it raise [IndexError]; and what the reader of the file
    raises is raised. *)
Theorem iterate_file_points_errors (filename : string) :
  (str_lower (splitext filename).2 ≠ ".csv" →
   str_lower (splitext filename).2 ≠ ".zip" →
   iterate_file_points filename = Raise UnboundLocalError) ∧
  (str_lower (splitext filename).2 = ".zip" →
   ∀ entries, read_zip filename = Ok entries →
     Forall (λ entry, endswith entry.1 ".csv" = false) entries →
     iterate_file_points filename = Raise IndexError) ∧
  (str_lower (splitext filename).2 = ".csv" →
   ∀ e, read_csv filename = Raise e → iterate_file_points filename = Raise e) ∧
  (str_lower (splitext filename).2 = ".zip" →
   ∀ e, read_zip filename = Raise e → iterate_file_points filename = Raise e).
Proof.
  unfold iterate_file_points. split; [|split; [|split]].
  - intros Hcsv Hzip.
    destruct (decide (str_lower (splitext filename).2 = ".csv")); [done|].
    by destruct (decide (str_lower (splitext filename).2 = ".zip")).
  - intros Hzip entries Hread Hnone. rewrite Hzip.
    destruct (decide (".zip" = ".csv")) as [|_]; [done|].
    destruct (decide (".zip" = ".zip")) as [_|]; [|done].
    rewrite Hread, bind_Ok.
    replace (filter (λ entry, endswith entry.1 ".csv" = true) entries)
      with (@nil (string * result (list Row))); [done|].
    symmetry. clear Hread. induction Hnone as [|entry entries Hentry _ IH]; [done|].
    rewrite filter_cons.
    destruct (decide (endswith entry.1 ".csv" = true)) as [Hd|_]; [|done].
    by rewrite Hentry in Hd.
  - intros Hcsv e Hread. rewrite Hcsv.
    destruct (decide (".csv" = ".csv")) as [_|]; [|done].
    by rewrite Hread.
  - intros Hzip e Hread. rewrite Hzip.
    destruct (decide (".zip" = ".csv")) as [|_]; [done|].
    destruct (decide (".zip" = ".zip")) as [_|]; [|done].
    by rewrite Hread.
Qed.

(** X17: [get_local_filename] gives a name with no scheme or with the
    scheme [file] back as it is, a [file] URL included, and touches nothing;
    it raises [ValueError] on every other scheme but [http] and [https],
    touching nothing, and so does [render]; for those two it asks for the
    URL once and writes the body to a new file whose suffix is the
    extension of the path of the URL, and when the request raises, nothing
    is written. *)
Theorem get_local_filename_cases (filename_or_url : string) (w : list event) :
  let scheme := (urlparse filename_or_url).1 in
  let suffix := (splitext (urlparse filename_or_url).2).2 in
  (scheme ∈ [EmptyString; "file"] →
   get_local_filename filename_or_url w = (Ok filename_or_url, w)) ∧
  (scheme ∉ [EmptyString; "file"; "http"; "https"] →
   get_local_filename filename_or_url w = (Raise ValueError, w) ∧
   ∀ png_filename width resolution mapzen_key,
     render filename_or_url png_filename width resolution mapzen_key w
     = (Raise ValueError, w)) ∧
  (scheme ∈ ["http"; "https"] →
   (∀ got, requests_get filename_or_url = Ok got →
      get_local_filename filename_or_url w
      = (Ok (mkstemp "Preview-" suffix),
         w ++ [EvGet filename_or_url;
               EvWriteFile (mkstemp "Preview-" suffix) (content got)])) ∧
   (∀ e, requests_get filename_or_url = Raise e →
      get_local_filename filename_or_url w = (Raise e, w ++ [EvGet filename_or_url]))).
Proof.
  intros scheme suffix.
  assert (Hparse : urlparse filename_or_url
                   = (scheme, (urlparse filename_or_url).2))
    by (by unfold scheme; destruct (urlparse filename_or_url)).
  split; [|split].
  - intros Hlocal. unfold get_local_filename. rewrite Hparse.
    by rewrite bool_decide_eq_true_2.
  - intros Hother.
    assert (Hget : get_local_filename filename_or_url w = (Raise ValueError, w)).
    { unfold get_local_filename. rewrite Hparse.
      rewrite bool_decide_eq_false_2.
      2:{ intros Hin. apply Hother.
          apply elem_of_cons in Hin as [->|Hin]; [by left|].
          apply list_elem_of_singleton in Hin as ->. by right; left. }
      rewrite bool_decide_eq_false_2; [done|].
      intros Hin. apply Hother. by do 2 right. }
    split; [done|]. intros png_filename width resolution mapzen_key.
    unfold render, mbind, M_bind. by rewrite Hget.
  - intros Hweb.
    assert (Hnot : scheme ∉ [EmptyString; "file"]).
    { intros Hin.
      assert (Hs : scheme = "http" ∨ scheme = "https").
      { apply elem_of_cons in Hweb as [?|Hweb]; [by left|].
        apply list_elem_of_singleton in Hweb. by right. }
      destruct Hs as [Hs|Hs]; rewrite Hs in Hin;
        repeat (apply elem_of_cons in Hin as [Hin|Hin]; [done|]);
        by apply elem_of_nil in Hin. }
    split.
    + intros got Hgot. unfold get_local_filename. rewrite Hparse.
      rewrite bool_decide_eq_false_2, bool_decide_eq_true_2 by done.
      cbn [negb]. by rewrite bindM_emit, Hgot, bindM_lift_Ok, bindM_emit,
        <- app_assoc.
    + intros e Hgot. unfold get_local_filename. rewrite Hparse.
      rewrite bool_decide_eq_false_2, bool_decide_eq_true_2 by done.
      cbn [negb]. by rewrite bindM_emit, Hgot, bindM_lift_Raise.
Qed.

End early.

Lemma render_without_valid_rows_witness :
  render (H := csv_env [demo_row "abc" "1"]) "rows.csv" "out.png" 668 1 None []
  = (Raise ValueError, []).
Proof.
  refine (proj2 (render_without_valid_rows (H := csv_env [demo_row "abc" "1"])
                   "rows.csv" "out.png" 668 1 None [] [] "rows.csv"
                   [demo_row "abc" "1"] _ _ _ _)).
  - reflexivity.
  - reflexivity.
  - reflexivity.
  - apply Forall_cons_2; [reflexivity|apply Forall_nil_2].
Defined.

Lemma one_row_points :
  omap (valid_point (H := csv_env [demo_row "7" "1"])) [demo_row "7" "1"]
  = [(IZR 7 / IZR 1, IZR 1 / IZR 1)].
Proof.
  unfold valid_point. simpl omap.
  change (cell_number (H := csv_env [demo_row "7" "1"]) (demo_row "7" "1") "LON")
    with (demo_float "7").
  change (cell_number (H := csv_env [demo_row "7" "1"]) (demo_row "7" "1") "LAT")
    with (demo_float "1").
  rewrite (demo_float_value "7" 7 1), (demo_float_value "1" 1 1) by (by vm_compute).
  simpl. case_ranges. done.
Qed.

Lemma render_points_on_a_line_witness :
  render (H := csv_env [demo_row "7" "1"]) "rows.csv" "out.png" 668 1 None []
  = (Raise ZeroDivisionError, []).
Proof.
  refine (render_points_on_a_line (H := csv_env [demo_row "7" "1"])
            "rows.csv" "out.png" 668 1 None [] [] "rows.csv"
            [(IZR 7 / IZR 1, IZR 1 / IZR 1)] (fmt7 (IZR 7 / IZR 1)) _ _ _ _).
  - reflexivity.
  - rewrite <- one_row_points.
    by apply (iterate_csv (H := csv_env [demo_row "7" "1"])).
  - done.
  - left. intros p Hp. by apply list_elem_of_singleton in Hp as ->.
Defined.

(** ** Nothing that passes is lost *)

Lemma in_tuple_elem (kind : string) (kinds : list string) :
  kind ∈ kinds → in_tuple (JStr kind) kinds = true.
Proof.
  intros Hk. unfold in_tuple. apply existsb_exists. exists kind.
  split; [by apply list_elem_of_In|]. simpl. by apply bool_decide_eq_true.
Qed.

Section complete.
Context `{Externals}.

Lemma landuse_step_pass (acc : list Geometry) (feature : json) :
  geometry_type_has "Polygon" feature = Ok true →
  has_kind_in landuse_kinds feature →
  landuse_step acc feature = geom ← projected_geom feature; Ok (acc ++ [geom]).
Proof.
  intros Htype (members & kind & Hprops & Hkind & Hin). unfold landuse_step.
  rewrite Htype, bind_Ok, Hprops, bind_Ok. cbv beta. unfold get_method.
  rewrite Hkind. change (default JNull (Some (JStr kind))) with (JStr kind).
  by rewrite bind_Ok, in_tuple_elem.
Qed.

Lemma water_step_pass (acc : list Geometry) (feature : json) :
  geometry_type_has "Polygon" feature = Ok true →
  has_kind_in water_kinds feature →
  water_step acc feature = geom ← projected_geom feature; Ok (acc ++ [geom]).
Proof.
  intros Htype (members & kind & Hprops & Hkind & Hin). unfold water_step.
  rewrite Htype, bind_Ok, Hprops, bind_Ok. cbv beta. unfold getitem.
  rewrite Hkind. by rewrite bind_Ok, in_tuple_elem.
Qed.

Lemma roads_step_pass (acc : list Geometry) (feature : json) :
  geometry_type_has "LineString" feature = Ok true →
  has_kind_in roads_kinds feature →
  roads_step acc feature = geom ← projected_geom feature; Ok (acc ++ [geom]).
Proof.
  intros Htype (members & kind & Hprops & Hkind & Hin). unfold roads_step.
  rewrite Htype, bind_Ok, Hprops, bind_Ok. cbv beta. unfold getitem.
  rewrite Hkind. by rewrite bind_Ok, in_tuple_elem.
Qed.

(** A loop of a layer that returns has only added to its list, and has added
    the geometry of every feature that passes. *)
Lemma layer_loop_complete (needle : string) (kinds : list string)
    (step : list Geometry → json → result (list Geometry))
    (features : list json) (acc acc' : list Geometry) :
  (∀ acc acc' feature, step acc feature = Ok acc' →
     acc' = acc ∨ ∃ geom, acc' = acc ++ [geom] ∧ accepted needle kinds feature geom) →
  (∀ acc feature,
     geometry_type_has needle feature = Ok true → has_kind_in kinds feature →
     step acc feature = geom ← projected_geom feature; Ok (acc ++ [geom])) →
  for_loop step features acc = Ok acc' →
  acc ⊆ acc' ∧
  ∀ feature, feature ∈ features →
    geometry_type_has needle feature = Ok true → has_kind_in kinds feature →
    ∃ geom, projected_geom feature = Ok geom ∧ geom ∈ acc'.
Proof.
  intros Hinv Hpass. revert acc.
  induction features as [|feature features IH]; intros acc Hloop.
  { injection Hloop as <-. split; [done|]. intros f Hf. by apply elem_of_nil in Hf. }
  simpl in Hloop. apply bind_Ok_inv in Hloop as (acc1 & Hstep & Hloop).
  destruct (IH _ Hloop) as [Hsub Hall].
  assert (Hgrow : acc ⊆ acc1).
  { apply Hinv in Hstep as [->|(geom & -> & _)]; [done|].
    intros g Hg. apply elem_of_app. by left. }
  split; [by etrans|]. intros f Hf Htype Hkind.
  apply elem_of_cons in Hf as [->|Hf]; [|by apply Hall].
  rewrite (Hpass acc feature Htype Hkind) in Hstep.
  apply bind_Ok_inv in Hstep as (geom & Hgeom & [= <-]).
  exists geom. split; [done|]. apply Hsub, elem_of_app. right.
  by apply list_elem_of_singleton.
Qed.

Lemma tile_step_complete (got : Response) (layers layers' : Layers) :
  tile_step layers got = Ok layers' →
  (layers.1.1 ⊆ layers'.1.1 ∧ layers.1.2 ⊆ layers'.1.2 ∧ layers.2 ⊆ layers'.2) ∧
  (∀ features feature,
     layer_features got "landuse" = Ok features → feature ∈ features →
     geometry_type_has "Polygon" feature = Ok true →
     has_kind_in landuse_kinds feature →
     ∃ geom, projected_geom feature = Ok geom ∧ geom ∈ layers'.1.1) ∧
  (∀ features feature,
     layer_features got "water" = Ok features → feature ∈ features →
     geometry_type_has "Polygon" feature = Ok true →
     has_kind_in water_kinds feature →
     ∃ geom, projected_geom feature = Ok geom ∧ geom ∈ layers'.1.2) ∧
  (∀ features feature,
     layer_features got "roads" = Ok features → feature ∈ features →
     geometry_type_has "LineString" feature = Ok true →
     has_kind_in roads_kinds feature →
     ∃ geom, projected_geom feature = Ok geom ∧ geom ∈ layers'.2).
Proof.
  intros Hstep. destruct layers as [[l w] r]. unfold tile_step in Hstep.
  apply bind_Ok_inv in Hstep as (fl & Hfl & Hstep).
  apply bind_Ok_inv in Hstep as (l' & Hl' & Hstep).
  apply bind_Ok_inv in Hstep as (fw & Hfw & Hstep).
  apply bind_Ok_inv in Hstep as (w' & Hw' & Hstep).
  apply bind_Ok_inv in Hstep as (fr & Hfr & Hstep).
  apply bind_Ok_inv in Hstep as (r' & Hr' & [= <-]).
  apply (layer_loop_complete "Polygon" landuse_kinds) in Hl' as [Hl1 Hl2];
    [|apply landuse_step_inv|apply landuse_step_pass].
  apply (layer_loop_complete "Polygon" water_kinds) in Hw' as [Hw1 Hw2];
    [|apply water_step_inv|apply water_step_pass].
  apply (layer_loop_complete "LineString" roads_kinds) in Hr' as [Hr1 Hr2];
    [|apply roads_step_inv|apply roads_step_pass].
  simpl. split; [done|]. split; [|split].
  - intros features feature Hf. rewrite Hfl in Hf. injection Hf as <-. apply Hl2.
  - intros features feature Hf. rewrite Hfw in Hf. injection Hf as <-. apply Hw2.
  - intros features feature Hf. rewrite Hfr in Hf. injection Hf as <-. apply Hr2.
Qed.

Lemma fetch_loop_complete zoom mapzen_key (tiles : list (Z * Z))
    (layers layers' : Layers) (w w' : list event) :
  for_loop (fetch_tile zoom mapzen_key) tiles layers w = (Ok layers', w') →
  (layers.1.1 ⊆ layers'.1.1 ∧ layers.1.2 ⊆ layers'.1.2 ∧ layers.2 ⊆ layers'.2) ∧
  layer_complete zoom mapzen_key tiles "landuse" "Polygon" landuse_kinds layers'.1.1 ∧
  layer_complete zoom mapzen_key tiles "water" "Polygon" water_kinds layers'.1.2 ∧
  layer_complete zoom mapzen_key tiles "roads" "LineString" roads_kinds layers'.2.
Proof.
  revert layers w. induction tiles as [|row_col tiles IH]; intros layers w Hloop.
  { injection Hloop as <- _. split; [done|].
    repeat split; intros f (rc & ? & ? & Hrc & _); by apply elem_of_nil in Hrc. }
  rewrite for_loop_M_cons in Hloop.
  destruct (fetch_tile zoom mapzen_key layers row_col w) as [[layers1|e] w1]
    eqn:Hbody; [|done].
  unfold fetch_tile in Hbody.
  apply bindM_Ok_inv in Hbody as ([] & w3 & _ & Hbody).
  apply bindM_Ok_inv in Hbody as (got & w4 & Hgot & Hbody).
  unfold lift in Hgot, Hbody. injection Hgot as Hgot _. injection Hbody as Hbody _.
  apply tile_step_complete in Hbody as ((Hl1 & Hw1 & Hr1) & Hl & Hw & Hr).
  destruct (IH _ _ Hloop) as ((Hl2 & Hw2 & Hr2) & Hcl & Hcw & Hcr).
  split; [by repeat split; etrans|].
  split; [|split]; intros feature (rc & got' & features & Hrc & Hget & Hfs & Hf)
    Htype Hkind.
  - apply elem_of_cons in Hrc as [->|Hrc].
    + rewrite Hgot in Hget. injection Hget as <-.
      destruct (Hl _ _ Hfs Hf Htype Hkind) as (geom & Hgeom & Hin).
      exists geom. split; [done|]. by apply Hl2.
    + apply Hcl; [by exists rc, got', features|done..].
  - apply elem_of_cons in Hrc as [->|Hrc].
    + rewrite Hgot in Hget. injection Hget as <-.
      destruct (Hw _ _ Hfs Hf Htype Hkind) as (geom & Hgeom & Hin).
      exists geom. split; [done|]. by apply Hw2.
    + apply Hcw; [by exists rc, got', features|done..].
  - apply elem_of_cons in Hrc as [->|Hrc].
    + rewrite Hgot in Hget. injection Hget as <-.
      destruct (Hr _ _ Hfs Hf Htype Hkind) as (geom & Hgeom & Hin).
      exists geom. split; [done|]. by apply Hr2.
    + apply Hcr; [by exists rc, got', features|done..].
Qed.

(** X18: when [get_map_features] returns, no feature that passed is
    missing: every feature that a fetched tile offers to a layer, whose
    geometry passes the type test of the layer and whose kind is a string on
    the list of the layer, has been read by OGR and its projected geometry
    is in the list of the layer. *)
Theorem passing_features_are_kept xmin ymin xmax ymax resolution scale mapzen_key
    (landuse water roads : list Geometry) (w w' : list event) :
  get_map_features xmin ymin xmax ymax resolution scale mapzen_key w
    = (Ok (landuse, water, roads), w') →
  ∃ z,
    calculate_zoom scale resolution = Ok z ∧
    let zoom := py_round z in
    let tiles := row_cols zoom xmin ymin xmax ymax in
    (∀ feature,
       offered zoom mapzen_key tiles "landuse" feature →
       geometry_type_has "Polygon" feature = Ok true →
       has_kind_in landuse_kinds feature →
       ∃ geom, projected_geom feature = Ok geom ∧ geom ∈ landuse) ∧
    (∀ feature,
       offered zoom mapzen_key tiles "water" feature →
       geometry_type_has "Polygon" feature = Ok true →
       has_kind_in water_kinds feature →
       ∃ geom, projected_geom feature = Ok geom ∧ geom ∈ water) ∧
    (∀ feature,
       offered zoom mapzen_key tiles "roads" feature →
       geometry_type_has "LineString" feature = Ok true →
       has_kind_in roads_kinds feature →
       ∃ geom, projected_geom feature = Ok geom ∧ geom ∈ roads).
Proof.
  intros Hget.
  apply get_map_features_inv in Hget as [(e & _ & [=] & _)|(z & Hz & Hfetch)].
  exists z. split; [done|]. cbv zeta.
  by apply fetch_loop_complete in Hfetch as (_ & ? & ? & ?).
Qed.

End complete.

Lemma passing_features_are_kept_witness :
  ∃ layers w' zoom,
    get_map_features (H := demo_env demo_tile) 0 0 1 1 1 1 None [] = (Ok layers, w') ∧
    ∀ feature,
      offered (H := demo_env demo_tile) zoom None (row_cols zoom 0 0 1 1)
        "landuse" feature →
      geometry_type_has "Polygon" feature = Ok true →
      has_kind_in landuse_kinds feature →
      ∃ geom, projected_geom (H := demo_env demo_tile) feature = Ok geom ∧
              geom ∈ layers.1.1.
Proof.
  destruct (demo_get_map_features 0 0 1 1 1 1 None []) as ([[l wa] r] & w' & Hget);
    [lra..|].
  destruct (passing_features_are_kept (H := demo_env demo_tile)
              0 0 1 1 1 1 None l wa r [] w' Hget) as (z & _ & Hl & _).
  by exists (l, wa, r), w', (py_round z).
Defined.

(** ** Drawing *)

(** Settle the membership tests on a geometry type that is known. *)
Ltac settle_types :=
  repeat match goal with
         | |- context [bool_decide (?t ∈ ?l)] =>
             let b := eval vm_compute in (bool_decide (t ∈ l)) in
             change (bool_decide (t ∈ l)) with b
         end.

Lemma draw_line_app (ctx : Context) (start : Coord) (points : list Coord) :
  draw_line ctx start points = ctx ++ draw_line [] start points.
Proof. done. Qed.

Lemma for_loop_singleton {A S} (body : S → A → result S) (x : A) (s : S) :
  for_loop body [x] s = body s x.
Proof. simpl. by destruct (body s x). Qed.

Lemma for_loop_cons {A S} (body : S → A → result S) (x : A) (l : list A) (s : S) :
  for_loop body (x :: l) s = body s x ≫= for_loop body l.
Proof. done. Qed.

(** A plain ring with a vertex is drawn from its last vertex through all
    of them, a plain line with a vertex from its first through the others. *)
Lemma ring_line_closed (ctx : Context) (ring : list Coord) :
  ring ≠ [] → ring_line true ctx (LineString ring) = Ok (ctx ++ closed_path ring).
Proof.
  intros Hne. destruct ring as [|p ring]; [done|].
  unfold ring_line, closed_path, last_item, draw_ring. cbn [GetPoints tuple_length].
  destruct (last (p :: ring)) as [q|] eqn:Hlast; [|by apply last_None in Hlast].
  rewrite bind_Ok. destruct (decide (2 = 2)%nat); [|done]. by rewrite draw_line_app.
Qed.

Lemma ring_line_open (ctx : Context) (line : list Coord) :
  line ≠ [] → ring_line false ctx (LineString line) = Ok (ctx ++ open_path line).
Proof.
  intros Hne. destruct line as [|p line]; [done|].
  unfold ring_line, open_path, draw_ring. cbn [GetPoints tuple_length first_item tail].
  rewrite bind_Ok. destruct (decide (2 = 2)%nat); [|done]. by rewrite draw_line_app.
Qed.

(** The rings of one polygon, drawn one after the other into one path. *)
Lemma fill_rings (ctx : Context) (rings : list (list Coord)) :
  Forall (λ ring, ring ≠ []) rings →
  for_loop (ring_line true) (LineString <$> rings) ctx
  = Ok (ctx ++ (rings ≫= closed_path)).
Proof.
  intros Hne. revert ctx. induction Hne as [|ring rings Hring _ IH]; intros ctx.
  { simpl. by rewrite app_nil_r. }
  rewrite fmap_cons, for_loop_cons, ring_line_closed, bind_Ok, IH by done.
  rewrite bind_cons. by rewrite <- app_assoc.
Qed.

Lemma fill_part_polygon (ctx : Context) (rings : list (list Coord)) :
  Forall (λ ring, ring ≠ []) rings →
  fill_part ctx (Polygon rings) = Ok (ctx ++ (rings ≫= closed_path) ++ [Fill]).
Proof.
  intros Hne. unfold fill_part. cbn [sub_geometries].
  rewrite fill_rings by done. by rewrite bind_Ok, <- app_assoc.
Qed.

Lemma stroke_ring_closed (ctx : Context) (ring : list Coord) :
  ring ≠ [] →
  stroke_ring true ctx (LineString ring) = Ok (ctx ++ closed_path ring ++ [Stroke]).
Proof.
  intros Hne. unfold stroke_ring.
  rewrite ring_line_closed, bind_Ok by done. by rewrite <- app_assoc.
Qed.

Lemma stroke_rings_closed (ctx : Context) (rings : list (list Coord)) :
  Forall (λ ring, ring ≠ []) rings →
  for_loop (stroke_ring true) (LineString <$> rings) ctx
  = Ok (ctx ++ (ring ← rings; closed_path ring ++ [Stroke])).
Proof.
  intros Hne. revert ctx. induction Hne as [|ring rings Hring _ IH]; intros ctx.
  { simpl. by rewrite app_nil_r. }
  rewrite fmap_cons, for_loop_cons, stroke_ring_closed, bind_Ok, IH by done.
  rewrite bind_cons. by rewrite <- !app_assoc.
Qed.

Lemma stroke_line_open (ctx : Context) (line : list Coord) :
  line ≠ [] →
  stroke_ring false ctx (LineString line) = Ok (ctx ++ open_path line ++ [Stroke]).
Proof.
  intros Hne. unfold stroke_ring.
  rewrite ring_line_open, bind_Ok by done. by rewrite <- app_assoc.
Qed.

Section drawing.
Context `{Externals}.

(** X19: a polygon all of whose rings have a vertex is filled as one path
    made of its rings, each ring drawn from its last vertex through all its
    vertices and so closed, followed by one [fill]; it is stroked ring by
    ring, each ring closed in the same way and stroked on its own; a line
    string is stroked as an open path from its first vertex through the
    others. *)
Theorem polygon_paths_are_closed (ctx : Context) (rings : list (list Coord))
    (muppx : R) (rgb : R * R * R) :
  Forall (λ ring, ring ≠ []) rings →
  fill_geometries ctx [Polygon rings] muppx rgb
  = Ok (ctx ++ [set_source_rgb rgb] ++ (rings ≫= closed_path) ++ [Fill]) ∧
  stroke_geometries ctx [Polygon rings]
  = Ok (ctx ++ (ring ← rings; closed_path ring ++ [Stroke])) ∧
  (∀ ring vertex, closed_path (ring ++ [vertex])
     = [MoveTo vertex.1 vertex.2] ++ ((λ p, LineTo p.1 p.2) <$> ring)
       ++ [LineTo vertex.1 vertex.2]) ∧
  (∀ line, line ≠ [] →
     stroke_geometries ctx [LineString line]
     = Ok (ctx ++ open_path line ++ [Stroke])).
Proof.
  intros Hne. split; [|split; [|split]].
  - unfold fill_geometries. rewrite for_loop_singleton.
    unfold fill_parts, fill_arm_of. cbn [GetGeometryType].
    destruct (decide (wkbPolygon = wkbMultiPolygon)); [done|].
    destruct (decide (wkbPolygon = wkbPolygon)); [|done].
    rewrite bind_Ok, for_loop_singleton, fill_part_polygon by done.
    by rewrite <- app_assoc.
  - unfold stroke_geometries. rewrite for_loop_singleton. cbv zeta.
    cbn [GetGeometryType].
    settle_types. cbv iota. rewrite for_loop_singleton.
    cbn [GetGeometryType sub_geometries].
    destruct (decide (wkbPolygon = wkbPolygon)); [|done].
    by apply stroke_rings_closed.
  - intros ring vertex. unfold closed_path. rewrite last_snoc.
    unfold draw_line. by rewrite fmap_app.
  - intros line Hline. unfold stroke_geometries. rewrite for_loop_singleton.
    cbv zeta. cbn [GetGeometryType].
    settle_types. cbv iota. rewrite for_loop_singleton. cbn [GetGeometryType].
    destruct (decide (wkbLineString = wkbPolygon)); [done|].
    rewrite for_loop_singleton. by apply stroke_line_open.
Qed.

End drawing.

Lemma polygon_paths_are_closed_witness :
  fill_geometries (H := demo_env empty_tile) []
    [Polygon [[(0, 0); (1, 0); (1, 1)]]] 1 park_fill
  = Ok [set_source_rgb park_fill;
        MoveTo 1 1; LineTo 0 0; LineTo 1 0; LineTo 1 1; Fill].
Proof.
  destruct (polygon_paths_are_closed (H := demo_env empty_tile) []
              [[(0, 0); (1, 0); (1, 1)]] 1 park_fill) as [Hfill _].
  - by repeat constructor.
  - exact Hfill.
Defined.

Lemma for_loop_ext {A S} (body1 body2 : S → A → result S) (items : list A) (s : S) :
  (∀ s x, x ∈ items → body1 s x = body2 s x) →
  for_loop body1 items s = for_loop body2 items s.
Proof.
  revert s. induction items as [|x items IH]; intros s Hext; [done|].
  rewrite !for_loop_cons, Hext by (by left).
  destruct (body2 s x) as [s'|e]; [|done]. rewrite !bind_Ok.
  apply IH. intros s1 y Hy. apply Hext. by right.
Qed.

(** An exception of a loop is an exception of one of its steps. *)
Lemma for_loop_Raise_inv {A S} (body : S → A → result S) (items : list A) (s : S)
    (e : exn) :
  for_loop body items s = Raise e → ∃ s' x, x ∈ items ∧ body s' x = Raise e.
Proof.
  revert s. induction items as [|x items IH]; intros s Hloop; [done|].
  rewrite for_loop_cons in Hloop.
  apply bind_Raise_inv in Hloop as [Hx|(s1 & _ & Hrest)].
  - exists s, x. split; [by left|done].
  - destruct (IH _ Hrest) as (s' & y & Hy & Hbody). exists s', y. split; [by right|done].
Qed.

Lemma stroke_ring_error (closed : bool) (ctx : Context) (ring : Geometry) (e : exn) :
  stroke_ring closed ctx ring = Raise e → e = TypeError.
Proof.
  unfold stroke_ring. intros Hraise.
  apply bind_Raise_inv in Hraise as [Hdraw|(ctx' & _ & Hk)]; [|done].
  by apply ring_line_error in Hdraw.
Qed.

Lemma stroke_rings_error (closed : bool) (ctx : Context) (rings : list Geometry)
    (e : exn) :
  for_loop (stroke_ring closed) rings ctx = Raise e → e = TypeError.
Proof.
  intros Hraise. apply for_loop_Raise_inv in Hraise as (s & ring & _ & Hring).
  by apply stroke_ring_error in Hring.
Qed.

Lemma fill_part_Raise (ctx : Context) (part : Geometry) (e : exn) :
  fill_part ctx part = Raise e → e = TypeError.
Proof.
  unfold fill_part. intros Hraise.
  apply bind_Raise_inv in Hraise as [Hloop|(ctx' & _ & Hk)]; [|done].
  apply for_loop_Raise_inv in Hloop as (s & ring & _ & Hstep).
  by apply ring_line_error in Hstep.
Qed.

Section strokes_and_fills.
Context `{Externals}.

(** X20: [stroke_geometries] raises nothing but [TypeError], which is for a
    ring or a line without vertices, whose [GetPoints] is [None], and for
    vertices with a third number; it passes over every geometry that is not
    a plain polygon, line string, multi-polygon or multi-line-string.
    [fill_geometries] raises [NotImplementedError] on every geometry that
    is not a plain polygon, multi-polygon or point, whatever follows in the
    list, and besides that only [TypeError]. *)
Theorem drawing_errors :
  (∀ ctx geometries e,
     stroke_geometries ctx geometries = Raise e → e = TypeError) ∧
  (∀ ctx geometry geometries,
     GetGeometryType geometry
       ∉ [wkbPolygon; wkbLineString; wkbMultiPolygon; wkbMultiLineString] →
     stroke_geometries ctx (geometry :: geometries)
     = stroke_geometries ctx geometries) ∧
  (∀ ctx geometries muppx rgb e,
     fill_geometries ctx geometries muppx rgb = Raise e →
     e = TypeError ∨ e = NotImplementedError) ∧
  (∀ ctx geometry geometries muppx rgb,
     GetGeometryType geometry ∉ [wkbPolygon; wkbMultiPolygon; wkbPoint] →
     fill_geometries ctx (geometry :: geometries) muppx rgb
     = Raise NotImplementedError) ∧
  (∀ ctx geometries muppx rgb,
     stroke_geometries ctx (LineString [] :: geometries) = Raise TypeError ∧
     stroke_geometries ctx (Polygon [[]] :: geometries) = Raise TypeError ∧
     fill_geometries ctx (Polygon [[]] :: geometries) muppx rgb = Raise TypeError).
Proof.
  split; [|split; [|split; [|split]]].
  - intros ctx geometries e Hraise. unfold stroke_geometries in Hraise.
    apply for_loop_Raise_inv in Hraise as (s & g & _ & Hg). cbv zeta in Hg.
    destruct (bool_decide (GetGeometryType g ∈ [wkbMultiPolygon; wkbMultiLineString])).
    { apply for_loop_Raise_inv in Hg as (s' & part & _ & Hpart).
      by apply stroke_rings_error in Hpart. }
    destruct (bool_decide (GetGeometryType g ∈ [wkbPolygon; wkbLineString])); [|done].
    apply for_loop_Raise_inv in Hg as (s' & part & _ & Hpart).
    by apply stroke_rings_error in Hpart.
  - intros ctx geometry geometries Htype. unfold stroke_geometries.
    rewrite for_loop_cons. cbv zeta.
    rewrite !bool_decide_eq_false_2, bind_Ok; [done|..];
      intros Hin; apply Htype; revert Hin; rewrite !elem_of_cons; tauto.
  - intros ctx geometries muppx rgb e Hraise. unfold fill_geometries in Hraise.
    apply for_loop_Raise_inv in Hraise as (s & g & _ & Hg).
    apply bind_Raise_inv in Hg as [Hparts|(parts & _ & Hloop)].
    + right. unfold fill_parts in Hparts.
      destruct (fill_arm_of g); try done. by injection Hparts as <-.
    + left. apply for_loop_Raise_inv in Hloop as (s' & part & _ & Hpart).
      by apply fill_part_Raise in Hpart.
  - intros ctx geometry geometries muppx rgb Htype. unfold fill_geometries.
    rewrite for_loop_cons. unfold fill_parts, fill_arm_of.
    repeat case_decide; try done;
      exfalso; apply Htype; rewrite !elem_of_cons; auto.
  - intros ctx geometries muppx rgb. by repeat split.
Qed.

(** X21: a multi-polygon is filled, and stroked, exactly as its polygons
    would be, one after the other in its place in the list, and a
    multi-line-string is stroked as its line strings would be. *)
Theorem multi_geometries_draw_as_parts (ctx : Context)
    (before after : list Geometry) (muppx : R) (rgb : R * R * R) :
  (∀ polygons,
     fill_geometries ctx (before ++ MultiPolygon polygons :: after) muppx rgb
     = fill_geometries ctx (before ++ (Polygon <$> polygons) ++ after) muppx rgb) ∧
  (∀ polygons,
     stroke_geometries ctx (before ++ MultiPolygon polygons :: after)
     = stroke_geometries ctx (before ++ (Polygon <$> polygons) ++ after)) ∧
  (∀ lines,
     stroke_geometries ctx (before ++ MultiLineString lines :: after)
     = stroke_geometries ctx (before ++ (LineString <$> lines) ++ after)).
Proof.
  split; [|split].
  - intros polygons. unfold fill_geometries.
    rewrite !(for_loop_app _ before).
    destruct (for_loop _ before _) as [ctx1|e]; [|done]. rewrite !bind_Ok.
    rewrite for_loop_cons, for_loop_app. f_equal.
    unfold fill_parts at 1, fill_arm_of. cbn [GetGeometryType].
    destruct (decide (wkbMultiPolygon = wkbMultiPolygon)); [|done].
    rewrite bind_Ok. cbn [sub_geometries]. apply for_loop_ext.
    intros s part (rings & -> & _)%list_elem_of_fmap.
    unfold fill_parts, fill_arm_of. cbn [GetGeometryType].
    destruct (decide (wkbPolygon = wkbMultiPolygon)); [done|].
    destruct (decide (wkbPolygon = wkbPolygon)); [|done].
    by rewrite bind_Ok, for_loop_singleton.
  - intros polygons. unfold stroke_geometries.
    rewrite !(for_loop_app _ before).
    destruct (for_loop _ before _) as [ctx1|e]; [|done]. rewrite !bind_Ok.
    rewrite for_loop_cons, for_loop_app. f_equal. cbv zeta.
    cbn [GetGeometryType sub_geometries]. settle_types.
    cbv iota. apply for_loop_ext.
    intros s part (rings & -> & _)%list_elem_of_fmap.
    cbn [GetGeometryType]. settle_types. cbv iota.
    by rewrite for_loop_singleton.
  - intros lines. unfold stroke_geometries.
    rewrite !(for_loop_app _ before).
    destruct (for_loop _ before _) as [ctx1|e]; [|done]. rewrite !bind_Ok.
    rewrite for_loop_cons, for_loop_app. f_equal. cbv zeta.
    cbn [GetGeometryType sub_geometries]. settle_types.
    cbv iota. apply for_loop_ext.
    intros s part (line & -> & _)%list_elem_of_fmap.
    cbn [GetGeometryType]. settle_types. cbv iota.
    by rewrite for_loop_singleton.
Qed.

End strokes_and_fills.

(** ** The markers *)

(** A short list of calls, none of them an arc. *)
Ltac no_arcs :=
  repeat (apply Forall_cons_2; [unfold set_source_rgb; simpl; tauto|]);
  apply Forall_nil_2.

(** [ctx'] is [ctx] with calls added, none of them an arc. *)
Lemma no_arc_refl (ctx : Context) :
  ∃ cmds, ctx = ctx ++ cmds ∧ Forall (λ c, ¬ is_arc c) cmds.
Proof. exists []. by rewrite app_nil_r. Qed.

Lemma no_arc_app (ctx ctx' : Context) (more : list draw_cmd) :
  (∃ cmds, ctx' = ctx ++ cmds ∧ Forall (λ c, ¬ is_arc c) cmds) →
  Forall (λ c, ¬ is_arc c) more →
  ∃ cmds, ctx' ++ more = ctx ++ cmds ∧ Forall (λ c, ¬ is_arc c) cmds.
Proof.
  intros (cmds & -> & Hcmds) Hmore. exists (cmds ++ more).
  split; [by rewrite app_assoc|by apply Forall_app].
Qed.

Lemma no_arc_draw_line (start : Coord) (points : list Coord) :
  Forall (λ c, ¬ is_arc c) (draw_line [] start points).
Proof.
  unfold draw_line. rewrite app_nil_l. apply Forall_app.
  split; [no_arcs|]. apply Forall_fmap, Forall_true. intros p. simpl. tauto.
Qed.

Lemma no_arc_trans (ctx ctx1 ctx2 : Context) :
  (∃ cmds, ctx1 = ctx ++ cmds ∧ Forall (λ c, ¬ is_arc c) cmds) →
  (∃ cmds, ctx2 = ctx1 ++ cmds ∧ Forall (λ c, ¬ is_arc c) cmds) →
  ∃ cmds, ctx2 = ctx ++ cmds ∧ Forall (λ c, ¬ is_arc c) cmds.
Proof. intros H1 (cmds & -> & Hcmds). by apply no_arc_app. Qed.

(** A loop whose steps only add calls that are no arcs only adds such. *)
Lemma for_loop_no_arc {A} (body : Context → A → result Context)
    (items : list A) (ctx ctx' : Context) :
  (∀ s x s', body s x = Ok s' →
     ∃ cmds, s' = s ++ cmds ∧ Forall (λ c, ¬ is_arc c) cmds) →
  for_loop body items ctx = Ok ctx' →
  ∃ cmds, ctx' = ctx ++ cmds ∧ Forall (λ c, ¬ is_arc c) cmds.
Proof.
  intros Hbody Hloop.
  refine (for_loop_invariant
            (λ s, ∃ cmds, s = ctx ++ cmds ∧ Forall (λ c, ¬ is_arc c) cmds)
            body items ctx ctx' _ (no_arc_refl ctx) Hloop).
  intros s x s' _ Hs Hstep. eapply no_arc_trans; [exact Hs|by eapply Hbody].
Qed.

Lemma ring_line_no_arc (closed : bool) (ctx ctx' : Context) (ring : Geometry) :
  ring_line closed ctx ring = Ok ctx' →
  ∃ cmds, ctx' = ctx ++ cmds ∧ Forall (λ c, ¬ is_arc c) cmds.
Proof.
  unfold ring_line, draw_ring. destruct (GetPoints ring) as [points|]; [|done].
  intros Hdraw.
  destruct closed; apply bind_Ok_inv in Hdraw as (start & _ & Hdraw);
    case_decide; try done; injection Hdraw as <-;
    rewrite draw_line_app; (eexists; split; [done|]); apply no_arc_draw_line.
Qed.

Lemma fill_part_no_arc (ctx ctx' : Context) (part : Geometry) :
  fill_part ctx part = Ok ctx' →
  ∃ cmds, ctx' = ctx ++ cmds ∧ Forall (λ c, ¬ is_arc c) cmds.
Proof.
  unfold fill_part. intros Hpart.
  apply bind_Ok_inv in Hpart as (ctx1 & Hloop & [= <-]).
  apply no_arc_app; [|no_arcs].
  revert Hloop. apply for_loop_no_arc. intros s ring s'. apply ring_line_no_arc.
Qed.

Lemma stroke_ring_no_arc (closed : bool) (ctx ctx' : Context) (ring : Geometry) :
  stroke_ring closed ctx ring = Ok ctx' →
  ∃ cmds, ctx' = ctx ++ cmds ∧ Forall (λ c, ¬ is_arc c) cmds.
Proof.
  unfold stroke_ring. intros Hring.
  apply bind_Ok_inv in Hring as (ctx1 & Hdraw & [= <-]).
  apply no_arc_app; [|no_arcs]. by eapply ring_line_no_arc.
Qed.

Lemma stroke_geometries_no_arc (ctx ctx' : Context) (geometries : list Geometry) :
  stroke_geometries ctx geometries = Ok ctx' →
  ∃ cmds, ctx' = ctx ++ cmds ∧ Forall (λ c, ¬ is_arc c) cmds.
Proof.
  unfold stroke_geometries. apply for_loop_no_arc. intros s g s' Hg.
  cbv zeta in Hg.
  destruct (bool_decide (GetGeometryType g ∈ [wkbMultiPolygon; wkbMultiLineString])).
  { revert Hg. apply for_loop_no_arc. intros s1 part s2.
    apply for_loop_no_arc. intros s3 ring s4. apply stroke_ring_no_arc. }
  destruct (bool_decide (GetGeometryType g ∈ [wkbPolygon; wkbLineString])).
  { revert Hg. apply for_loop_no_arc. intros s1 part s2.
    apply for_loop_no_arc. intros s3 ring s4. apply stroke_ring_no_arc. }
  injection Hg as <-. apply no_arc_refl.
Qed.

Lemma filter_arc_draw_points (points : list Coord) :
  length (filter is_arc (draw_points [] points : list draw_cmd))
  = (2 * length points)%nat.
Proof.
  unfold draw_points. rewrite app_nil_l.
  induction points as [|p points IH]; [done|].
  rewrite bind_cons, filter_app, length_app, IH. simpl. lia.
Qed.

Lemma filter_no_arc (cmds : list draw_cmd) :
  Forall (λ c, ¬ is_arc c) cmds → filter is_arc cmds = [].
Proof.
  induction 1 as [|c cmds Hc _ IH]; [done|].
  rewrite filter_cons. by destruct (decide (is_arc c)).
Qed.

Section markers.
Context `{Externals}.

Lemma fill_geometries_no_arc (ctx ctx' : Context) (geometries : list Geometry)
    (muppx : R) (rgb : R * R * R) :
  fill_geometries ctx geometries muppx rgb = Ok ctx' →
  ∃ cmds, ctx' = ctx ++ cmds ∧ Forall (λ c, ¬ is_arc c) cmds.
Proof.
  unfold fill_geometries. intros Hloop.
  eapply no_arc_trans with (ctx1 := ctx ++ [set_source_rgb rgb]).
  { eexists. split; [done|]. no_arcs. }
  revert Hloop. apply for_loop_no_arc. intros s g s' Hg.
  apply bind_Ok_inv in Hg as (parts & _ & Hparts).
  revert Hparts. apply for_loop_no_arc. intros s1 part s2. apply fill_part_no_arc.
Qed.

(** X22: in the picture that a render writes, the markers come last, after
    everything of the base map, which has no arc in it; every point read
    from the file has its marker, two arcs each, also a point that the
    bounds left out as an outlier. *)
Theorem markers_are_drawn_last filename_or_url png_filename width resolution
    mapzen_key (w w' : list event) :
  render filename_or_url png_filename width resolution mapzen_key w = (Ok (), w') →
  ∃ src_filename w1 lonlats events surface basemap,
    get_local_filename filename_or_url w = (Ok src_filename, w1) ∧
    iterate_file_points src_filename = Ok lonlats ∧
    w' = events ++
         [EvWritePng png_filename surface
            (basemap ++ draw_points [] (project_points lonlats))] ∧
    Forall (λ c, ¬ is_arc c) basemap ∧
    length (filter is_arc (basemap ++ draw_points [] (project_points lonlats)))
    = (2 * length lonlats)%nat.
Proof.
  intros Hrender.
  apply render_Ok_inv in Hrender
    as (src & w1 & lonlats & xmin & ymin & xmax & ymax & surface & context & scale
        & zoom & muppx & landuse & water & roads & w2 & c1 & c2 & c3 & drawn
        & Hsrc & Hpoints & Hbounds & Hmake & _ & _ & _ & Hc1 & Hc2 & Hc3 & -> & ->).
  assert (Hbase : ∃ cmds, c3 ++ [SetLineWidth (0.25 * muppx)] = [] ++ cmds ∧
                          Forall (λ c, ¬ is_arc c) cmds).
  { apply no_arc_app; [|no_arcs].
    apply stroke_geometries_no_arc in Hc3. apply fill_geometries_no_arc in Hc2.
    apply fill_geometries_no_arc in Hc1.
    eapply no_arc_trans; [|exact Hc3]. apply no_arc_app; [|no_arcs].
    eapply no_arc_trans; [|exact Hc2]. eapply no_arc_trans; [|exact Hc1].
    apply no_arc_app; [|no_arcs].
    exists context. split; [done|].
    pose proof (make_context_Ok_inv _ _ _ _ _ _ _ _ _ Hmake) as (Hw & Hh & _).
    rewrite make_context_ok in Hmake by done. cbv zeta in Hmake.
    injection Hmake as _ <- _. no_arcs. }
  destruct Hbase as (basemap & Hbase & Hnone). rewrite app_nil_l in Hbase.
  exists src, w1, lonlats, w2, surface, basemap.
  split; [done|]. split; [done|]. split.
  { unfold draw_points. by rewrite Hbase, app_nil_l. }
  split; [done|].
  rewrite filter_app, length_app, filter_no_arc, filter_arc_draw_points by done.
  unfold project_points. by rewrite length_fmap.
Qed.

End markers.

Lemma markers_are_drawn_last_witness :
  ∃ w' lonlats events surface basemap,
    render (H := demo_env empty_tile) "points.csv" "out.png" 668 1 None []
    = (Ok (), w') ∧
    w' = events ++
         [EvWritePng "out.png" surface
            (basemap
             ++ draw_points [] (project_points (H := demo_env empty_tile) lonlats))].
Proof.
  destruct square_render as (requests & drawn & Hrender).
  destruct (markers_are_drawn_last (H := demo_env empty_tile) _ _ _ _ _ _ _ Hrender)
    as (src & w1 & lonlats & events & surface & basemap & _ & _ & Hw' & _).
  by eexists _, lonlats, events, surface, basemap.
Defined.


(** ** The zoom that is chosen *)

Lemma py_round_mono (x y : R) : x <= y → (py_round x ≤ py_round y)%Z.
Proof.
  intros Hxy. destruct (Req_dec x y) as [->|Hne]; [done|].
  destruct (py_round_near x) as [Hx _], (py_round_near y) as [_ Hy].
  apply Z.lt_succ_r, lt_IZR. rewrite succ_IZR. lra.
Qed.

Lemma calculate_zoom_Ok_inv (scale resolution z : R) :
  calculate_zoom scale resolution = Ok z →
  resolution ≠ 0 ∧ 0 < scale / resolution ∧
  z = ln (scale / resolution * (EARTH_DIAMETER / 256)) / ln 2 ∧
  Rpower 2 z * (256 * resolution) = scale * EARTH_DIAMETER.
Proof.
  intros Hz.
  destruct (decide (resolution = 0)) as [->|Hr].
  { by rewrite calculate_zoom_zero_resolution in Hz. }
  destruct (Rle_dec (scale / resolution) 0) as [Hle|Hgt].
  { by rewrite calculate_zoom_not_positive in Hz. }
  apply Rnot_le_lt in Hgt.
  destruct (calculate_zoom_positive scale resolution Hgt) as (z' & Hz' & Hpow).
  rewrite Hz in Hz'. injection Hz' as <-.
  split; [done|]. split; [done|]. split; [|done].
  rewrite calculate_zoom_unfold in Hz by done.
  apply bind_Ok_inv in Hz as (num & Hnum & [= <-]).
  unfold math_log in Hnum.
  destruct (decide (scale / resolution * (EARTH_DIAMETER / 256) <= 0)); [done|].
  by injection Hnum as <-.
Qed.

(** X23: at the zoom that [get_map_features] chooses, the rounded
    [calculate_zoom], a tile is drawn at between [256 / sqrt 2] and
    [256 * sqrt 2] reference pixels, that is, between 181 and 363; and a
    larger scale at the same resolution never gives a lower zoom. *)
Theorem chosen_zoom_tile_size (scale resolution z : R) :
  0 < resolution →
  calculate_zoom scale resolution = Ok z →
  256 / sqrt 2 <= tile_side (py_round z) * scale / resolution ∧
  tile_side (py_round z) * scale / resolution <= 256 * sqrt 2 ∧
  ∀ scale' z',
    scale <= scale' → calculate_zoom scale' resolution = Ok z' →
    z <= z' ∧ (py_round z ≤ py_round z')%Z.
Proof.
  intros Hres Hz. pose proof EARTH_DIAMETER_pos as HE. pose proof ln_2_pos as H2.
  apply calculate_zoom_Ok_inv in Hz as (_ & Hpos & Hzeq & Hpow).
  assert (Hs2 : 0 < sqrt 2) by (apply sqrt_lt_R0; lra).
  assert (Hsq : sqrt 2 * sqrt 2 = 2) by (apply sqrt_sqrt; lra).
  assert (Hz2 : 0 < Rpower 2 z) by apply exp_pos.
  pose proof (powerRZ_lt 2 (py_round z) ltac:(lra)) as HP.
  assert (Hup : powerRZ 2 (py_round z) <= sqrt 2 * Rpower 2 z)
    by apply powerRZ_round_le.
  assert (Hlo : Rpower 2 z <= sqrt 2 * powerRZ 2 (py_round z)).
  { rewrite powerRZ_Rpower by lra.
    replace (sqrt 2 * Rpower 2 (IZR (py_round z)))
      with (Rpower 2 (IZR (py_round z) + / 2))
      by (rewrite Rpower_plus, Rpower_sqrt by lra; lra).
    apply Rle_Rpower; [lra|]. destruct (py_round_near z). lra. }
  assert (Hside : tile_side (py_round z) * scale / resolution
                  = 256 * (Rpower 2 z / powerRZ 2 (py_round z))).
  { unfold tile_side.
    replace (EARTH_DIAMETER / powerRZ 2 (py_round z) * scale / resolution)
      with (scale * EARTH_DIAMETER / resolution / powerRZ 2 (py_round z))
      by (field; lra).
    rewrite <- Hpow. field. lra. }
  rewrite Hside. split; [|split].
  - replace (256 / sqrt 2) with (256 * (/ sqrt 2)) by (field; lra).
    apply Rmult_le_compat_l; [lra|].
    apply (Rmult_le_reg_r (sqrt 2 * powerRZ 2 (py_round z))); [nra|].
    replace (/ sqrt 2 * (sqrt 2 * powerRZ 2 (py_round z)))
      with (powerRZ 2 (py_round z)) by (field; lra).
    replace (Rpower 2 z / powerRZ 2 (py_round z)
             * (sqrt 2 * powerRZ 2 (py_round z)))
      with (sqrt 2 * Rpower 2 z) by (field; lra).
    done.
  - apply Rmult_le_compat_l; [lra|].
    apply (Rmult_le_reg_r (powerRZ 2 (py_round z))); [done|].
    replace (Rpower 2 z / powerRZ 2 (py_round z) * powerRZ 2 (py_round z))
      with (Rpower 2 z) by (field; lra).
    done.
  - intros scale' z' Hle Hz'.
    apply calculate_zoom_Ok_inv in Hz' as (_ & Hpos' & Hzeq' & _).
    assert (Hzz : z <= z').
    { rewrite Hzeq, Hzeq'. unfold Rdiv at 1 3.
      apply Rmult_le_compat_r; [apply Rlt_le, Rinv_0_lt_compat; lra|].
      assert (Hq : 0 < EARTH_DIAMETER / 256) by (apply Rdiv_lt_0_compat; lra).
      assert (Hsr : scale / resolution <= scale' / resolution).
      { unfold Rdiv. apply Rmult_le_compat_r; [|done].
        apply Rlt_le, Rinv_0_lt_compat. done. }
      destruct (Req_dec (scale / resolution) (scale' / resolution)) as [->|Hne];
        [lra|].
      apply Rlt_le, ln_increasing; nra. }
    split; [done|by apply py_round_mono].
Qed.

Lemma chosen_zoom_tile_size_witness :
  ∃ z, calculate_zoom 1 1 = Ok z ∧
       256 / sqrt 2 <= tile_side (py_round z) * 1 / 1 ∧
       tile_side (py_round z) * 1 / 1 <= 256 * sqrt 2.
Proof.
  destruct (calculate_zoom_ok 1 1) as [z Hz]; [lra..|].
  destruct (chosen_zoom_tile_size 1 1 z ltac:(lra) Hz) as (Hlo & Hhi & _).
  by exists z.
Defined.


(** ** A larger box *)




(** ** All that a render does *)

Section trace.
Context `{Externals}.

Lemma get_local_filename_Ok_inv (filename_or_url src_filename : string)
    (w w1 : list event) :
  get_local_filename filename_or_url w = (Ok src_filename, w1) →
  (src_filename = filename_or_url ∧ w1 = w) ∨
  ∃ got,
    requests_get filename_or_url = Ok got ∧
    src_filename = mkstemp "Preview-" (splitext (urlparse filename_or_url).2).2 ∧
    w1 = w ++ [EvGet filename_or_url; EvWriteFile src_filename (content got)].
Proof.
  unfold get_local_filename.
  destruct (urlparse filename_or_url) as [scheme path]. cbn [snd].
  destruct (bool_decide (scheme ∈ [EmptyString; "file"])).
  { intros [= <- <-]. by left. }
  destruct (negb _); [done|].
  rewrite bindM_emit. destruct (requests_get filename_or_url) as [got|e]; [|done].
  rewrite bindM_lift_Ok, bindM_emit. intros [= <- <-].
  right. exists got. by rewrite <- app_assoc.
Qed.

Lemma get_map_features_requests xmin ymin xmax ymax resolution scale mapzen_key
    (layers : Layers) (w w' : list event) :
  get_map_features xmin ymin xmax ymax resolution scale mapzen_key w
    = (Ok layers, w') →
  ∃ z, calculate_zoom scale resolution = Ok z ∧
       w' = w ++ (EvGet ∘ tile_url (py_round z) mapzen_key
                    <$> row_cols (py_round z) xmin ymin xmax ymax).
Proof.
  intros Hget.
  apply get_map_features_inv in Hget as [(e & _ & [=] & _)|(z & Hz & Hfetch)].
  exists z. split; [done|].
  apply fetch_loop_requests in Hfetch as (n & _ & -> & Hall).
  rewrite Hall by by eexists. by rewrite firstn_all.
Qed.

(** X25: a render that returns has made these requests and written these
    files, no others, in this order: for a source that is not local, one
    request for it and its body written to one new file; one request for
    each tile of the grid of the chosen zoom over the box of the points,
    row by row; and the picture written. *)
Theorem render_trace filename_or_url png_filename width resolution mapzen_key
    (w w' : list event) :
  render filename_or_url png_filename width resolution mapzen_key w = (Ok (), w') →
  ∃ src_filename source_events lonlats xmin ymin xmax ymax surface context scale
    z drawn,
    ((src_filename = filename_or_url ∧ source_events = []) ∨
     ∃ got,
       requests_get filename_or_url = Ok got ∧
       src_filename
       = mkstemp "Preview-" (splitext (urlparse filename_or_url).2).2 ∧
       source_events
       = [EvGet filename_or_url; EvWriteFile src_filename (content got)]) ∧
    iterate_file_points src_filename = Ok lonlats ∧
    calculate_bounds (project_points lonlats) = Ok (xmin, ymin, xmax, ymax) ∧
    make_context xmin ymin xmax ymax width resolution
    = Ok (surface, context, scale) ∧
    calculate_zoom scale resolution = Ok z ∧
    w' = w ++ source_events
           ++ (EvGet ∘ tile_url (py_round z) mapzen_key
                 <$> row_cols (py_round z) xmin ymin xmax ymax)
           ++ [EvWritePng png_filename surface drawn].
Proof.
  intros Hrender.
  apply render_Ok_inv in Hrender
    as (src & w1 & lonlats & xmin & ymin & xmax & ymax & surface & context & scale
        & zoom & muppx & landuse & water & roads & w2 & c1 & c2 & c3 & drawn
        & Hsrc & Hpoints & Hbounds & Hmake & Hzoom & _ & Hget & _ & _ & _ & _ & ->).
  apply get_map_features_requests in Hget as (z & Hz & ->).
  rewrite Hzoom in Hz. injection Hz as <-.
  apply get_local_filename_Ok_inv in Hsrc as [[-> ->]|(got & Hgot & Hname & ->)].
  - exists filename_or_url, [], lonlats, xmin, ymin, xmax, ymax, surface, context,
      scale, zoom, drawn.
    split; [by left|]. do 4 (split; [done|]). by rewrite <- !app_assoc.
  - eexists src, _, lonlats, xmin, ymin, xmax, ymax, surface, context,
      scale, zoom, drawn.
    split; [right; by exists got|]. do 4 (split; [done|]).
    by rewrite <- !app_assoc.
Qed.

End trace.

Lemma render_trace_witness :
  ∃ w' source_events z surface drawn xmin ymin xmax ymax,
    render (H := demo_env empty_tile) "points.csv" "out.png" 668 1 None []
    = (Ok (), w') ∧
    w' = [] ++ source_events
            ++ (EvGet ∘ tile_url (H := demo_env empty_tile) (py_round z) None
                  <$> row_cols (py_round z) xmin ymin xmax ymax)
            ++ [EvWritePng "out.png" surface drawn].
Proof.
  destruct square_render as (requests & drawn0 & Hrender).
  destruct (render_trace (H := demo_env empty_tile) _ _ _ _ _ _ _ Hrender)
    as (src & events & lonlats & xmin & ymin & xmax & ymax & surface & context
        & scale & z & drawn & _ & _ & _ & _ & _ & Hw').
  by eexists _, events, z, surface, drawn, xmin, ymin, xmax, ymax.
Defined.

(** ** The points that are read, in the bounds and in the picture *)

Section valid_rows.
Context `{Externals}.

(** The bounds and the markers of a render that returns are those of the
    points read from the file. *)
Lemma render_bounds_and_markers filename_or_url png_filename width resolution
    mapzen_key (w w' : list event) :
  render filename_or_url png_filename width resolution mapzen_key w = (Ok (), w') →
  ∃ src_filename w1 lonlats xmin ymin xmax ymax surface context scale events basemap,
    get_local_filename filename_or_url w = (Ok src_filename, w1) ∧
    iterate_file_points src_filename = Ok lonlats ∧
    calculate_bounds (project_points lonlats) = Ok (xmin, ymin, xmax, ymax) ∧
    make_context xmin ymin xmax ymax width resolution
    = Ok (surface, context, scale) ∧
    w' = events ++
         [EvWritePng png_filename surface
            (basemap ++ draw_points [] (project_points lonlats))] ∧
    Forall (λ c, ¬ is_arc c) basemap ∧
    length (filter is_arc (basemap ++ draw_points [] (project_points lonlats)))
    = (2 * length lonlats)%nat.
Proof.
  intros Hrender.
  apply render_Ok_inv in Hrender
    as (src & w1 & lonlats & xmin & ymin & xmax & ymax & surface & context & scale
        & zoom & muppx & landuse & water & roads & w2 & c1 & c2 & c3 & drawn
        & Hsrc & Hpoints & Hbounds & Hmake & _ & _ & _ & Hc1 & Hc2 & Hc3 & -> & ->).
  apply stroke_geometries_no_arc in Hc3 as (road_cmds & -> & Hroads).
  apply fill_geometries_no_arc in Hc2 as (water_cmds & -> & Hwater).
  apply fill_geometries_no_arc in Hc1 as (land_cmds & -> & Hland).
  pose proof (make_context_Ok_inv _ _ _ _ _ _ _ _ _ Hmake) as (Hw & Hh & _).
  pose proof Hmake as Hcontext.
  rewrite make_context_ok in Hcontext by done. cbv zeta in Hcontext.
  injection Hcontext as _ Hcontext _.
  set (basemap :=
    (((((context ++ [set_source_rgb off_white;
                    Rectangle xmin ymax (xmax - xmin) (ymin - ymax); Fill])
       ++ land_cmds) ++ water_cmds)
     ++ [SetLineWidth (0.5 * muppx); set_source_rgb road_stroke]) ++ road_cmds)
    ++ [SetLineWidth (0.25 * muppx)]).
  assert (Hnone : Forall (λ c, ¬ is_arc c) basemap).
  { unfold basemap. rewrite <- Hcontext.
    repeat (apply Forall_app; split); try done; no_arcs. }
  exists src, w1, lonlats, xmin, ymin, xmax, ymax, surface, context, scale, w2,
    basemap.
  do 4 (split; [done|]). split; [done|]. split; [done|].
  rewrite filter_app, length_app, filter_no_arc, filter_arc_draw_points by done.
  unfold project_points. by rewrite length_fmap.
Qed.

End valid_rows.

Lemma fmt7_decimal (n d : Z) (x : R) :
  x = IZR n / IZR d → (0 < d)%Z → (d | 10 ^ 7)%Z → fmt7 x = x.
Proof.
  intros -> Hd [q Hq].
  assert (Hd' : IZR d ≠ 0) by (apply not_0_IZR; lia).
  assert (Hten : 10 ^ 7 = IZR q * IZR d).
  { rewrite <- mult_IZR, <- Hq. change (IZR (10 ^ 7)) with 10000000.
    simpl. lra. }
  replace (IZR n / IZR d) with (IZR (n * q) / 10 ^ 7).
  - apply fmt7_fixed.
  - rewrite mult_IZR, Hten. field. split; [done|].
    intros Hq0. rewrite Hq0 in Hten. 
    assert (0 < 10 ^ 7) by (apply pow_lt; lra). lra.
Qed.

(** The zip archive of the concrete environment: two valid rows of five. *)
Lemma zip_render :
  ∃ requests drawn,
    render (H := demo_env empty_tile) "points.zip" "out.png" 668 1 None []
    = (Ok (), requests ++
              [EvWritePng "out.png"
                 {| surface_width := 668; surface_height := 329 |} drawn]).
Proof.
  unfold render.
  rewrite (bindM_run_Ok _ _ "points.zip" [] []) by done.
  rewrite demo_zip_points, bindM_lift_Ok.
  assert (Hproject : project_points (H := demo_env empty_tile)
                       [(-30.5, 20); (10, 40)] = [(-30.5, 20); (10, 40)]).
  { unfold project_points. simpl.
    rewrite (fmt7_decimal (-305) 10 (-30.5)), (fmt7_IZR 20), (fmt7_IZR 10),
      (fmt7_IZR 40); [done|lra|lia|]. by exists 1000000%Z. }
  rewrite Hproject, calculate_bounds_pair by lra.
  rewrite bindM_lift_Ok. cbv beta iota.
  rewrite make_context_ok by (intros Hz; lra). cbv zeta.
  replace (1 * 668) with (IZR 668) by lra. rewrite py_int_IZR.
  rewrite (py_int_trunc _ 329) by lra.
  rewrite bindM_lift_Ok. cbv beta iota.
  match goal with
  | |- context [calculate_zoom ?s 1] =>
      destruct (calculate_zoom_ok s 1) as [z Hz]; [lra..|];
      rewrite Hz, bindM_lift_Ok;
      rewrite (truediv_ok 1 s), bindM_lift_Ok by lra; cbv zeta;
      match goal with
      | |- context [get_map_features ?a ?b ?c ?d 1 s None] =>
          destruct (empty_get_map_features a b c d 1 s None []) as [requests Hget];
            [lra..|]
      end
  end.
  rewrite (bindM_run_Ok _ _ _ _ _ Hget). cbv beta iota.
  change (fill_geometries ?c [] ?m ?rgb) with (Ok (c ++ [set_source_rgb rgb])).
  rewrite !bindM_lift_Ok.
  change (stroke_geometries ?c []) with (Ok c).
  rewrite bindM_lift_Ok. by eexists requests, _.
Qed.

(** C5: the loop over the rows yields, in order, the point of every row whose
    LON and LAT cells are both there, both parse as numbers, and lie in
    [-180, 180] and [-90, 90]; every other row is passed over, and no row
    makes the loop raise.  So a CSV file, or the first CSV entry of a zip
    archive, is read to exactly its valid points.  In a render that
    returns, these points, projected, are what [calculate_bounds] makes the
    box of, and each of them gets its marker, two arcs, drawn after a base
    map without arcs.  Of five rows in a zip archive, two with a LON that
    is not a number and one with latitude 95, the two others are yielded,
    the box is theirs, and the picture has two markers. *)
Theorem iterate_file_points_yields_valid_rows :
  (∀ (E : Externals) (rows : list Row), rows_points rows = omap valid_point rows) ∧
  (∀ (E : Externals) filename rows,
     str_lower (splitext filename).2 = ".csv" →
     read_csv filename = Ok rows →
     iterate_file_points filename = Ok (omap valid_point rows)) ∧
  (∀ (E : Externals) filename name rows entries rest,
     str_lower (splitext filename).2 = ".zip" →
     read_zip filename = Ok entries →
     filter (λ entry, endswith entry.1 ".csv" = true) entries
       = (name, Ok rows) :: rest →
     iterate_file_points filename = Ok (omap valid_point rows)) ∧
  (∀ (E : Externals) filename_or_url png_filename width resolution mapzen_key w w',
     render filename_or_url png_filename width resolution mapzen_key w = (Ok (), w') →
     ∃ src_filename w1 lonlats xmin ymin xmax ymax surface context scale events
       basemap,
       get_local_filename filename_or_url w = (Ok src_filename, w1) ∧
       iterate_file_points src_filename = Ok lonlats ∧
       calculate_bounds (project_points lonlats) = Ok (xmin, ymin, xmax, ymax) ∧
       make_context xmin ymin xmax ymax width resolution
       = Ok (surface, context, scale) ∧
       w' = events ++
            [EvWritePng png_filename surface
               (basemap ++ draw_points [] (project_points lonlats))] ∧
       Forall (λ c, ¬ is_arc c) basemap ∧
       length (filter is_arc (basemap ++ draw_points [] (project_points lonlats)))
       = (2 * length lonlats)%nat) ∧
  (length five_rows = 5%nat ∧
   iterate_file_points (H := demo_env empty_tile) "points.zip"
   = Ok [(-30.5, 20); (10, 40)] ∧
   calculate_bounds
     (project_points (H := demo_env empty_tile) [(-30.5, 20); (10, 40)])
   = Ok (-30.5 - (10 - -30.5) / 50, 20 - (40 - 20) / 50,
         10 + (10 - -30.5) / 50, 40 + (40 - 20) / 50) ∧
   ∃ events surface basemap,
     render (H := demo_env empty_tile) "points.zip" "out.png" 668 1 None []
     = (Ok (), events ++
               [EvWritePng "out.png" surface
                  (basemap ++ draw_points [] [(-30.5, 20); (10, 40)])]) ∧
     Forall (λ c, ¬ is_arc c) basemap ∧
     length (filter is_arc (basemap ++ draw_points [] [(-30.5, 20); (10, 40)]))
     = 4%nat).
Proof.
  split; [intros; apply rows_points_valid|].
  split; [intros; by apply iterate_csv|].
  split; [intros; by eapply iterate_zip|].
  split; [intros; by eapply render_bounds_and_markers|].
  assert (Hproject : project_points (H := demo_env empty_tile)
                       [(-30.5, 20); (10, 40)] = [(-30.5, 20); (10, 40)]).
  { unfold project_points. simpl.
    rewrite (fmt7_decimal (-305) 10 (-30.5)), (fmt7_IZR 20), (fmt7_IZR 10),
      (fmt7_IZR 40); [done|lra|lia|]. by exists 1000000%Z. }
  split; [done|]. split; [apply demo_zip_points|].
  split; [rewrite Hproject; apply calculate_bounds_pair; lra|].
  destruct zip_render as (requests & drawn & Hrender).
  destruct (render_bounds_and_markers (H := demo_env empty_tile) _ _ _ _ _ _ _ Hrender)
    as (src & w1 & lonlats & xmin & ymin & xmax & ymax & surface & context & scale
        & events & basemap & Hsrc & Hpoints & _ & _ & Hw' & Hnone & Harcs).
  injection Hsrc as <- <-. rewrite demo_zip_points in Hpoints.
  injection Hpoints as <-. rewrite Hproject in Hw', Harcs.
  exists events, surface, basemap. by rewrite Hrender, Hw'.
Qed.

Lemma iterate_file_points_yields_valid_rows_witness :
  iterate_file_points (H := demo_env JNull) "points.csv"
  = Ok (omap (valid_point (H := demo_env JNull)) square_rows) ∧
  ∃ lonlats events surface basemap,
    iterate_file_points (H := demo_env empty_tile) "points.csv" = Ok lonlats ∧
    render (H := demo_env empty_tile) "points.csv" "out.png" 668 1 None []
    = (Ok (), events ++
              [EvWritePng "out.png" surface
                 (basemap
                  ++ draw_points []
                       (project_points (H := demo_env empty_tile) lonlats))]) ∧
    length (filter is_arc
              (basemap
               ++ draw_points []
                    (project_points (H := demo_env empty_tile) lonlats)))
    = (2 * length lonlats)%nat.
Proof.
  destruct iterate_file_points_yields_valid_rows as (_ & Hcsv & _ & Hrender & _).
  split; [apply (Hcsv (demo_env JNull) "points.csv" square_rows); reflexivity|].
  destruct square_render as (requests & drawn & Hsquare).
  destruct (Hrender (demo_env empty_tile) _ _ _ _ _ _ _ Hsquare)
    as (src & w1 & lonlats & xmin & ymin & xmax & ymax & surface & context & scale
        & events & basemap & Hsrc & Hpoints & _ & _ & Hw' & _ & Harcs).
  injection Hsrc as <- <-.
  exists lonlats, events, surface, basemap. by rewrite Hsquare, Hw'.
Defined.

(** ** A picture without a height *)

Lemma flat_rows_points (body : json) :
  omap (valid_point (H := demo_env body)) flat_rows = [(0, 0); (100, 0.1)].
Proof.
  unfold flat_rows, valid_point. simpl omap.
  rewrite !(proj1 (demo_row_number body _ _)), !(proj2 (demo_row_number body _ _)).
  rewrite (demo_float_value "0" 0 1), (demo_float_value "100" 100 1),
    (demo_float_value "0.1" 1 10) by (by vm_compute).
  simpl.
  case_ranges.
  simpl. f_equal; [|f_equal]; f_equal; lra.
Qed.

(** The two points of [flat.csv] give a box a thousand times as wide as
    high and a surface of 668 by 0 pixels; every stage returns, and the
    render ends in the exception of [write_to_png]. *)
Lemma flat_render :
  ∃ requests,
    render (H := demo_env empty_tile) "flat.csv" "out.png" 668 1 None []
    = (Raise (OtherError "cairo.Error"), requests ++ [EvWritePngFailed "out.png"]).
Proof.
  unfold render.
  rewrite (bindM_run_Ok _ _ "flat.csv" [] []) by done.
  rewrite (iterate_csv (H := demo_env empty_tile) "flat.csv" flat_rows) by done.
  rewrite bindM_lift_Ok, flat_rows_points.
  assert (Hproject : project_points (H := demo_env empty_tile)
                       [(0, 0); (100, 0.1)] = [(0, 0); (100, 0.1)]).
  { unfold project_points. simpl.
    rewrite (fmt7_decimal 1 10 0.1), (fmt7_IZR 0), (fmt7_IZR 100);
      [done|lra|lia|]. by exists 1000000%Z. }
  rewrite Hproject, calculate_bounds_pair by lra.
  rewrite bindM_lift_Ok. cbv beta iota.
  rewrite make_context_ok by (intros Hz; lra). cbv zeta.
  replace (1 * 668) with (IZR 668) by lra. rewrite py_int_IZR.
  rewrite (py_int_trunc _ 0) by lra.
  rewrite bindM_lift_Ok. cbv beta iota.
  match goal with
  | |- context [calculate_zoom ?s 1] =>
      destruct (calculate_zoom_ok s 1) as [z Hz]; [lra..|];
      rewrite Hz, bindM_lift_Ok;
      rewrite (truediv_ok 1 s), bindM_lift_Ok by lra; cbv zeta;
      match goal with
      | |- context [get_map_features ?a ?b ?c ?d 1 s None] =>
          destruct (empty_get_map_features a b c d 1 s None []) as [requests Hget];
            [lra..|]
      end
  end.
  rewrite (bindM_run_Ok _ _ _ _ _ Hget). cbv beta iota.
  change (fill_geometries ?c [] ?m ?rgb) with (Ok (c ++ [set_source_rgb rgb])).
  rewrite !bindM_lift_Ok.
  change (stroke_geometries ?c []) with (Ok c).
  rewrite bindM_lift_Ok. by exists requests.
Qed.

Lemma render_aborts_before_png_witness :
  (render (H := demo_env empty_tile) "ftp://example.org/points.csv" "out.png"
     668 1 None [] = (Raise ValueError, []) ∧
   ∃ e events,
     @Raise () ValueError = Raise e ∧ [] = [] ++ events ∧
     Forall (λ ev, ¬ is_png ev) events) ∧
  ∃ w' w2 surface drawn events e,
    render (H := demo_env empty_tile) "flat.csv" "out.png" 668 1 None []
    = (Raise e, w') ∧
    ready_to_write (H := demo_env empty_tile) "flat.csv" 668 1 None [] w2
      surface drawn ∧
    w2 = [] ++ events ∧ Forall (λ ev, ¬ is_png ev) events ∧
    cairo_write_to_png (Externals := demo_env empty_tile) surface "out.png"
    = Raise e ∧
    w' = w2 ++ [EvWritePngFailed "out.png"].
Proof.
  split.
  - split; [reflexivity|].
    destruct (proj1 (render_aborts_before_png (H := demo_env empty_tile))
                "ftp://example.org/points.csv" "out.png" 668 1 None
                [] (Raise ValueError) [] eq_refl)
      as [Hearly|(w2 & surface & drawn & events & _ & _ & _
                  & [(? & _)|(e & _ & _ & Hw)])].
    + exact Hearly.
    + done.
    + by destruct w2.
  - destruct flat_render as [requests Hrender].
    destruct (proj1 (render_aborts_before_png (H := demo_env empty_tile))
                _ _ _ _ _ _ _ _ Hrender)
      as [(e & events & _ & Hw & Hq)
         |(w2 & surface & drawn & events & Hready & Hw2 & Hq
           & [(? & _)|(e & He & Hraise & Hw)])].
    + exfalso. rewrite app_nil_l in Hw. subst events.
      rewrite Forall_app, Forall_singleton in Hq. by apply (proj2 Hq).
    + done.
    + injection He as <-. apply app_inj_tail in Hw as [-> _].
      by exists (w2 ++ [EvWritePngFailed "out.png"]), w2, surface, drawn,
        events, (OtherError "cairo.Error").
Defined.

(** C7, as stated, fails where cairo cannot write the surface: for the two
    points of [flat.csv] every stage of the render returns, the surface is
    668 by 0 pixels, and the render raises in [write_to_png]; this failure
    does not end the render before the PNG, but in the writing of it. *)
Lemma render_fails_in_the_write :
  ∃ requests surface drawn,
    ready_to_write (H := demo_env empty_tile) "flat.csv" 668 1 None [] requests
      surface drawn ∧
    cairo_write_to_png (Externals := demo_env empty_tile) surface "out.png"
    = Raise (OtherError "cairo.Error") ∧
    render (H := demo_env empty_tile) "flat.csv" "out.png" 668 1 None []
    = (Raise (OtherError "cairo.Error"),
       requests ++ [EvWritePngFailed "out.png"]).
Proof.
  destruct flat_render as [requests Hrender]. pose proof Hrender as Hinv.
  apply render_inv in Hinv
    as [(e & events & _ & Hw & Hq)|(w2 & surface & drawn & Hready & Hwrite)].
  - exfalso. rewrite app_nil_l in Hw. subst events.
    rewrite Forall_app, Forall_singleton in Hq. by apply (proj2 Hq).
  - apply write_to_png_inv in Hwrite as [(? & _)|(e & He & Hraise & Hw)]; [done|].
    injection He as <-. apply app_inj_tail in Hw as [-> _].
    by exists w2, surface, drawn.
Qed.
